(** * Transition-manifold numerics of [tram]: a shallow embedding

    The development follows [src/tram/manifold_learning.py] and
    [src/tram/transition_manifold.py].

    Conventions of the embedding:
    - a NumPy [float64] is an ideal real number ([R]); rounding, [nan] and
      [inf] are outside the model, so every statement below is about the
      arithmetic the code spells out, read over the reals;
    - a 2-axis array is the list of its rows, a 1-axis array a list; an
      array without rows therefore does not record its column count, and
      the statements about [diffusionMaps] are about inputs with at least
      one row (on an input without rows the built-in [sum] of line 45
      returns the integer [0], which [np.diag] refuses);
    - a 3-axis array carries its [shape] next to its items, as NumPy does;
    - loops are folds over [range], nested loops run over the list of
      their index pairs, in-place item assignment is list update;
    - a method is a function from the instance to the new instance and a
      result; [raise] is the [Raise] result;
    - collaborators that live outside the repository (the kernel object,
      scikit-learn samplers and density estimators, SciPy eigensolvers and
      quadrature, the NumPy random generator) are [Variable]s of the
      section that uses them. *)

From Stdlib Require Import Reals Lra Lia ZArith String.
From stdpp Require Import base list.

#[global] Instance R_inhabited : Inhabited R := populate 0%R.

(** * Part I: the embedding *)

(** ** Exceptions and results *)

Inductive exn :=
| RuntimeError (msg : string)
| ValueError (msg : string)
| TypeError (msg : string).

Inductive result (A : Type) :=
| Ok (a : A)
| Raise (e : exn).
Arguments Ok {A} a.
Arguments Raise {A} e.

Definition is_ok {A : Type} (r : result A) : Prop :=
  match r with Ok _ => True | Raise _ => False end.

(** ** Arrays *)

Abbreviation point := (list R) (only parsing).
Abbreviation vector := (list R) (only parsing).
Abbreviation matrix := (list (list R)) (only parsing).

(** A start-point ensemble, [X.shape = (shape0, shape1, shape2)]. *)
Record ndarray3 := NdArray3 {
  shape0 : nat;
  shape1 : nat;
  shape2 : nat;
  items : list (list point)
}.

(** The items agree with the declared shape. *)
Definition wf3 (X : ndarray3) : Prop :=
  length (items X) = shape0 X /\
  Forall (fun cloud => length cloud = shape1 X /\
                       Forall (fun p : point => length p = shape2 X) cloud)
         (items X).

(** [rows n m A]: [A] has shape [(n, m)]. *)
Definition rows (n m : nat) (A : matrix) : Prop :=
  length A = n /\ Forall (fun r => length r = m) A.

(** [X[i, :, :]], start point [i]'s cloud. *)
Definition cloud_of (X : ndarray3) (i : nat) : list point := items X !!! i.

Section Generic.
Context {A : Type}.

(** [for i in range(n): s = body i s] *)
Definition for_range {S : Type} (n : nat) (body : nat -> S -> S) (s : S) : S :=
  foldl (fun s i => body i s) s (seq 0 n).

(** The index pairs visited by
    [for i in range(n): for j in range(inner i): ...], in order. *)
Definition range2 (n : nat) (inner : nat -> nat) : list (nat * nat) :=
  i ← seq 0 n; (fun j => (i, j)) <$> seq 0 (inner i).

(** Exchange of the two leading axes of an array whose second axis has
    length [m]: item [j][i] of the result is item [i][j] of [X]. *)
Fixpoint transpose (m : nat) (X : list (list A)) : list (list A) :=
  match X with
  | [] => replicate m []
  | r :: X' => zip_with cons r (transpose m X')
  end.

(** [l[start::step]] is [take_every step start l]: [wait] counts the
    items still to be skipped before the next one is kept.  Python
    raises [ValueError] for [step = 0]; the callers below slice with
    [step = npoints] inside [for i in range(npoints)], where it is
    positive. *)
Fixpoint take_every (step wait : nat) (l : list A) : list A :=
  match l with
  | [] => []
  | x :: l' =>
      match wait with
      | O => x :: take_every step (pred step) l'
      | S w => take_every step w l'
      end
  end.

Definition slice_step (start step : nat) (l : list A) : list A :=
  take_every step start l.

(** [l[:stop]] for a Python integer [stop]: a negative [stop] counts
    from the end, and a [stop] beyond either end is clipped. *)
Definition slice_to (stop : Z) (l : list A) : list A :=
  if (0 <=? stop)%Z then take (Z.to_nat stop) l
  else take (Z.to_nat (Z.of_nat (length l) + stop)) l.

(** [cnt] consecutive chunks of [k] items: C-order [reshape] of a flat
    array to [(cnt, k)]. *)
Fixpoint chunks (k cnt : nat) (l : list A) : list (list A) :=
  match cnt with
  | O => []
  | S cnt' => take k l :: chunks k cnt' (drop k l)
  end.

(** Boolean-mask indexing [l[mask]]. *)
Definition mask_select (mask : list bool) (l : list A) : list A :=
  snd <$> filter (fun bx => fst bx = true) (zip mask l).
End Generic.

(** [_reshape(X)]: [X.swapaxes(0,1).reshape(n_startpoints * M, dim)]. *)
Definition _reshape (X : ndarray3) : list point :=
  let n_startpoints := shape0 X in
  let M := shape1 X in
  concat (transpose M (items X)).

(** [X.reshape(n_points * M, dim)] in C order. *)
Definition reshape_flat (X : ndarray3) : list point := concat (items X).

Open Scope R_scope.

(** ** Real arrays *)

(** [np.sum] of a 1-axis array. *)
Definition Rsum (v : vector) : R := foldr Rplus 0 v.

(** [np.sum(G)] over all entries. *)
Definition np_sum (G : matrix) : R := Rsum (Rsum <$> G).

Definition vadd (u v : vector) : vector := zip_with Rplus u v.

(** [np.sum(A, axis=0)] and [A.sum(axis=0)]: the sum of the rows, a vector
    of [m] column sums. *)
Definition sum_axis0 (m : nat) (A : matrix) : vector :=
  foldr vadd (replicate m 0) A.

(** The builtin [sum(A, 0)]: starts from the scalar [0], which the first
    addition broadcasts, and adds the rows from the left. *)
Definition builtin_sum (m : nat) (A : matrix) : vector :=
  foldl vadd (replicate m 0) A.

Definition np_zeros (n m : nat) : matrix := replicate n (replicate m 0).

Definition getitem2 (D : matrix) (i j : nat) : R := (D !!! i) !!! j.

(** The sum of column [j] and the sum of row [i] of an array of shape
    [(n, m)], written with indices. *)
Definition col_sum (n : nat) (A : matrix) (j : nat) : R :=
  Rsum ((fun i => getitem2 A i j) <$> seq 0 n).

Definition row_sum (m : nat) (A : matrix) (i : nat) : R :=
  Rsum ((fun j => getitem2 A i j) <$> seq 0 m).

(** [D[i,j] = v] *)
Definition setitem2 (D : matrix) (i j : nat) (v : R) : matrix :=
  alter (fun r => <[j := v]> r) i D.

(** The body [D[i,j] = f i j] run over a list of index pairs. *)
Definition fill (idx : list (nat * nat)) (f : nat -> nat -> R) (D : matrix)
  : matrix :=
  foldl (fun D ij => setitem2 D ij.1 ij.2 (f ij.1 ij.2)) D idx.

(** Elementwise [A + B] and [A / B] of two arrays of one shape. *)
Definition madd (A B : matrix) : matrix := zip_with (zip_with Rplus) A B.
Definition mdiv (A B : matrix) : matrix := zip_with (zip_with Rdiv) A B.

(** The assembly pattern of the two kernel builders: loops that assign
    [f i j] to the items [j < i] of a zero matrix, followed by
    [distMat + np.transpose(distMat)]. *)
Definition mirrored (n : nat) (f : nat -> nat -> R) : matrix :=
  let L := fill (range2 n (fun i => i)) f (np_zeros n n) in
  madd L (transpose n L).

Definition np_outer (u v : vector) : matrix :=
  (fun x => (fun y => x * y) <$> v) <$> u.

(** [np.tile(v, (n, 1))] *)
Definition np_tile (v : vector) (n : nat) : matrix := replicate n v.

(** [np.diag(v)] *)
Definition np_diag (v : vector) : matrix :=
  imap (fun i x => <[i := x]> (replicate (length v) 0)) v.

Definition dot (u v : vector) : R := Rsum (zip_with Rmult u v).

(** [A @ B] for [B] with [m] columns. *)
Definition matmul (m : nat) (A B : matrix) : matrix :=
  (fun r : vector => (fun c : vector => dot r c) <$> transpose m B) <$> A.

(** [x ** alpha] on a positive float.  The engine applies it to sums of
    exponentials only. *)
Definition float_power (x alpha : R) : R := Rpower x alpha.

(** [A * v[np.newaxis, :]] under NumPy broadcasting of shapes [(n, a)]
    and [(1, b)].  Without rows the product has no rows either. *)
Definition broadcast_mul_row (A : matrix) (v : vector) : result matrix :=
  match A with
  | [] => Ok []
  | r :: _ =>
      if decide (length r = length v) then
        Ok ((fun row : vector => zip_with Rmult row v) <$> A)
      else if decide (length v = 1%nat) then
        Ok ((fun row : vector => (fun x => x * (v !!! O)) <$> row) <$> A)
      else if decide (length r = 1%nat) then
        Ok ((fun row : vector => (fun y => (row !!! O) * y) <$> v) <$> A)
      else Raise (ValueError "operands could not be broadcast together")
  end.

(** ** [manifold_learning.py] *)

Definition complex := (R * R)%type.
Definition real (z : complex) : R := z.1.

(** [(eigenvalues, eigenvectors)] as returned by the eigensolver. *)
Definition eigs_t := (list complex * list (list complex))%type.

(** An eigen-decomposition computed with [m] components for [n]
    features: [m] eigenvalues and an [(n, m)] array of eigenvectors. *)
Definition eigs_shape (n m : nat) (eigs : eigs_t) : Prop :=
  length eigs.1 = m /\ length eigs.2 = n /\
  Forall (fun r : list complex => length r = m) eigs.2.

Module ml.
Section DiffusionMaps.
(** [scipy.sparse.linalg.eigs(A, k, M)] *)
Variable sla_eigs : matrix -> nat -> matrix -> result eigs_t.

(** Line 38: [np.exp(-distMat**2/epsi)]. *)
Definition gaussian (epsi : R) (distMat : matrix) : matrix :=
  (fun r : vector => (fun d => exp (- (d ^ 2) / epsi)) <$> r) <$> distMat.

(** Lines 39 and 42: the density compensation. *)
Definition density_normalize (alpha : R) (kernelMat : matrix) : matrix :=
  let rowsum := sum_axis0 (length kernelMat) kernelMat in
  let w := (fun s => float_power s alpha) <$> rowsum in
  mdiv kernelMat (np_outer w w).

(** Line 45, under the comment [# row normalization]. *)
Definition row_normalize (kernelMat : matrix) : matrix :=
  let npoints := length kernelMat in
  mdiv kernelMat (np_tile (builtin_sum npoints kernelMat) npoints).

(** Line 48, applied to the [kernelMat] of line 45. *)
Definition weight_matrix (kernelMat : matrix) : matrix :=
  np_diag (builtin_sum (length kernelMat) kernelMat).

(** The two operands handed to the eigensolver. *)
Definition diffusion_operator (distMat : matrix) (epsi alpha : R)
  : matrix * matrix :=
  let kernelMat := gaussian epsi distMat in
  let kernelMat := density_normalize alpha kernelMat in
  let kernelMat := row_normalize kernelMat in
  let weightMat := weight_matrix kernelMat in
  (kernelMat, weightMat).

(** [diffusionMaps(distMat, n_components=10, epsi=1., alpha=0.5)] for a
    square [distMat]. *)
Definition diffusionMaps (distMat : matrix) (n_components : nat)
    (epsi alpha : R) : result eigs_t :=
  let '(kernelMat, weightMat) := diffusion_operator distMat epsi alpha in
  sla_eigs kernelMat n_components weightMat.

(** [evaluateDiffusionMaps(eigs, n_components)] *)
Definition evaluateDiffusionMaps (eigs : eigs_t) (n_components : Z)
  : result matrix :=
  broadcast_mul_row
    ((fun r : list complex => slice_to n_components (real <$> r)) <$> eigs.2)
    (slice_to n_components (real <$> eigs.1)).
End DiffusionMaps.
End ml.

(** ** [manifold_learning.py] on input of any shape

    [diffusionMaps] is also called with arrays that are not square:
    [KernelTrajTransitionManifold.computeRC] passes its test points and
    [EmbeddingBurstTransitionManifold.computeRC] its embedded points.  On
    such input the two divisions of lines 42 and 45 go through NumPy's
    broadcasting, which is written out here for 2-axis arrays with at
    least one row. *)

(** [A.shape] of an array with at least one row. *)
Definition np_shape (A : matrix) : nat * nat := (length A, length (hd [] A)).

(** The length of a broadcast axis: both lengths agree, or one is [1]. *)
Definition broadcast_dim (a b : nat) : option nat :=
  if decide (a = b) then Some a
  else if decide (a = 1%nat) then Some b
  else if decide (b = 1%nat) then Some a
  else None.

(** [np.broadcast_to(A, (n, m))]: an axis of length [1] is repeated. *)
Definition broadcast_to (n m : nat) (A : matrix) : matrix :=
  let '(a, b) := np_shape A in
  (fun i => (fun j => getitem2 A (if decide (a = 1%nat) then O else i)
                                 (if decide (b = 1%nat) then O else j))
              <$> seq 0 m) <$> seq 0 n.

(** [A / B] of two 2-axis arrays.  NumPy completes the message of the
    exception with the two shapes. *)
Definition broadcast_div (A B : matrix) : result matrix :=
  match broadcast_dim (np_shape A).1 (np_shape B).1,
        broadcast_dim (np_shape A).2 (np_shape B).2 with
  | Some n, Some m => Ok (mdiv (broadcast_to n m A) (broadcast_to n m B))
  | _, _ => Raise (ValueError "operands could not be broadcast together")
  end.

Module manifold_learning.
Section DiffusionMaps.
(** [diffusionMaps] hands [n_components] to the solver as it is, whatever
    its type. *)
Variable K : Type.
Variable sla_eigs : matrix -> K -> matrix -> result eigs_t.

(** [diffusionMaps(distMat, n_components=10, epsi=1., alpha=0.5)] *)
Definition diffusionMaps (distMat : matrix) (n_components : K)
    (epsi alpha : R) : result eigs_t :=
  let npoints := (np_shape distMat).1 in
  let kernelMat := ml.gaussian epsi distMat in
  let rowsum := sum_axis0 (np_shape kernelMat).2 kernelMat in
  let w := (fun s => float_power s alpha) <$> rowsum in
  match broadcast_div kernelMat (np_outer w w) with
  | Raise e => Raise e
  | Ok kernelMat =>
      match broadcast_div kernelMat
              (np_tile (builtin_sum (np_shape kernelMat).2 kernelMat) npoints)
      with
      | Raise e => Raise e
      | Ok kernelMat =>
          let weightMat :=
            np_diag (builtin_sum (np_shape kernelMat).2 kernelMat) in
          sla_eigs kernelMat n_components weightMat
      end
  end.
End DiffusionMaps.

Section L2distance.
(** The density estimate and the quadrature, as in
    [L2BurstTransitionManifold] below; [system.domain]. *)
Variable score_samples : R -> list point -> point -> R.
Variable dblquad : (R -> R -> R) -> R -> R -> R -> R -> R * R.
Variable System : Type.
Variable domain : System -> matrix.

(** [L2distance(system, cloud1, cloud2, rho, epsi)] *)
Definition L2distance (system : System) (cloud1 cloud2 : list point)
    (rho : R -> R -> R) (epsi : R) : R * R :=
  let kde1fun x y := exp (score_samples epsi cloud1 [x; y]) in
  let kde2fun x y := exp (score_samples epsi cloud2 [x; y]) in
  let integrand x y := (kde1fun x y - kde2fun x y) ^ 2 / rho x y in
  dblquad integrand
    (getitem2 (domain system) 0 0) (getitem2 (domain system) 1 0)
    (getitem2 (domain system) 0 1) (getitem2 (domain system) 1 1).
End L2distance.
End manifold_learning.

Arguments manifold_learning.diffusionMaps {K}.
Arguments manifold_learning.L2distance _ _ {System}.

(** ** [transition_manifold.py]: the kernel builders *)

(** Modelled from the spec: the kernel collaborator is not part of the
    sources; its [evaluate(X, Y)] returns the [|X| x |Y|] matrix of the
    pairwise values of a kernel function [k]. *)
Definition gram (k : point -> point -> R) (X Y : list point) : matrix :=
  (fun x => (fun y => k x y) <$> Y) <$> X.

(** The estimate of the spec's section 4.1 for two clouds, written with
    the spec's sums: [S_i/|C_i|^2 + S_j/|C_j|^2 - 2*K_ij/(|C_i|*|C_j|)],
    [S] the sum of [k] over the ordered pairs of a cloud and [K_ij] the
    sum of [k] over [C_i x C_j].  It is what the builders are compared
    with. *)
Definition pair_sum (k : point -> point -> R) (X Y : list point) : R :=
  Rsum ((fun x => Rsum ((fun y => k x y) <$> Y)) <$> X).

Definition mmd_estimate (k : point -> point -> R) (Ci Cj : list point) : R :=
  pair_sum k Ci Ci / INR (length Ci) ^ 2
  + pair_sum k Cj Cj / INR (length Cj) ^ 2
  - 2 * pair_sum k Ci Cj / (INR (length Ci) * INR (length Cj)).

Module KernelBurstTransitionManifold.
Section WithKernel.
(** [self.kernel.evaluate] *)
Variable evaluate : list point -> list point -> matrix.

(** Lines 45 to 49. *)
Definition symmetric_evaluations (npoints : nat) (X : list point) : vector :=
  for_range npoints
    (fun i dXX =>
       let GXX := evaluate (slice_step i npoints X) (slice_step i npoints X) in
       dXX ++ [np_sum GXX])
    [].

(** The index pairs of the loops at lines 54 and 55. *)
Definition loop_indices (npoints : nat) : list (nat * nat) :=
  range2 npoints (fun i => i).

(** Lines 52 to 57: the triangle the loops assign. *)
Definition lower_triangle (npoints M : nat) (X : list point) : matrix :=
  let dXX := symmetric_evaluations npoints X in
  fill (loop_indices npoints)
    (fun i j =>
       let GXY := evaluate (slice_step i npoints X) (slice_step j npoints X) in
       (dXX !!! i + dXX !!! j - 2 * np_sum GXY) / INR (M ^ 2))
    (np_zeros npoints npoints).

(** Lines 41 to 58: [distMat] as handed to [diffusionMaps] and stored. *)
Definition distMat (X : ndarray3) : matrix :=
  let npoints := shape0 X in
  let M := shape1 X in
  let X := _reshape X in
  let distMat := lower_triangle npoints M X in
  madd distMat (transpose npoints distMat).

Variable sla_eigs : matrix -> nat -> matrix -> result eigs_t.

Record t := Build {
  epsi : R;
  M : option nat;
  rc : option eigs_t;
  distMat_ : option matrix
}.

Definition __init__ (epsi : R) : t := Build epsi None None None.

(** [fit(self, X)]: the new instance and the outcome. *)
Definition fit (self : t) (X : ndarray3) : t * result unit :=
  let self := Build (epsi self) (Some (shape1 X)) (rc self) (distMat_ self) in
  let D := distMat X in
  match ml.diffusionMaps sla_eigs D 10 (epsi self) (1/2) with
  | Ok eigs => (Build (epsi self) (M self) (Some eigs) (Some D), Ok tt)
  | Raise e => (self, Raise e)
  end.
End WithKernel.
End KernelBurstTransitionManifold.

Module KernelTrajTransitionManifold.
Section WithKernel.
Variable evaluate : list point -> list point -> matrix.

(** [cKDTree(xtest).query(traj)[1]] and
    [scipy.ndimage.shift(mask, lag, cval=False)]. *)
Variable kdtree_query : list point -> list point -> list nat.
Variable ndimage_shift : list bool -> Z -> list bool.

(** Lines 84 to 96: one cloud per test point. *)
Definition extract_pointclouds (xtest traj : list point) (lag : Z)
  : list (list point) :=
  let npoints := length xtest in
  let closest := kdtree_query xtest traj in
  for_range npoints
    (fun i pointclouds =>
       let laggedInd :=
         ndimage_shift ((fun c => bool_decide (c = i)) <$> closest) lag in
       pointclouds ++ [mask_select laggedInd traj])
    [].

(** Lines 99 to 103. *)
Definition symmetric_evaluations (npoints : nat)
    (pointclouds : list (list point)) : vector :=
  for_range npoints
    (fun i dXX =>
       let GXX := evaluate (pointclouds !!! i) (pointclouds !!! i) in
       dXX ++ [np_sum GXX])
    [].

(** The index pairs of the loops at lines 108 and 110. *)
Definition loop_indices (npoints : nat) : list (nat * nat) :=
  range2 npoints (fun i => i).

(** Lines 106 to 113. *)
Definition lower_triangle (npoints : nat) (pointclouds : list (list point))
  : matrix :=
  let dXX := symmetric_evaluations npoints pointclouds in
  fill (loop_indices npoints)
    (fun i j =>
       let nTrajpointsi := length (pointclouds !!! i) in
       let nTrajpointsj := length (pointclouds !!! j) in
       let GXY := evaluate (pointclouds !!! i) (pointclouds !!! j) in
       dXX !!! i / INR (nTrajpointsi ^ 2)
       + dXX !!! j / INR (nTrajpointsj ^ 2)
       - 2 * np_sum GXY / INR (nTrajpointsi * nTrajpointsj))
    (np_zeros npoints npoints).

(** Lines 98 to 114 of [computeRC]: the matrix assembled from the
    clouds.  (Line 116 then calls [diffusionMaps] with [xtest] in the
    place of the matrix; that call is not part of the builder.) *)
Definition distMat (npoints : nat) (pointclouds : list (list point))
  : matrix :=
  let distMat := lower_triangle npoints pointclouds in
  madd distMat (transpose npoints distMat).

Definition computeRC_distMat (xtest traj : list point) (lag : Z) : matrix :=
  distMat (length xtest) (extract_pointclouds xtest traj lag).

(** The instance.  [rc] is the class attribute [TransitionManifold.rc]
    until [computeRC] assigns it; [self.distMat] does not exist before. *)
Variable System : Type.

(** [sla.eigs(A, k, M)] as line 116 makes [diffusionMaps] call it: with
    the assembled matrix in the place of [k]. *)
Variable sla_eigs : matrix -> matrix -> matrix -> result eigs_t.

Record t := Build {
  system : System;
  xtest : list point;
  traj : list point;
  lag : Z;
  epsi : R;
  rc : option eigs_t;
  distMat_ : option matrix
}.

(** [__init__(self, system, kernel, xtest, traj, lag, epsi=1.)] *)
Definition __init__ (system : System) (xtest traj : list point) (lag : Z)
    (epsi : R) : t :=
  Build system xtest traj lag epsi None None.

(** [computeRC(self)].  Line 116 is
    [eigs = ml.diffusionMaps(self.xtest, distMat, epsi=self.epsi)]: the
    test points are the first argument, the assembled matrix the second
    ([n_components]). *)
Definition computeRC (self : t) : t * result unit :=
  let D := computeRC_distMat (xtest self) (traj self) (lag self) in
  match manifold_learning.diffusionMaps sla_eigs
          (xtest self) D (epsi self) (1/2) with
  | Raise e => (self, Raise e)
  | Ok eigs =>
      (Build (system self) (xtest self) (traj self) (lag self) (epsi self)
             (Some eigs) (Some D), Ok tt)
  end.
End WithKernel.
End KernelTrajTransitionManifold.

Arguments KernelTrajTransitionManifold.Build {System}.
Arguments KernelTrajTransitionManifold.system {System} _.
Arguments KernelTrajTransitionManifold.xtest {System} _.
Arguments KernelTrajTransitionManifold.traj {System} _.
Arguments KernelTrajTransitionManifold.lag {System} _.
Arguments KernelTrajTransitionManifold.epsi {System} _.
Arguments KernelTrajTransitionManifold.rc {System} _.
Arguments KernelTrajTransitionManifold.distMat_ {System} _.
Arguments KernelTrajTransitionManifold.__init__ {System}.
Arguments KernelTrajTransitionManifold.computeRC _ _ _ {System}.

(** ** [transition_manifold.py]: the embedding builder *)

(** [np.tile(A, (reps, 1))] of a 2-axis array: [reps] copies, stacked. *)
Definition np_tile_rows (A : matrix) (reps : nat) : matrix :=
  concat (replicate reps A).

Module EmbeddingBurstTransitionManifold.
Section WithSystem.
(** [system.computeBurst(t, dt, x0, showprogress)], and the embedding
    object with its [outputdimension] and [evaluate]; [sla.eigs]. *)
Variable System : Type.
Variable computeBurst : System -> R -> R -> list point -> list point.
Variable EmbFun : Type.
Variable outputdimension : EmbFun -> nat.
Variable evaluate : EmbFun -> list point -> matrix.
Variable sla_eigs : matrix -> nat -> matrix -> result eigs_t.

Record t := Build {
  system : System;
  embfun : EmbFun;
  xtest : list point;
  t_ : R;
  dt : R;
  M : nat;
  epsi : R;
  embpointclouds : option matrix;
  rc : option eigs_t
}.

(** [__init__(self, system, embfun, xtest, t, dt, M, epsi=1.)] *)
Definition __init__ (system : System) (embfun : EmbFun) (xtest : list point)
    (t_ dt : R) (M : nat) (epsi : R) : t :=
  Build system embfun xtest t_ dt M epsi None None.

(** Lines 142 to 146.  [np.append(..., axis=0)] accepts a row only if it
    has the [outputdimension] columns of the array it extends. *)
Definition embed_pointclouds (self : t) (pointclouds : list point)
  : result matrix :=
  let npoints := length (xtest self) in
  for_range npoints
    (fun i (acc : result matrix) =>
       match acc with
       | Raise e => Raise e
       | Ok embpointclouds =>
           let y := evaluate (embfun self) (slice_step i npoints pointclouds) in
           let row := (fun s => s / INR (M self))
                        <$> sum_axis0 (np_shape y).2 y in
           if decide (length row = outputdimension (embfun self)) then
             Ok (embpointclouds ++ [row])
           else
             Raise (ValueError
                      "all the input array dimensions except for the concatenation axis must match exactly")
       end)
    (Ok []).

(** [computeRC(self)] *)
Definition computeRC (self : t) : t * result unit :=
  let x0 := np_tile_rows (xtest self) (M self) in
  let pointclouds := computeBurst (system self) (t_ self) (dt self) x0 in
  match embed_pointclouds self pointclouds with
  | Raise e => (self, Raise e)
  | Ok emb =>
      let self :=
        Build (system self) (embfun self) (xtest self) (t_ self) (dt self)
              (M self) (epsi self) (Some emb) (rc self) in
      match manifold_learning.diffusionMaps sla_eigs
              emb 10%nat (epsi self) (1/2) with
      | Raise e => (self, Raise e)
      | Ok eigs =>
          (Build (system self) (embfun self) (xtest self) (t_ self) (dt self)
                 (M self) (epsi self) (embpointclouds self) (Some eigs), Ok tt)
      end
  end.
End WithSystem.
End EmbeddingBurstTransitionManifold.

Arguments EmbeddingBurstTransitionManifold.Build {System EmbFun}.
Arguments EmbeddingBurstTransitionManifold.system {System EmbFun} _.
Arguments EmbeddingBurstTransitionManifold.embfun {System EmbFun} _.
Arguments EmbeddingBurstTransitionManifold.xtest {System EmbFun} _.
Arguments EmbeddingBurstTransitionManifold.t_ {System EmbFun} _.
Arguments EmbeddingBurstTransitionManifold.dt {System EmbFun} _.
Arguments EmbeddingBurstTransitionManifold.M {System EmbFun} _.
Arguments EmbeddingBurstTransitionManifold.epsi {System EmbFun} _.
Arguments EmbeddingBurstTransitionManifold.embpointclouds {System EmbFun} _.
Arguments EmbeddingBurstTransitionManifold.rc {System EmbFun} _.
Arguments EmbeddingBurstTransitionManifold.__init__ {System EmbFun}.
Arguments EmbeddingBurstTransitionManifold.embed_pointclouds {System EmbFun}.
Arguments EmbeddingBurstTransitionManifold.computeRC {System} _ {EmbFun}.

(** ** [transition_manifold.py]: the random linear embedding *)

Module RandomLinearEmbeddingFunction.
Section WithNumpyRandom.
(** The state of NumPy's process-wide generator; [np.random.seed(seed)]
    replaces it by a state computed from [seed] (or raises on a seed it
    does not accept); [np.random.uniform(low, high, (n, m))] draws from
    the current state and advances it. *)
Variable RandomState : Type.
Variable np_random_seed : Z -> result RandomState.
Variable np_random_uniform :
  R -> R -> nat * nat -> RandomState -> matrix * RandomState.

Record t := Build {
  inputdimension : nat;
  outputdimension : nat;
  seed : Z;
  A : matrix
}.

(** [__init__(self, inputdimension, outputdimension, seed)], run with
    the process-wide generator in state [g]. *)
Definition __init__ (inputdimension outputdimension : nat) (seed : Z)
    (g : RandomState) : result t * RandomState :=
  match np_random_seed seed with
  | Raise e => (Raise e, g)
  | Ok g =>
      let '(A, g) :=
        np_random_uniform 0 1 (inputdimension, outputdimension) g in
      (Ok (Build inputdimension outputdimension seed A), g)
  end.

(** [evaluate(self, x)]: [x.dot(self.A)]. *)
Definition evaluate (self : t) (x : matrix) : matrix :=
  matmul (outputdimension self) x (A self).
End WithNumpyRandom.
End RandomLinearEmbeddingFunction.

Arguments RandomLinearEmbeddingFunction.__init__ {RandomState}.

(** ** [transition_manifold.py]: the density builder *)

Module L2BurstTransitionManifold.
Section WithEstimators.
(** [KernelDensity(kernel="gaussian", bandwidth=b).fit(cloud)
     .score_samples(np.array([[x, y]]))] and
    [scipy.integrate.dblquad(f, a, b, c, d)], which returns the
    integral estimate and an error estimate. *)
Variable score_samples : R -> list point -> point -> R.
Variable dblquad : (R -> R -> R) -> R -> R -> R -> R -> R * R.

Record t := Build {
  rho : R -> R -> R;
  epsi : R;
  domain : matrix;
  kde_epsi : R;
  distMat_ : option matrix
}.

Definition __init__ (rho : R -> R -> R) (domain : matrix)
    (epsi kde_epsi : R) : t :=
  Build rho epsi domain kde_epsi None.

(** [L2distance(self, cloud1, cloud2)] *)
Definition L2distance (self : t) (cloud1 cloud2 : list point) : R * R :=
  let kde1fun x y := exp (score_samples (kde_epsi self) cloud1 [x; y]) in
  let kde2fun x y := exp (score_samples (kde_epsi self) cloud2 [x; y]) in
  let integrand x y := (kde1fun x y - kde2fun x y) ^ 2 / rho self x y in
  dblquad integrand
    (getitem2 (domain self) 0 0) (getitem2 (domain self) 1 0)
    (getitem2 (domain self) 0 1) (getitem2 (domain self) 1 1).

(** The index pairs of the loops at lines 206 and 207. *)
Definition loop_indices (npoints : nat) : list (nat * nat) :=
  range2 npoints (fun _ => npoints).

(** Lines 200 to 208. *)
Definition distMat (self : t) (X : ndarray3) : matrix :=
  let npoints := shape0 X in
  let X := _reshape X in
  fill (loop_indices npoints)
    (fun i j =>
       (L2distance self (slice_step i npoints X) (slice_step j npoints X)).1)
    (np_zeros npoints npoints).

(** [fit(self, X)] *)
Definition fit (self : t) (X : ndarray3) : t :=
  Build (rho self) (epsi self) (domain self) (kde_epsi self)
        (Some (distMat self X)).
End WithEstimators.
End L2BurstTransitionManifold.

(** ** [transition_manifold.py]: the linear random-feature manifold *)

(** [F.reshape(n, M, c)] of a 2-axis array, in C order. *)
Definition reshape3 (n M c : nat) (F : matrix) : result (list (list vector)) :=
  let flat := concat F in
  if decide (length flat = (n * M * c)%nat) then
    Ok (chunks M n (chunks c (n * M) flat))
  else Raise (ValueError "cannot reshape array").

Module LinearRandomFeatureManifold.
Section WithSklearn.
(** The scikit-learn transformer objects, their constructors,
    [fit_transform] (which returns the fitted object next to the
    features, one row per sample) and [transform]; and
    [scipy.sparse.linalg.eigsh(A, k, which)]. *)
Variable Sampler : Type.
Variable Kwargs : Type.
Variable RBFSampler : R -> nat -> Kwargs -> Sampler.
Variable Nystroem : string -> nat -> Kwargs -> Sampler.
Variable fit_transform : Sampler -> list point -> Sampler * matrix.
Variable transform : Sampler -> list point -> matrix.
Variable eigsh : matrix -> nat -> string -> vector * matrix.

Record t := Build {
  method : string;
  gamma : R;
  kernel : string;
  n_components : nat;
  kwargs : Kwargs;
  sampler : option Sampler;
  embedded : option matrix;
  vec : option matrix;
  n_points : option nat;
  M : option nat;
  dim : option nat
}.

(** [__init__(self, method="rff", n_components=100, kernel="rbf",
    gamma=.1, **kwargs)] *)
Definition __init__ (method : string) (n_components : nat)
    (kernel : string) (gamma : R) (kwargs : Kwargs) : t :=
  Build method gamma kernel n_components kwargs None None None
        None None None.

Definition set_shape (self : t) (X : ndarray3) : t :=
  Build (method self) (gamma self) (kernel self) (n_components self)
        (kwargs self) (sampler self) (embedded self) (vec self)
        (Some (shape0 X)) (Some (shape1 X)) (Some (shape2 X)).

Definition set_sampler (self : t) (s : Sampler) : t :=
  Build (method self) (gamma self) (kernel self) (n_components self)
        (kwargs self) (Some s) (embedded self) (vec self)
        (n_points self) (M self) (dim self).

Definition set_embedded (self : t) (E : matrix) : t :=
  Build (method self) (gamma self) (kernel self) (n_components self)
        (kwargs self) (sampler self) (Some E) (vec self)
        (n_points self) (M self) (dim self).

Definition set_vec (self : t) (v : matrix) : t :=
  Build (method self) (gamma self) (kernel self) (n_components self)
        (kwargs self) (sampler self) (embedded self) (Some v)
        (n_points self) (M self) (dim self).

(** Lines 262 to 269. *)
Definition choose_sampler (self : t) : result Sampler :=
  if String.eqb (method self) "rff" then
    Ok (RBFSampler (gamma self) (n_components self) (kwargs self))
  else if String.eqb (method self) "nystroem" then
    Ok (Nystroem (kernel self) (n_components self) (kwargs self))
  else
    Raise (ValueError
             "Instantiate with either method='rff' or sampler='nystroem'").

(** Line 273: [.sum(axis=1)] of the [(n_points, M, n_components)] array. *)
Definition sum_axis1 (c : nat) (E3 : list (list vector)) : matrix :=
  (fun cloud : matrix => sum_axis0 c cloud) <$> E3.

(** Lines 276 and 277. *)
Definition center (n_points c : nat) (E : matrix) : matrix :=
  let mean := (fun s => s / INR n_points) <$> sum_axis0 c E in
  (fun r : vector => zip_with Rminus r mean) <$> E.

(** Line 278: [E.T @ E]. *)
Definition covariance (n_points c : nat) (E : matrix) : matrix :=
  matmul c (transpose c E) E.

(** [fit(self, X)]: the new instance and the outcome. *)
Definition fit (self : t) (X : ndarray3) : t * result unit :=
  let self := set_shape self X in
  let n_points := shape0 X in
  let M := shape1 X in
  let c := n_components self in
  match choose_sampler self with
  | Raise e => (self, Raise e)
  | Ok s =>
      let '(s, F) := fit_transform s (reshape_flat X) in
      let self := set_embedded (set_sampler self s) F in
      match reshape3 n_points M c F with
      | Raise e => (self, Raise e)
      | Ok E3 =>
          let self := set_embedded self (sum_axis1 c E3) in
          let E := center n_points c (sum_axis1 c E3) in
          let self := set_embedded self E in
          let cov := covariance n_points c E in
          let '(_, v) := eigsh cov 1 "LM" in
          (set_vec self v, Ok tt)
      end
  end.

(** [predict(self, Y)] *)
Definition predict (self : t) (Y : list point) : t * result matrix :=
  match sampler self with
  | None => (self, Raise (RuntimeError "Run fit() first to fit the model."))
  | Some s =>
      let Y_embedded := transform s Y in
      match vec self with
      | Some v => (self, Ok (matmul 1 Y_embedded v))
      | None =>
          (self, Raise (TypeError "unsupported operand type(s) for @"))
      end
  end.
End WithSklearn.
End LinearRandomFeatureManifold.

Arguments LinearRandomFeatureManifold.Build {Sampler Kwargs}.
Arguments LinearRandomFeatureManifold.method {Sampler Kwargs} _.
Arguments LinearRandomFeatureManifold.gamma {Sampler Kwargs} _.
Arguments LinearRandomFeatureManifold.kernel {Sampler Kwargs} _.
Arguments LinearRandomFeatureManifold.n_components {Sampler Kwargs} _.
Arguments LinearRandomFeatureManifold.kwargs {Sampler Kwargs} _.
Arguments LinearRandomFeatureManifold.sampler {Sampler Kwargs} _.
Arguments LinearRandomFeatureManifold.embedded {Sampler Kwargs} _.
Arguments LinearRandomFeatureManifold.vec {Sampler Kwargs} _.
Arguments LinearRandomFeatureManifold.n_points {Sampler Kwargs} _.
Arguments LinearRandomFeatureManifold.M {Sampler Kwargs} _.
Arguments LinearRandomFeatureManifold.dim {Sampler Kwargs} _.
Arguments LinearRandomFeatureManifold.__init__ {Sampler Kwargs}.
Arguments LinearRandomFeatureManifold.choose_sampler {Sampler Kwargs}.
Arguments LinearRandomFeatureManifold.fit {Sampler Kwargs}.
Arguments LinearRandomFeatureManifold.predict {Sampler Kwargs}.

(** ** Auxiliary definitions of the statements *)

Section LoopValues.
Variable evaluate : list point -> list point -> matrix.

(** The value the burst loops assign at [(a, b)], over the clouds. *)
Definition burst_value (X : ndarray3) (a b : nat) : R :=
  (np_sum (evaluate (cloud_of X a) (cloud_of X a))
   + np_sum (evaluate (cloud_of X b) (cloud_of X b))
   - 2 * np_sum (evaluate (cloud_of X a) (cloud_of X b)))
  / INR (shape1 X ^ 2).

(** The value the trajectory loops assign at [(a, b)]. *)
Definition traj_value (pcs : list (list (list R))) (a b : nat) : R :=
  np_sum (evaluate (pcs !!! a) (pcs !!! a)) / INR (length (pcs !!! a) ^ 2)
  + np_sum (evaluate (pcs !!! b) (pcs !!! b)) / INR (length (pcs !!! b) ^ 2)
  - 2 * np_sum (evaluate (pcs !!! a) (pcs !!! b))
    / INR (length (pcs !!! a) * length (pcs !!! b)).

End LoopValues.

(** The length of [l[:stop]] depends on [stop] and the length of [l]
    only. *)
Definition slice_to_len (stop : Z) (len : nat) : nat :=
  if (0 <=? stop)%Z then Nat.min (Z.to_nat stop) len
  else Nat.min (Z.to_nat (Z.of_nat len + stop)) len.


(** ** Concrete inputs *)

(** Two start points with three one-dimensional samples each. *)
Definition ensemble_2x3 : ndarray3 :=
  NdArray3 2 3 1 [[[1]; [2]; [3]]; [[10]; [20]; [30]]].

(** A function of its first argument only, hence not symmetric. *)
Definition first_coordinate (x y : point) : R := x !!! O.

(** Two clouds of one one-dimensional point each. *)
Definition clouds_1_2 : list (list point) := [[[1]]; [[2]]].

(** Two clouds of different sizes: one point, and two points. *)
Definition clouds_unequal : list (list point) := [[[1]]; [[2]; [4]]].


(** A one-point midpoint rule in the place of the quadrature, a constant
    log-density in the place of the density estimate, and an instance
    over the unit square with the reference density [1]. *)
Definition midpoint_rule (f : R -> R -> R) (a b c d : R) : R * R :=
  (f ((a + b) / 2) ((c + d) / 2) * (b - a) * (d - c), 0).

Definition flat_score (bandwidth : R) (cloud : list point) (p : point) : R := 0.

Definition unit_square_instance : L2BurstTransitionManifold.t :=
  L2BurstTransitionManifold.__init__ (fun _ _ => 1) [[0; 0]; [1; 1]] 1 (1/10).

(** A Gram matrix (the identity) and a matrix that is not symmetric. *)
Definition gram_identity_2 : matrix := [[1; 0]; [0; 1]].

Definition dist_asymmetric_2 : matrix := [[0; 1]; [0; 0]].

(** Distance matrices: two coincident start points, and three start
    points of which the first two coincide. *)
Definition dist_coincident_2 : matrix := [[0; 0]; [0; 0]].

Definition dist_coincident_3 : matrix := [[0; 0; 1]; [0; 0; 1]; [1; 1; 0]].

(** An eigen-decomposition with one component for two features. *)
Definition eigs_one_component : eigs_t :=
  ([(2, 0)], [[(3, 0)]; [(4, 0)]]).

(** Stand-ins for the scikit-learn and SciPy collaborators: a sampler
    whose feature map is the identity, and a solver that returns a fixed
    pair. *)
Definition identity_fit_transform (s : unit) (Z : list point)
  : unit * matrix := (s, Z).

Definition fixed_eigsh (A : matrix) (k : nat) (which : string)
  : vector * matrix := ([0], [[1]]).

Definition unfitted_rff : LinearRandomFeatureManifold.t unit unit :=
  LinearRandomFeatureManifold.__init__ "rff" 1 "rbf" (1/10) tt.

(** ** Further definitions of the statements and further inputs *)

(** The quadratic form of a kernel function on weighted points, and
    positive semidefiniteness. *)
Definition cross_form (k : list R -> list R -> R)
    (u v : list (R * list R)) : R :=
  Rsum ((fun a => Rsum ((fun b => a.1 * b.1 * k a.2 b.2) <$> v)) <$> u).

Definition quadratic_form (k : list R -> list R -> R)
    (wp : list (R * list R)) : R :=
  cross_form k wp wp.

Definition positive_semidefinite (k : list R -> list R -> R) : Prop :=
  forall wp, 0 <= quadratic_form k wp.

Definition product_kernel (x y : list R) : R := x !!! O * y !!! O.

Definition ensemble_2x3_reordered : ndarray3 :=
  NdArray3 2 3 1 [[[3]; [1]; [2]]; [[20]; [30]; [10]]].

Definition ensemble_twins : ndarray3 :=
  NdArray3 3 2 1 [[[1]; [2]]; [[5]; [7]]; [[1]; [2]]].

(** A solver stand-in that returns one fixed eigenpair. *)
Definition fixed_eigs (A : list (list R)) (k : nat) (W : list (list R))
  : result eigs_t := Ok ([(1, 0)], [[(1, 0)]]).

(** [c * A] for a scalar [c]. *)
Definition mscale (c : R) (A : list (list R)) : list (list R) :=
  (fun r : list R => (fun v => c * v) <$> r) <$> A.

(** An embedding of the plane into the line with coefficients [1], [2]. *)
Definition embedding_2_1 : RandomLinearEmbeddingFunction.t :=
  RandomLinearEmbeddingFunction.Build 2 1 0 [[1]; [2]].

(** Three test points in the plane, and two. *)
Definition xtest_3x2 : list (list R) := [[0; 0]; [1; 0]; [0; 1]].

Definition xtest_2x2 : list (list R) := [[0; 0]; [1; 1]].

(** Stand-ins for the collaborators of the trajectory builder: every
    trajectory point is nearest to test point 0, the shift changes
    nothing, and the solver, given an array in the place of [k], fails. *)
Definition nearest_is_first (xtest traj : list (list R)) : list nat :=
  replicate (length traj) O.

Definition no_shift (mask : list bool) (lag : Z) : list bool := mask.

(** Trajectory point [t] is nearest to test point [t]. *)
Definition nearest_in_turn (xtest traj : list (list R)) : list nat :=
  seq 0 (length traj).

Definition eigs_rejects_array (A k W : list (list R)) : result eigs_t :=
  Raise (ValueError "k must be an integer").

Definition traj_instance_3x2 : KernelTrajTransitionManifold.t unit :=
  KernelTrajTransitionManifold.__init__ tt xtest_3x2 [[0; 0]; [1; 1]] 1 1.

Definition traj_instance_2x2 : KernelTrajTransitionManifold.t unit :=
  KernelTrajTransitionManifold.__init__ tt xtest_2x2 [[0; 0]; [1; 1]] 1 1.

(** Stand-ins for the collaborators of the embedding builder: a burst
    that leaves every point where it is, and an embedding that doubles
    the first coordinate into two features. *)
Definition frozen_burst (system : unit) (t dt : R) (x0 : list (list R))
  : list (list R) := x0.

Definition doubling_embedding (embfun : unit) (x : list (list R))
  : list (list R) := (fun p : list R => [p !!! O; p !!! O]) <$> x.

Definition embedding_instance_3 : EmbeddingBurstTransitionManifold.t unit unit :=
  EmbeddingBurstTransitionManifold.__init__ tt tt
    [[1]; [2]; [3]] 1 (1/10) 1 1.

Definition linear_embedding_instance
  : EmbeddingBurstTransitionManifold.t unit RandomLinearEmbeddingFunction.t :=
  EmbeddingBurstTransitionManifold.__init__ tt embedding_2_1
    [[0; 0]; [1; 1]] 1 (1/10) 2 1.

(** Instances for the error paths of [fit]: a method that does not
    exist, and two features requested from a sampler that returns one. *)
Definition unfitted_pca : LinearRandomFeatureManifold.t unit unit :=
  LinearRandomFeatureManifold.__init__ "pca" 1 "rbf" (1/10) tt.

Definition unfitted_rff_2 : LinearRandomFeatureManifold.t unit unit :=
  LinearRandomFeatureManifold.__init__ "rff" 2 "rbf" (1/10) tt.

(** Distances between three points on a line, at [0], [1] and [3]. *)
Definition dist_line_3 : list (list R) := [[0; 1; 3]; [1; 0; 2]; [3; 2; 0]].

(** A second ensemble of the shape of [ensemble_2x3]. *)
Definition ensemble_2x3_shifted : ndarray3 :=
  NdArray3 2 3 1 [[[2]; [3]; [4]]; [[11]; [21]; [31]]].

(** Two instances with the same constructor parameters. *)
Definition same_parameters {Sampler Kwargs : Type}
    (a b : LinearRandomFeatureManifold.t Sampler Kwargs) : Prop :=
  LinearRandomFeatureManifold.method a = LinearRandomFeatureManifold.method b /\
  LinearRandomFeatureManifold.gamma a = LinearRandomFeatureManifold.gamma b /\
  LinearRandomFeatureManifold.kernel a = LinearRandomFeatureManifold.kernel b /\
  LinearRandomFeatureManifold.n_components a
  = LinearRandomFeatureManifold.n_components b /\
  LinearRandomFeatureManifold.kwargs a = LinearRandomFeatureManifold.kwargs b.

(** * Part II: properties *)

(** ** Lemmas on the generic layer *)

Section GenericFacts.
Context {A : Type}.
Local Open Scope nat_scope.
Implicit Types (l : list A) (X : list (list A)).

Lemma for_range_S {S : Type} n (body : nat -> S -> S) s :
  for_range (Datatypes.S n) body s = body n (for_range n body s).
Proof.
  unfold for_range. rewrite seq_S, foldl_app. reflexivity.
Qed.

Lemma take_every_skip step wait l1 l2 :
  length l1 <= wait ->
  take_every step wait (l1 ++ l2) = take_every step (wait - length l1) l2.
Proof.
  revert wait. induction l1 as [|x l1 IH]; intros wait Hle; simpl in *.
  - f_equal. lia.
  - destruct wait as [|w]; [lia|]. apply IH. lia.
Qed.

Lemma take_every_block step i l1 l2 x :
  length l1 = step -> l1 !! i = Some x ->
  take_every step i (l1 ++ l2) = x :: take_every step i l2.
Proof.
  intros Hlen Hi.
  apply list_elem_of_split_length in Hi as (a & b & -> & ->).
  rewrite length_app in Hlen. simpl in Hlen.
  rewrite <- app_assoc, take_every_skip by lia.
  rewrite Nat.sub_diag. simpl. f_equal.
  rewrite take_every_skip by lia. f_equal. lia.
Qed.

Lemma transpose_length m X : length (transpose m X) <= m.
Proof.
  induction X as [|r X IH]; simpl.
  - rewrite length_replicate. lia.
  - rewrite length_zip_with. lia.
Qed.

(** Peeling the first column off a non-empty-row array. *)
Lemma transpose_cons_column m (hs : list A) X :
  length hs = length X ->
  transpose (S m) (zip_with cons hs X) = hs :: transpose m X.
Proof.
  revert hs. induction X as [|r X IH]; intros [|h hs] Hlen; simpl in *;
    try discriminate.
  - reflexivity.
  - rewrite IH by lia. reflexivity.
Qed.

(** Rows that all have [S m] items split into a first column and the
    remaining columns. *)
Lemma rows_split_column m X :
  Forall (fun r => length r = S m) X ->
  exists hs X', X = zip_with cons hs X' /\ length hs = length X /\
                length X' = length X /\ Forall (fun r => length r = m) X'.
Proof.
  induction 1 as [|r X Hr _ (hs & X' & -> & Hh & HX & Hall)].
  - exists [], []. repeat split; constructor.
  - destruct r as [|h r]; [discriminate|].
    exists (h :: hs), (r :: X'). simpl in *.
    repeat split; try lia. constructor; [lia | done].
Qed.

(** Reading the flattened, axis-swapped array with stride [length X]
    from offset [i] gives back row [i]. *)
Lemma concat_transpose_stride m X i c :
  Forall (fun r => length r = m) X ->
  X !! i = Some c ->
  slice_step i (length X) (concat (transpose m X)) = c.
Proof.
  unfold slice_step. revert X c.
  induction m as [|m IH]; intros X c Hall Hi.
  - pose proof (transpose_length 0 X) as Hlen.
    destruct (transpose 0 X); [|simpl in Hlen; lia]. simpl.
    eapply Forall_lookup_1 in Hall; [|done].
    by destruct c.
  - destruct (rows_split_column m X Hall) as (hs & X' & -> & Hh & HX & Hall').
    rewrite transpose_cons_column by lia. simpl.
    rewrite lookup_zip_with in Hi.
    destruct (hs !! i) as [h|] eqn:Ehs; [|done].
    destruct (X' !! i) as [c'|] eqn:EX; [|done].
    simpl in Hi. injection Hi as <-.
    erewrite take_every_block; [|lia|done].
    f_equal. rewrite <- HX. by apply IH.
Qed.
End GenericFacts.

(** ** [_reshape] and the strided slices of the burst builders *)

(** The form in which the builders use the interleaving: the slice taken
    inside their loops is the cloud, and the cloud has [M] rows. *)
Lemma reshape_slice_is_cloud (X : ndarray3) (i : nat) :
  wf3 X -> (i < shape0 X)%nat ->
  slice_step i (shape0 X) (_reshape X) = cloud_of X i /\
  length (cloud_of X i) = shape1 X.
Proof.
  intros [Hlen Hall] Hi. unfold _reshape, cloud_of.
  destruct (lookup_lt_is_Some_2 (items X) i) as [c Hc]; [lia|].
  rewrite (list_lookup_total_correct _ _ _ Hc).
  pose proof (Forall_lookup_1 _ _ _ _ Hall Hc) as [Hc1 _].
  split; [|done].
  rewrite <- Hlen. apply concat_transpose_stride; [|done].
  eapply Forall_impl; [exact Hall|]. by intros ? [? _].
Qed.

(** C10.  For a 3-axis ensemble [X] of shape [(n_startpoints, M, dim)] and
    every start point [i], the rows [i, i + n_startpoints, ...] of
    [_reshape X] are exactly the [M] sample rows [X[i, :, :]] in order:
    the slice [X[i::npoints, :]] of the burst builders recovers start
    point [i]'s cloud. *)
Theorem reshape_stride_recovers_cloud (X : ndarray3) (i : nat) :
  wf3 X -> (i < shape0 X)%nat ->
  slice_step i (shape0 X) (_reshape X) = cloud_of X i /\
  length (cloud_of X i) = shape1 X.
Proof.
  intros [Hlen Hall] Hi.
  destruct (lookup_lt_is_Some_2 (items X) i) as [c Hc]; [lia|].
  pose proof (Forall_lookup_1 _ _ _ _ Hall Hc) as [HcM _].
  assert (cloud_of X i = c) as ->
    by (unfold cloud_of; by apply list_lookup_total_correct).
  split; [|exact HcM].
  unfold _reshape. rewrite <- Hlen.
  apply concat_transpose_stride; [|exact Hc].
  apply Forall_forall. intros r Hr.
  by destruct (proj1 (Forall_forall _ _) Hall r Hr).
Qed.

Lemma reshape_stride_recovers_cloud_witness :
  slice_step 1 (shape0 ensemble_2x3) (_reshape ensemble_2x3)
    = cloud_of ensemble_2x3 1 /\
  length (cloud_of ensemble_2x3 1) = shape1 ensemble_2x3.
Proof.
  apply (reshape_stride_recovers_cloud ensemble_2x3 1).
  - split; [reflexivity|]. repeat constructor.
  - simpl. lia.
Defined.

(** The interleaving on a concrete ensemble: rows alternate between the
    two start points. *)
Example reshape_interleaves :
  _reshape ensemble_2x3 =
    [[1]; [10]; [2]; [20]; [3]; [30]].
Proof. reflexivity. Qed.

(** ** Item access, assignment and the index-pair loops *)

Section MatrixFacts.
Local Open Scope nat_scope.
Implicit Types (D L : list (list R)) (idx : list (nat * nat)).

Lemma rows_lookup n m D i :
  rows n m D -> i < n -> exists r, D !! i = Some r /\ length r = m.
Proof.
  intros [Hn Hall] Hi.
  destruct (lookup_lt_is_Some_2 D i) as [r Hr]; [lia|].
  exists r. split; [done|]. by eapply Forall_lookup_1 in Hall.
Qed.

Lemma getitem2_lookup D i j r x :
  D !! i = Some r -> r !! j = Some x -> getitem2 D i j = x.
Proof.
  intros Hr Hx. unfold getitem2.
  by rewrite (list_lookup_total_correct _ _ _ Hr),
             (list_lookup_total_correct _ _ _ Hx).
Qed.

Lemma rows_np_zeros n m : rows n m (np_zeros n m).
Proof.
  split; unfold np_zeros.
  - by rewrite length_replicate.
  - apply Forall_replicate. by rewrite length_replicate.
Qed.

Lemma getitem2_np_zeros n m i j :
  i < n -> j < m -> getitem2 (np_zeros n m) i j = 0%R.
Proof.
  intros Hi Hj. eapply getitem2_lookup; by apply lookup_replicate_2.
Qed.

Lemma rows_setitem2 n m D i j v : rows n m D -> rows n m (setitem2 D i j v).
Proof.
  intros [Hn Hall]. unfold setitem2. split.
  - by rewrite length_alter.
  - apply Forall_lookup_2. intros k r Hr.
    destruct (decide (i = k)) as [->|Hne].
    + rewrite list_lookup_alter_eq in Hr.
      destruct (D !! k) as [r0|] eqn:E; simplify_eq/=.
      rewrite length_insert. by eapply Forall_lookup_1 in Hall.
    + rewrite list_lookup_alter_ne in Hr by done.
      by eapply Forall_lookup_1 in Hall.
Qed.

Lemma getitem2_setitem2 n m D i j i' j' v :
  rows n m D -> i' < n -> j' < m ->
  getitem2 (setitem2 D i j v) i' j' =
    if decide ((i, j) = (i', j')) then v else getitem2 D i' j'.
Proof.
  intros HD Hi Hj.
  destruct (rows_lookup n m D i' HD Hi) as (r & Hr & Hlen).
  destruct (lookup_lt_is_Some_2 r j') as [x Hx]; [lia|].
  rewrite (getitem2_lookup D i' j' r x Hr Hx).
  unfold setitem2.
  destruct (decide (i = i')) as [->|Hne].
  - destruct (decide (j = j')) as [->|Hne].
    + rewrite decide_True by done.
      eapply getitem2_lookup.
      * rewrite list_lookup_alter_eq, Hr. done.
      * apply list_lookup_insert_eq. lia.
    + rewrite decide_False by congruence.
      eapply getitem2_lookup.
      * rewrite list_lookup_alter_eq, Hr. done.
      * by rewrite list_lookup_insert_ne.
  - rewrite decide_False by congruence.
    eapply getitem2_lookup; [|done].
    by rewrite list_lookup_alter_ne.
Qed.

Lemma rows_fill n m idx f D : rows n m D -> rows n m (fill idx f D).
Proof.
  unfold fill. revert D. induction idx as [|ij idx IH]; intros D HD; simpl.
  - done.
  - apply IH. by apply rows_setitem2.
Qed.

(** After the loop, an item holds the value the body computes for its
    index pair if the loop visited it, and its initial value otherwise. *)
Lemma getitem2_fill n m idx f D i j :
  rows n m D -> i < n -> j < m ->
  getitem2 (fill idx f D) i j =
    if decide ((i, j) ∈ idx) then f i j else getitem2 D i j.
Proof.
  unfold fill. revert D.
  induction idx as [|[i0 j0] idx IH]; intros D HD Hi Hj; cbn [foldl fst snd].
  - rewrite decide_False; [done|]. apply not_elem_of_nil.
  - rewrite IH by (try apply rows_setitem2; done).
    rewrite (getitem2_setitem2 n m) by done.
    destruct (decide ((i, j) ∈ idx)) as [Hin|Hnin].
    + rewrite decide_True; [done|]. apply elem_of_cons. by right.
    + destruct (decide ((i0, j0) = (i, j))) as [[= -> ->]|Hne].
      * rewrite decide_True; [done|]. apply elem_of_cons. by left.
      * rewrite decide_False; [done|].
        rewrite elem_of_cons. intros [Heq|?]; [|done]. congruence.
Qed.

Lemma elem_of_range2 n inner i j :
  (i, j) ∈ range2 n inner <-> i < n /\ j < inner i.
Proof.
  unfold range2. rewrite list_elem_of_bind. split.
  - intros (i' & Hj & Hi').
    apply list_elem_of_fmap in Hj as (j' & [= -> ->] & Hj').
    apply elem_of_seq in Hi', Hj'. lia.
  - intros [Hi Hj]. exists i. split.
    + apply list_elem_of_fmap. exists j. split; [done|].
      apply elem_of_seq. lia.
    + apply elem_of_seq. lia.
Qed.

Lemma rows_transpose {A : Type} n m (X : list (list A)) :
  length X = n -> Forall (fun r => length r = m) X ->
  length (transpose m X) = m /\
  Forall (fun c => length c = n) (transpose m X).
Proof.
  intros <- Hall. induction Hall as [|r X Hr Hall [IH1 IH2]]; simpl.
  - split; [by rewrite length_replicate|]. by apply Forall_replicate.
  - split; [rewrite length_zip_with; lia|].
    apply Forall_lookup_2. intros k c Hc.
    apply lookup_zip_with_Some in Hc as (y & c' & -> & Hy & Hc').
    simpl. f_equal. by eapply Forall_lookup_1 in IH2.
Qed.

Lemma transpose_lookup {A : Type} m (X : list (list A)) i j r x :
  Forall (fun r => length r = m) X ->
  X !! i = Some r -> r !! j = Some x ->
  exists c, transpose m X !! j = Some c /\ c !! i = Some x.
Proof.
  intros Hall. revert i.
  induction Hall as [|r0 X Hr0 Hall IH]; intros i Hr Hx; [done|].
  pose proof (rows_transpose (length X) m X eq_refl Hall) as [Hlen _].
  pose proof (lookup_lt_Some _ _ _ Hx) as Hj.
  simpl. destruct i as [|i]; simpl in Hr.
  - injection Hr as ->.
    destruct (lookup_lt_is_Some_2 (transpose m X) j) as [c Hc]; [lia|].
    exists (x :: c). by rewrite lookup_zip_with, Hx, Hc.
  - destruct (IH i Hr Hx) as (c & Hc & Hci).
    eapply Forall_lookup_1 in Hall; [|done].
    destruct (lookup_lt_is_Some_2 r0 j) as [y Hy]; [lia|].
    exists (y :: c). by rewrite lookup_zip_with, Hy, Hc.
Qed.

Lemma rows_np_transpose n m D : rows n m D -> rows m n (transpose m D).
Proof. intros [H1 H2]. by apply rows_transpose. Qed.

Lemma getitem2_transpose n m D i j :
  rows n m D -> i < n -> j < m ->
  getitem2 (transpose m D) j i = getitem2 D i j.
Proof.
  intros HD Hi Hj.
  destruct (rows_lookup n m D i HD Hi) as (r & Hr & Hlen).
  destruct (lookup_lt_is_Some_2 r j) as [x Hx]; [lia|].
  destruct (transpose_lookup m D i j r x (proj2 HD) Hr Hx) as (c & Hc & Hci).
  by rewrite (getitem2_lookup _ _ _ _ _ Hc Hci),
             (getitem2_lookup _ _ _ _ _ Hr Hx).
Qed.

Lemma rows_madd n m (A B : list (list R)) :
  rows n m A -> rows n m B -> rows n m (madd A B).
Proof.
  intros [HA1 HA2] [HB1 HB2]. unfold madd. split.
  - rewrite length_zip_with. lia.
  - apply Forall_lookup_2. intros k r Hr.
    apply lookup_zip_with_Some in Hr as (a & b & -> & Ha & Hb).
    rewrite length_zip_with.
    eapply Forall_lookup_1 in HA2; [|done].
    eapply Forall_lookup_1 in HB2; [|done]. lia.
Qed.

Lemma getitem2_madd n m (A B : list (list R)) i j :
  rows n m A -> rows n m B -> i < n -> j < m ->
  getitem2 (madd A B) i j = (getitem2 A i j + getitem2 B i j)%R.
Proof.
  intros HA HB Hi Hj.
  destruct (rows_lookup n m A i HA Hi) as (a & Ha & Hla).
  destruct (rows_lookup n m B i HB Hi) as (b & Hb & Hlb).
  destruct (lookup_lt_is_Some_2 a j) as [x Hx]; [lia|].
  destruct (lookup_lt_is_Some_2 b j) as [y Hy]; [lia|].
  rewrite (getitem2_lookup _ _ _ _ _ Ha Hx), (getitem2_lookup _ _ _ _ _ Hb Hy).
  eapply getitem2_lookup; unfold madd.
  - by rewrite lookup_zip_with, Ha, Hb.
  - by rewrite lookup_zip_with, Hx, Hy.
Qed.

Lemma getitem2_lower n f i j :
  i < n -> j < n ->
  getitem2 (fill (range2 n (fun i => i)) f (np_zeros n n)) i j =
    if decide (j < i) then f i j else 0%R.
Proof.
  intros Hi Hj.
  rewrite (getitem2_fill n n) by (try apply rows_np_zeros; done).
  rewrite getitem2_np_zeros by done.
  destruct (decide (j < i)) as [Hlt|Hge].
  - rewrite decide_True; [done|]. apply elem_of_range2. lia.
  - rewrite decide_False; [done|]. rewrite elem_of_range2. lia.
Qed.

Lemma rows_mirrored n f : rows n n (mirrored n f).
Proof.
  unfold mirrored.
  pose proof (rows_fill n n (range2 n (fun i => i)) f _ (rows_np_zeros n n))
    as HL.
  apply rows_madd; [done|]. by apply rows_np_transpose.
Qed.

Lemma getitem2_mirrored n f i j :
  i < n -> j < n ->
  getitem2 (mirrored n f) i j =
    if decide (j < i) then f i j
    else if decide (i < j) then f j i else 0%R.
Proof.
  intros Hi Hj. unfold mirrored.
  pose proof (rows_fill n n (range2 n (fun i => i)) f _ (rows_np_zeros n n))
    as HL.
  assert (rows n n (transpose n (fill (range2 n (fun i => i)) f
                                      (np_zeros n n)))) as HT.
  { by apply rows_np_transpose. }
  rewrite (getitem2_madd n n) by done.
  rewrite (getitem2_transpose n n) by done.
  rewrite !getitem2_lower by done.
  repeat case_decide; try lia; lra.
Qed.
End MatrixFacts.

(** ** The kernel builders *)

Section Sums.
Implicit Types (u v : list R).

Lemma Rsum_app u v : Rsum (u ++ v) = Rsum u + Rsum v.
Proof.
  unfold Rsum. induction u as [|x u IH]; csimpl; [lra|]. rewrite IH. lra.
Qed.

Lemma Rsum_fmap_plus {A : Type} (f g : A -> R) (l : list A) :
  Rsum ((fun x => f x + g x) <$> l) = Rsum (f <$> l) + Rsum (g <$> l).
Proof.
  unfold Rsum. induction l as [|x l IH]; csimpl; [lra|].
  rewrite IH. lra.
Qed.

Lemma Rsum_fmap_zero {A : Type} (l : list A) :
  Rsum ((fun _ => 0) <$> l) = 0.
Proof. unfold Rsum. induction l as [|x l IH]; csimpl; [done|]. lra. Qed.

Lemma Rsum_fmap_ext {A : Type} (f g : A -> R) (l : list A) :
  (forall x, f x = g x) -> Rsum (f <$> l) = Rsum (g <$> l).
Proof. intros H. f_equal. apply list_fmap_ext. auto. Qed.

(** The two orders of summation over a product of two lists agree. *)
Lemma pair_sum_swap (k : list R -> list R -> R) (X Y : list (list R)) :
  pair_sum k X Y = pair_sum (fun y x => k x y) Y X.
Proof.
  unfold pair_sum. induction X as [|x X IH]; csimpl.
  - symmetry. apply (Rsum_fmap_zero Y).
  - change (foldr Rplus 0) with Rsum in *.
    rewrite (Rsum_fmap_plus (fun y => k x y)
               (fun y => Rsum ((fun x0 => k x0 y) <$> X)) Y).
    rewrite IH. reflexivity.
Qed.

Lemma np_sum_gram (k : list R -> list R -> R) (X Y : list (list R)) :
  np_sum (gram k X Y) = pair_sum k X Y.
Proof.
  unfold np_sum, gram, pair_sum. by rewrite <- list_fmap_compose.
Qed.

Lemma pair_sum_symmetric (k : list R -> list R -> R) (X Y : list (list R)) :
  (forall x y, k x y = k y x) -> pair_sum k Y X = pair_sum k X Y.
Proof.
  intros Hk. rewrite (pair_sum_swap k X Y). unfold pair_sum.
  apply Rsum_fmap_ext. intros y. apply Rsum_fmap_ext. intros x. apply Hk.
Qed.

Lemma for_range_append {B : Type} (n : nat) (g : nat -> B) :
  for_range n (fun i acc => acc ++ [g i]) [] = g <$> seq 0 n.
Proof.
  induction n as [|n IH]; [done|].
  by rewrite for_range_S, IH, seq_S, fmap_app.
Qed.

Lemma lookup_total_range_fmap (n i : nat) (g : nat -> R) :
  (i < n)%nat -> (g <$> seq 0 n) !!! i = g i.
Proof.
  intros Hi. apply list_lookup_total_correct.
  by rewrite list_lookup_fmap, lookup_seq_lt.
Qed.
End Sums.

Section KernelBuilderFacts.
Variable evaluate : list (list R) -> list (list R) -> list (list R).

Lemma burst_symmetric_evaluations (X : ndarray3) (i : nat) :
  wf3 X -> (i < shape0 X)%nat ->
  KernelBurstTransitionManifold.symmetric_evaluations evaluate
    (shape0 X) (_reshape X) !!! i
  = np_sum (evaluate (cloud_of X i) (cloud_of X i)).
Proof.
  intros HX Hi. unfold KernelBurstTransitionManifold.symmetric_evaluations.
  rewrite (for_range_append (shape0 X)
             (fun i => np_sum (evaluate (slice_step i (shape0 X) (_reshape X))
                                        (slice_step i (shape0 X) (_reshape X))))).
  rewrite lookup_total_range_fmap by done.
  by destruct (reshape_slice_is_cloud X i HX Hi) as [-> _].
Qed.

Lemma traj_symmetric_evaluations (n : nat) (pcs : list (list (list R))) i :
  (i < n)%nat ->
  KernelTrajTransitionManifold.symmetric_evaluations evaluate n pcs !!! i
  = np_sum (evaluate (pcs !!! i) (pcs !!! i)).
Proof.
  intros Hi. unfold KernelTrajTransitionManifold.symmetric_evaluations.
  rewrite (for_range_append n
             (fun i => np_sum (evaluate (pcs !!! i) (pcs !!! i)))).
  by rewrite lookup_total_range_fmap.
Qed.

(** Every item of the burst matrix, for any evaluator. *)
Lemma burst_distMat_items (X : ndarray3) (i j : nat) :
  wf3 X -> (i < shape0 X)%nat -> (j < shape0 X)%nat ->
  getitem2 (KernelBurstTransitionManifold.distMat evaluate X) i j =
    if decide (j < i)%nat then burst_value evaluate X i j
    else if decide (i < j)%nat then burst_value evaluate X j i else 0.
Proof.
  intros HX Hi Hj.
  unfold KernelBurstTransitionManifold.distMat,
    KernelBurstTransitionManifold.lower_triangle,
    KernelBurstTransitionManifold.loop_indices.
  cbv zeta. fold (mirrored (shape0 X)
    (fun i j =>
       (KernelBurstTransitionManifold.symmetric_evaluations evaluate
          (shape0 X) (_reshape X) !!! i
        + KernelBurstTransitionManifold.symmetric_evaluations evaluate
            (shape0 X) (_reshape X) !!! j
        - 2 * np_sum (evaluate (slice_step i (shape0 X) (_reshape X))
                               (slice_step j (shape0 X) (_reshape X))))
       / INR (shape1 X ^ 2))).
  rewrite getitem2_mirrored by done.
  pose proof (reshape_slice_is_cloud X i HX Hi) as [Hci _].
  pose proof (reshape_slice_is_cloud X j HX Hj) as [Hcj _].
  unfold burst_value.
  rewrite !burst_symmetric_evaluations, Hci, Hcj by done.
  repeat case_decide; try done; lra.
Qed.

(** Every item of the trajectory matrix, for any evaluator. *)
Lemma traj_distMat_items (n : nat) (pcs : list (list (list R))) (i j : nat) :
  (i < n)%nat -> (j < n)%nat ->
  getitem2 (KernelTrajTransitionManifold.distMat evaluate n pcs) i j =
    if decide (j < i)%nat then traj_value evaluate pcs i j
    else if decide (i < j)%nat then traj_value evaluate pcs j i else 0.
Proof.
  intros Hi Hj.
  unfold KernelTrajTransitionManifold.distMat,
    KernelTrajTransitionManifold.lower_triangle,
    KernelTrajTransitionManifold.loop_indices.
  cbv zeta. fold (mirrored n
    (fun i j =>
       KernelTrajTransitionManifold.symmetric_evaluations evaluate n pcs !!! i
         / INR (length (pcs !!! i) ^ 2)
       + KernelTrajTransitionManifold.symmetric_evaluations evaluate n pcs !!! j
         / INR (length (pcs !!! j) ^ 2)
       - 2 * np_sum (evaluate (pcs !!! i) (pcs !!! j))
         / INR (length (pcs !!! i) * length (pcs !!! j)))).
  rewrite getitem2_mirrored by done.
  unfold traj_value. rewrite !traj_symmetric_evaluations by done.
  repeat case_decide; try done; lra.
Qed.
(** [computeRC] builds one cloud per test point, so its matrix is the
    one above for [npoints = len(pointclouds)]. *)
Lemma extract_pointclouds_length kdtree_query ndimage_shift xtest traj lag :
  length (KernelTrajTransitionManifold.extract_pointclouds
            kdtree_query ndimage_shift xtest traj lag) = length xtest.
Proof.
  unfold KernelTrajTransitionManifold.extract_pointclouds. cbv zeta.
  rewrite (for_range_append (length xtest)
             (fun i => mask_select
                         (ndimage_shift
                            ((fun c => bool_decide (c = i))
                               <$> kdtree_query xtest traj) lag) traj)).
  by rewrite length_fmap, length_seq.
Qed.

(** When the solver succeeds, [fit] stores the matrix and [M]; when it
    raises, the matrix is not stored. *)
Lemma burst_fit_stores_distMat sla_eigs
    (self : KernelBurstTransitionManifold.t) (X : ndarray3) :
  let out := KernelBurstTransitionManifold.fit evaluate sla_eigs self X in
  KernelBurstTransitionManifold.M out.1 = Some (shape1 X) /\
  (is_ok out.2 ->
   KernelBurstTransitionManifold.distMat_ out.1
   = Some (KernelBurstTransitionManifold.distMat evaluate X)).
Proof.
  cbv zeta. unfold KernelBurstTransitionManifold.fit. cbv zeta.
  destruct (ml.diffusionMaps _ _ _ _ _); simpl; by split.
Qed.
End KernelBuilderFacts.

(** The lower items and their mirror images, for any pairwise-evaluated
    function [k]. *)
Lemma burst_lower_items (k : list R -> list R -> R) (X : ndarray3) i j :
  wf3 X -> (i < shape0 X)%nat -> (j < i)%nat ->
  getitem2 (KernelBurstTransitionManifold.distMat (gram k) X) i j
  = mmd_estimate k (cloud_of X i) (cloud_of X j) /\
  getitem2 (KernelBurstTransitionManifold.distMat (gram k) X) j i
  = mmd_estimate k (cloud_of X i) (cloud_of X j).
Proof.
  intros HX Hi Hj.
  rewrite !burst_distMat_items by (done || lia).
  destruct (reshape_slice_is_cloud X i HX Hi) as [_ Hli].
  destruct (reshape_slice_is_cloud X j HX ltac:(lia)) as [_ Hlj].
  unfold burst_value, mmd_estimate. rewrite !np_sum_gram, Hli, Hlj, pow_INR.
  replace (INR (shape1 X) * INR (shape1 X)) with (INR (shape1 X) ^ 2) by ring.
  repeat case_decide; try lia; split; unfold Rdiv; ring.
Qed.

Lemma traj_lower_items (k : list R -> list R -> R)
    (pcs : list (list (list R))) i j :
  (i < length pcs)%nat -> (j < i)%nat ->
  getitem2 (KernelTrajTransitionManifold.distMat (gram k) (length pcs) pcs) i j
  = mmd_estimate k (pcs !!! i) (pcs !!! j) /\
  getitem2 (KernelTrajTransitionManifold.distMat (gram k) (length pcs) pcs) j i
  = mmd_estimate k (pcs !!! i) (pcs !!! j).
Proof.
  intros Hi Hj.
  rewrite !traj_distMat_items by (done || lia).
  unfold traj_value, mmd_estimate. rewrite !np_sum_gram, !pow_INR, !mult_INR.
  repeat case_decide; try lia; split; reflexivity.
Qed.

Lemma mmd_estimate_symmetric (k : list R -> list R -> R) Ci Cj :
  (forall x y, k x y = k y x) -> mmd_estimate k Cj Ci = mmd_estimate k Ci Cj.
Proof.
  intros Hk. unfold mmd_estimate.
  rewrite (pair_sum_symmetric k Cj Ci Hk).
  rewrite (Rmult_comm (INR (length Cj))). unfold Rdiv. ring.
Qed.

(** C1.  The kernel object evaluates a kernel function [k] pairwise; a
    kernel function is symmetric.  For clouds that are not empty both
    builders produce, at every pair [i <> j],
    [S_i/|C_i|^2 + S_j/|C_j|^2 - 2*K_ij/(|C_i|*|C_j|)], [S_i] the sum of
    [k] over the ordered pairs of [C_i] and [K_ij] the sum over
    [C_i x C_j], with each cloud's own size:
    [KernelBurstTransitionManifold.fit] on the clouds of a 3-axis
    ensemble (all of size [M], so that its single division by [M**2] is
    that normalization), [KernelTrajTransitionManifold.computeRC] on
    clouds of any sizes, equal or not. *)
Theorem kernel_builders_compute_mmd_estimate (k : list R -> list R -> R) :
  (forall x y, k x y = k y x) ->
  (forall (X : ndarray3) (i j : nat),
      wf3 X -> (0 < shape1 X)%nat ->
      (i < shape0 X)%nat -> (j < shape0 X)%nat -> i <> j ->
      getitem2 (KernelBurstTransitionManifold.distMat (gram k) X) i j
      = mmd_estimate k (cloud_of X i) (cloud_of X j)) /\
  (forall (pcs : list (list (list R))) (i j : nat),
      (i < length pcs)%nat -> (j < length pcs)%nat -> i <> j ->
      pcs !!! i <> [] -> pcs !!! j <> [] ->
      getitem2 (KernelTrajTransitionManifold.distMat (gram k) (length pcs) pcs)
               i j
      = mmd_estimate k (pcs !!! i) (pcs !!! j)).
Proof.
  intros Hk. split.
  - intros X i j HX _ Hi Hj Hne.
    destruct (decide (j < i)%nat) as [Hlt|Hge].
    + by apply burst_lower_items.
    + rewrite <- (mmd_estimate_symmetric k _ _ Hk).
      apply burst_lower_items; (done || lia).
  - intros pcs i j Hi Hj Hne _ _.
    destruct (decide (j < i)%nat) as [Hlt|Hge].
    + by apply traj_lower_items.
    + rewrite <- (mmd_estimate_symmetric k _ _ Hk).
      apply traj_lower_items; (done || lia).
Qed.

Lemma kernel_builders_compute_mmd_estimate_witness :
  getitem2 (KernelBurstTransitionManifold.distMat
              (gram (fun x y => x !!! O * y !!! O)) ensemble_2x3) 0 1
  = mmd_estimate (fun x y => x !!! O * y !!! O)
                 (cloud_of ensemble_2x3 0) (cloud_of ensemble_2x3 1) /\
  getitem2 (KernelTrajTransitionManifold.distMat
              (gram (fun x y => x !!! O * y !!! O))
              (length clouds_unequal) clouds_unequal) 0 1
  = mmd_estimate (fun x y => x !!! O * y !!! O)
                 (clouds_unequal !!! O) (clouds_unequal !!! 1%nat).
Proof.
  assert (forall x y : list R, x !!! O * y !!! O = y !!! O * x !!! O) as Hk
    by (intros; apply Rmult_comm).
  destruct (kernel_builders_compute_mmd_estimate
              (fun x y => x !!! O * y !!! O) Hk) as [Hb Ht].
  split.
  - apply Hb; simpl; try lia.
    split; [reflexivity|]. repeat constructor.
  - apply Ht; simpl; try lia; discriminate.
Defined.

(** ** Symmetry and diagonal of the pairwise matrices *)

Section SymmetryFacts.
Local Open Scope nat_scope.




Lemma L2_distMat_items sc dq (self : L2BurstTransitionManifold.t) X i j :
  i < shape0 X -> j < shape0 X ->
  getitem2 (L2BurstTransitionManifold.distMat sc dq self X) i j
  = (L2BurstTransitionManifold.L2distance sc dq self
       (slice_step i (shape0 X) (_reshape X))
       (slice_step j (shape0 X) (_reshape X))).1.
Proof.
  intros Hi Hj. unfold L2BurstTransitionManifold.distMat. cbv zeta.
  rewrite (getitem2_fill (shape0 X) (shape0 X))
    by (try apply rows_np_zeros; done).
  rewrite decide_True; [done|].
  apply elem_of_range2. lia.
Qed.


End SymmetryFacts.






(** ** The diffusion maps operator *)

Section ArrayFacts.
Local Open Scope nat_scope.
Implicit Types (A B : list (list R)) (u v : list R).

Lemma Rsum_fmap_ext_in {T : Type} (f g : T -> R) (l : list T) :
  (forall x, x ∈ l -> f x = g x) -> Rsum (f <$> l) = Rsum (g <$> l).
Proof.
  intros H. f_equal. apply list_eq. intros i. rewrite !list_lookup_fmap.
  destruct (l !! i) as [x|] eqn:E; [|done]. simpl. f_equal. apply H.
  by eapply list_elem_of_lookup_2.
Qed.

Lemma Rsum_fmap_scale {T : Type} (f : T -> R) (c : R) (l : list T) :
  Rsum ((fun x => f x * c)%R <$> l) = (Rsum (f <$> l) * c)%R.
Proof.
  unfold Rsum. induction l as [|x l IH]; csimpl; [lra|]. rewrite IH. lra.
Qed.

Lemma fmap_as_range {T U : Type} `{!Inhabited T} (f : T -> U) (l : list T) :
  f <$> l = (fun i => f (l !!! i)) <$> seq 0 (length l).
Proof.
  apply list_eq. intros i. rewrite !list_lookup_fmap.
  destruct (l !! i) as [x|] eqn:E.
  - rewrite lookup_seq_lt by (by eapply lookup_lt_Some). simpl.
    by rewrite (list_lookup_total_correct _ _ _ E).
  - by rewrite lookup_seq_ge by (by apply lookup_ge_None).
Qed.

Lemma vadd_lookup u v j x y :
  u !! j = Some x -> v !! j = Some y -> vadd u v !! j = Some (x + y)%R.
Proof. intros Hx Hy. unfold vadd. by rewrite lookup_zip_with, Hx, Hy. Qed.

Lemma vadd_length u v m : length u = m -> length v = m -> length (vadd u v) = m.
Proof. intros Hu Hv. unfold vadd. rewrite length_zip_with. lia. Qed.

Lemma sum_axis0_length m A :
  Forall (fun r => length r = m) A -> length (sum_axis0 m A) = m.
Proof.
  unfold sum_axis0. induction 1 as [|r A Hr Hall IH]; simpl.
  - by rewrite length_replicate.
  - by apply vadd_length.
Qed.

Lemma sum_axis0_lookup_rows m A j :
  Forall (fun r => length r = m) A -> j < m ->
  sum_axis0 m A !!! j = Rsum ((fun r : list R => r !!! j) <$> A).
Proof.
  intros Hall Hj. induction Hall as [|r A Hr Hall IH].
  - apply list_lookup_total_correct. by apply lookup_replicate_2.
  - destruct (lookup_lt_is_Some_2 r j) as [x Hx]; [lia|].
    pose proof (sum_axis0_length m A Hall) as Hlen.
    destruct (lookup_lt_is_Some_2 (sum_axis0 m A) j) as [y Hy]; [lia|].
    change (sum_axis0 m (r :: A)) with (vadd r (sum_axis0 m A)).
    rewrite (list_lookup_total_correct _ _ _ (vadd_lookup _ _ _ _ _ Hx Hy)).
    rewrite (list_lookup_total_correct _ _ _ Hy) in IH.
    csimpl. unfold Rsum in *. simpl.
    rewrite (list_lookup_total_correct _ _ _ Hx), IH. done.
Qed.

Lemma sum_axis0_lookup m A j :
  Forall (fun r => length r = m) A -> j < m ->
  sum_axis0 m A !!! j = col_sum (length A) A j.
Proof.
  intros Hall Hj. rewrite (sum_axis0_lookup_rows m) by done.
  unfold col_sum, getitem2.
  by rewrite <- (fmap_as_range (fun r : list R => r !!! j) A).
Qed.

Lemma foldl_vadd_length m A acc :
  Forall (fun r => length r = m) A -> length acc = m ->
  length (foldl vadd acc A) = m.
Proof.
  intros Hall. revert acc. induction Hall as [|r A Hr Hall IH]; intros acc Ha.
  - done.
  - simpl. apply IH. by apply vadd_length.
Qed.

Lemma foldl_vadd_lookup m A acc j :
  Forall (fun r => length r = m) A -> length acc = m -> j < m ->
  foldl vadd acc A !!! j
  = (acc !!! j + Rsum ((fun r : list R => r !!! j) <$> A))%R.
Proof.
  intros Hall. revert acc.
  induction Hall as [|r A Hr Hall IH]; intros acc Ha Hj; csimpl.
  - unfold Rsum. simpl. lra.
  - rewrite IH by (try apply vadd_length; done).
    destruct (lookup_lt_is_Some_2 acc j) as [x Hx]; [lia|].
    destruct (lookup_lt_is_Some_2 r j) as [y Hy]; [lia|].
    rewrite (list_lookup_total_correct _ _ _ (vadd_lookup _ _ _ _ _ Hx Hy)).
    rewrite (list_lookup_total_correct _ _ _ Hx),
            (list_lookup_total_correct _ _ _ Hy).
    unfold Rsum. simpl. lra.
Qed.

(** The builtin [sum] over the rows gives the column sums too. *)
Lemma builtin_sum_lookup m A j :
  Forall (fun r => length r = m) A -> j < m ->
  builtin_sum m A !!! j = col_sum (length A) A j.
Proof.
  intros Hall Hj. unfold builtin_sum.
  rewrite (foldl_vadd_lookup m) by (try rewrite length_replicate; done).
  rewrite (list_lookup_total_correct _ _ 0%R) by (by apply lookup_replicate_2).
  unfold col_sum, getitem2.
  rewrite <- (fmap_as_range (fun r : list R => r !!! j) A). lra.
Qed.

Lemma builtin_sum_length m A :
  Forall (fun r => length r = m) A -> length (builtin_sum m A) = m.
Proof.
  intros Hall. apply foldl_vadd_length; [done|]. by rewrite length_replicate.
Qed.

Lemma rows_mdiv n m A B : rows n m A -> rows n m B -> rows n m (mdiv A B).
Proof.
  intros [HA1 HA2] [HB1 HB2]. unfold mdiv. split.
  - rewrite length_zip_with. lia.
  - apply Forall_lookup_2. intros k r Hr.
    apply lookup_zip_with_Some in Hr as (a & b & -> & Ha & Hb).
    rewrite length_zip_with.
    eapply Forall_lookup_1 in HA2; [|done].
    eapply Forall_lookup_1 in HB2; [|done]. lia.
Qed.

Lemma getitem2_mdiv n m A B i j :
  rows n m A -> rows n m B -> i < n -> j < m ->
  getitem2 (mdiv A B) i j = (getitem2 A i j / getitem2 B i j)%R.
Proof.
  intros HA HB Hi Hj.
  destruct (rows_lookup n m A i HA Hi) as (a & Ha & Hla).
  destruct (rows_lookup n m B i HB Hi) as (b & Hb & Hlb).
  destruct (lookup_lt_is_Some_2 a j) as [x Hx]; [lia|].
  destruct (lookup_lt_is_Some_2 b j) as [y Hy]; [lia|].
  rewrite (getitem2_lookup _ _ _ _ _ Ha Hx), (getitem2_lookup _ _ _ _ _ Hb Hy).
  eapply getitem2_lookup; unfold mdiv.
  - by rewrite lookup_zip_with, Ha, Hb.
  - by rewrite lookup_zip_with, Hx, Hy.
Qed.

Lemma rows_np_outer u v : rows (length u) (length v) (np_outer u v).
Proof.
  unfold np_outer. split.
  - by rewrite length_fmap.
  - apply Forall_fmap, Forall_forall. intros x _. simpl.
    by rewrite length_fmap.
Qed.

Lemma getitem2_np_outer u v i j :
  i < length u -> j < length v ->
  getitem2 (np_outer u v) i j = (u !!! i * v !!! j)%R.
Proof.
  intros Hi Hj.
  destruct (lookup_lt_is_Some_2 u i) as [x Hx]; [lia|].
  destruct (lookup_lt_is_Some_2 v j) as [y Hy]; [lia|].
  rewrite (list_lookup_total_correct _ _ _ Hx),
          (list_lookup_total_correct _ _ _ Hy).
  eapply getitem2_lookup; unfold np_outer.
  - by rewrite list_lookup_fmap, Hx.
  - by rewrite list_lookup_fmap, Hy.
Qed.

Lemma rows_np_tile v n : rows n (length v) (np_tile v n).
Proof.
  unfold np_tile. split; [by rewrite length_replicate|].
  by apply Forall_replicate.
Qed.

Lemma getitem2_np_tile v n i j :
  i < n -> getitem2 (np_tile v n) i j = v !!! j.
Proof.
  intros Hi. unfold getitem2, np_tile.
  by rewrite (list_lookup_total_correct _ _ v) by (by apply lookup_replicate_2).
Qed.

Lemma getitem2_np_diag v i j :
  i < length v -> j < length v ->
  getitem2 (np_diag v) i j = if decide (i = j) then v !!! i else 0%R.
Proof.
  intros Hi Hj.
  destruct (lookup_lt_is_Some_2 v i) as [x Hx]; [lia|].
  rewrite (list_lookup_total_correct _ _ _ Hx).
  unfold getitem2, np_diag.
  rewrite (list_lookup_total_correct _ _ (<[i:=x]> (replicate (length v) 0%R)))
    by (by rewrite list_lookup_imap, Hx).
  apply list_lookup_total_correct.
  destruct (decide (i = j)) as [->|Hne].
  - apply list_lookup_insert_eq. by rewrite length_replicate.
  - rewrite list_lookup_insert_ne by done. by apply lookup_replicate_2.
Qed.
End ArrayFacts.

Section OperatorFacts.
Local Open Scope nat_scope.
Implicit Types (K A P : list (list R)).

Lemma rows_gaussian n m e D : rows n m D -> rows n m (ml.gaussian e D).
Proof.
  intros [H1 H2]. unfold ml.gaussian. split.
  - by rewrite length_fmap.
  - apply Forall_fmap. eapply Forall_impl; [exact H2|].
    intros r Hr. simpl. by rewrite length_fmap.
Qed.

Lemma getitem2_gaussian n m e D i j :
  rows n m D -> i < n -> j < m ->
  getitem2 (ml.gaussian e D) i j = exp (- (getitem2 D i j ^ 2) / e).
Proof.
  intros HD Hi Hj.
  destruct (rows_lookup n m D i HD Hi) as (r & Hr & Hlen).
  destruct (lookup_lt_is_Some_2 r j) as [x Hx]; [lia|].
  rewrite (getitem2_lookup _ _ _ _ _ Hr Hx).
  eapply getitem2_lookup; unfold ml.gaussian.
  - by rewrite list_lookup_fmap, Hr.
  - by rewrite list_lookup_fmap, Hx.
Qed.

Lemma rows_density_normalize n alpha K :
  rows n n K -> rows n n (ml.density_normalize alpha K).
Proof.
  intros HK. pose proof HK as [H1 H2]. subst n. unfold ml.density_normalize.
  apply rows_mdiv; [done|].
  pose proof (rows_np_outer
    ((fun s => float_power s alpha) <$> sum_axis0 (length K) K)
    ((fun s => float_power s alpha) <$> sum_axis0 (length K) K)) as Ho.
  by rewrite length_fmap, sum_axis0_length in Ho.
Qed.

(** Line 42, item by item: the weights are powers of the axis-0 sums. *)
Lemma getitem2_density_normalize n alpha K i j :
  rows n n K -> i < n -> j < n ->
  getitem2 (ml.density_normalize alpha K) i j
  = (getitem2 K i j
     / (float_power (col_sum n K i) alpha * float_power (col_sum n K j) alpha))%R.
Proof.
  intros HK Hi Hj. pose proof HK as [H1 H2]. subst n.
  unfold ml.density_normalize.
  assert (length ((fun s => float_power s alpha) <$> sum_axis0 (length K) K)
          = length K) as Hw.
  { by rewrite length_fmap, sum_axis0_length. }
  pose proof (rows_np_outer
    ((fun s => float_power s alpha) <$> sum_axis0 (length K) K)
    ((fun s => float_power s alpha) <$> sum_axis0 (length K) K)) as Ho.
  rewrite Hw in Ho.
  rewrite (getitem2_mdiv (length K) (length K)) by done.
  rewrite getitem2_np_outer by (rewrite Hw; done).
  rewrite !(list_lookup_total_fmap (fun s : R => float_power s alpha))
    by (by rewrite sum_axis0_length).
  by rewrite !(sum_axis0_lookup (length K)).
Qed.

Lemma rows_row_normalize n A : rows n n A -> rows n n (ml.row_normalize A).
Proof.
  intros HA. pose proof HA as [H1 H2]. subst n. unfold ml.row_normalize.
  apply rows_mdiv; [done|].
  pose proof (rows_np_tile (builtin_sum (length A) A) (length A)) as Ht.
  by rewrite builtin_sum_length in Ht.
Qed.

(** Line 45, item by item: every item is divided by the sum of its
    column. *)
Lemma getitem2_row_normalize n A i j :
  rows n n A -> i < n -> j < n ->
  getitem2 (ml.row_normalize A) i j = (getitem2 A i j / col_sum n A j)%R.
Proof.
  intros HA Hi Hj. pose proof HA as [H1 H2]. subst n. unfold ml.row_normalize.
  pose proof (rows_np_tile (builtin_sum (length A) A) (length A)) as Ht.
  rewrite builtin_sum_length in Ht by done.
  rewrite (getitem2_mdiv (length A) (length A)) by done.
  rewrite getitem2_np_tile by done.
  by rewrite (builtin_sum_lookup (length A)).
Qed.

Lemma getitem2_weight_matrix n P i j :
  rows n n P -> i < n -> j < n ->
  getitem2 (ml.weight_matrix P) i j
  = if decide (i = j) then col_sum n P i else 0%R.
Proof.
  intros HP Hi Hj. pose proof HP as [H1 H2]. subst n. unfold ml.weight_matrix.
  rewrite getitem2_np_diag by (by rewrite builtin_sum_length).
  by rewrite (builtin_sum_lookup (length P)).
Qed.

(** What line 45 achieves: every column of its result sums to one. *)
Lemma row_normalize_columns_sum_to_one n A j :
  rows n n A -> j < n -> col_sum n A j <> 0%R ->
  col_sum n (ml.row_normalize A) j = 1%R.
Proof.
  intros HA Hj Hne. unfold col_sum at 1.
  rewrite (Rsum_fmap_ext_in _ (fun i => getitem2 A i j * / col_sum n A j)%R).
  - rewrite Rsum_fmap_scale. fold (col_sum n A j). by apply Rinv_r.
  - intros i Hin. apply elem_of_seq in Hin.
    rewrite (getitem2_row_normalize n) by (done || lia). done.
Qed.

Lemma Rsum_fmap_pos {T : Type} (f : T -> R) (l : list T) :
  l <> [] -> (forall x, x ∈ l -> (0 < f x)%R) -> (0 < Rsum (f <$> l))%R.
Proof.
  intros Hne Hpos. destruct l as [|x l]; [done|]. clear Hne.
  revert x Hpos. induction l as [|y l IH]; intros x Hpos.
  - unfold Rsum. simpl. specialize (Hpos x (list_elem_of_here _ _)). lra.
  - change (Rsum (f <$> x :: y :: l)) with (f x + Rsum (f <$> y :: l))%R.
    assert (0 < f x)%R by (apply Hpos, list_elem_of_here).
    assert (0 < Rsum (f <$> y :: l))%R.
    { apply IH. intros z Hz. apply Hpos. by apply list_elem_of_further. }
    lra.
Qed.

Lemma col_sum_pos n A j :
  0 < n -> (forall i, i < n -> (0 < getitem2 A i j)%R) ->
  (0 < col_sum n A j)%R.
Proof.
  intros Hn Hpos. unfold col_sum. apply Rsum_fmap_pos.
  - destruct n; [lia|]. done.
  - intros i Hin. apply elem_of_seq in Hin. apply Hpos. lia.
Qed.

Lemma float_power_pos x alpha : (0 < float_power x alpha)%R.
Proof. unfold float_power, Rpower. apply exp_pos. Qed.

(** The density-compensated kernel matrix has positive items, whatever
    the input. *)
Lemma density_normalized_gaussian_pos n e alpha D i j :
  rows n n D -> i < n -> j < n ->
  (0 < getitem2 (ml.density_normalize alpha (ml.gaussian e D)) i j)%R.
Proof.
  intros HD Hi Hj.
  rewrite (getitem2_density_normalize n) by (try apply rows_gaussian; done).
  apply Rdiv_lt_0_compat.
  - rewrite (getitem2_gaussian n n) by done. apply exp_pos.
  - apply Rmult_lt_0_compat; apply float_power_pos.
Qed.
End OperatorFacts.

Section OperatorItems.
Local Open Scope nat_scope.

(** The matrix handed to the solver has columns that sum to one. *)
Lemma operator_columns_sum_to_one n D epsi alpha j :
  rows n n D -> j < n ->
  col_sum n (ml.diffusion_operator D epsi alpha).1 j = 1%R.
Proof.
  intros HD Hj. unfold ml.diffusion_operator. cbv zeta. simpl.
  apply row_normalize_columns_sum_to_one; [|done|].
  - by apply rows_density_normalize, rows_gaussian.
  - apply Rgt_not_eq, Rlt_gt, col_sum_pos; [lia|].
    intros i Hi. by apply (density_normalized_gaussian_pos n).
Qed.

(** Hence the weight matrix of line 48 is the identity matrix. *)
Lemma operator_weight_items n D epsi alpha i j :
  rows n n D -> i < n -> j < n ->
  getitem2 (ml.diffusion_operator D epsi alpha).2 i j
  = if decide (i = j) then 1%R else 0%R.
Proof.
  intros HD Hi Hj.
  pose proof (operator_columns_sum_to_one n D epsi alpha i HD Hi) as Hone.
  unfold ml.diffusion_operator in *. cbv zeta in *. simpl in *.
  rewrite (getitem2_weight_matrix n)
    by (try apply rows_row_normalize, rows_density_normalize, rows_gaussian;
        done).
  by rewrite Hone.
Qed.

(** The items of the matrix handed to the solver are positive. *)
Lemma operator_items_pos n D epsi alpha i j :
  rows n n D -> i < n -> j < n ->
  (0 < getitem2 (ml.diffusion_operator D epsi alpha).1 i j)%R.
Proof.
  intros HD Hi Hj. unfold ml.diffusion_operator. cbv zeta. simpl.
  rewrite (getitem2_row_normalize n)
    by (try apply rows_density_normalize, rows_gaussian; done).
  apply Rdiv_lt_0_compat.
  - by apply (density_normalized_gaussian_pos n).
  - apply col_sum_pos; [lia|].
    intros k Hk. by apply (density_normalized_gaussian_pos n).
Qed.

Lemma gaussian_symmetric_sums n D epsi i :
  rows n n D -> i < n ->
  (forall a b, a < n -> b < n -> getitem2 D a b = getitem2 D b a) ->
  col_sum n (ml.gaussian epsi D) i = row_sum n (ml.gaussian epsi D) i.
Proof.
  intros HD Hi Hsym. unfold col_sum, row_sum.
  apply Rsum_fmap_ext_in. intros k Hk. apply elem_of_seq in Hk.
  rewrite !(getitem2_gaussian n n) by (done || lia).
  rewrite (Hsym k i) by lia. done.
Qed.
End OperatorItems.

Lemma exp_m1_lt_1 : exp (-1) < 1.
Proof. rewrite <- exp_0. apply exp_increasing. lra. Qed.

(** C3, as the code has it.  [diffusionMaps] has the parameters
    [distMat, n_components, epsi, alpha] and no flag: for every square
    input it forms [K[i,j] = exp(-M[i,j]^2/epsi)], then
    [K'[i,j] = K[i,j] / (rowsum[i]^alpha * rowsum[j]^alpha)] where
    [rowsum] is the sum over axis 0, [rowsum[i] = sum_l K[l,i]], which
    for a symmetric input is [sum_l K[i,l]]; the matrix of line 45 and the
    weight matrix are computed from [K'], and these two go to the
    solver. *)
Theorem diffusionMaps_converts_then_density_normalizes
    (sla_eigs : list (list R) -> nat -> list (list R) -> result eigs_t)
    (distMat : list (list R)) (n n_components : nat) (epsi alpha : R)
    (i j : nat) :
  rows n n distMat -> 0 < epsi -> 0 <= alpha <= 1 ->
  (i < n)%nat -> (j < n)%nat ->
  let K := ml.gaussian epsi distMat in
  let K' := ml.density_normalize alpha K in
  getitem2 K i j = exp (- (getitem2 distMat i j ^ 2) / epsi) /\
  getitem2 K' i j
  = getitem2 K i j
    / (float_power (col_sum n K i) alpha * float_power (col_sum n K j) alpha) /\
  ((forall a b, (a < n)%nat -> (b < n)%nat ->
                getitem2 distMat a b = getitem2 distMat b a) ->
   col_sum n K i = row_sum n K i /\ col_sum n K j = row_sum n K j) /\
  ml.diffusionMaps sla_eigs distMat n_components epsi alpha
  = sla_eigs (ml.row_normalize K') n_components
             (ml.weight_matrix (ml.row_normalize K')).
Proof.
  intros HD Hepsi Halpha Hi Hj. cbv zeta. repeat split.
  - by apply (getitem2_gaussian n n).
  - apply (getitem2_density_normalize n); [by apply rows_gaussian|done..].
  - by apply gaussian_symmetric_sums.
  - by apply gaussian_symmetric_sums.
Qed.

Lemma dist_coincident_3_symmetric a b :
  (a < 3)%nat -> (b < 3)%nat ->
  getitem2 dist_coincident_3 a b = getitem2 dist_coincident_3 b a.
Proof.
  intros Ha Hb.
  destruct a as [|[|[|a]]]; destruct b as [|[|[|b]]]; try lia; reflexivity.
Qed.

Lemma diffusionMaps_converts_then_density_normalizes_witness :
  getitem2 (ml.gaussian 1 dist_coincident_3) 0 2
  = exp (- (getitem2 dist_coincident_3 0 2 ^ 2) / 1) /\
  col_sum 3 (ml.gaussian 1 dist_coincident_3) 0
  = row_sum 3 (ml.gaussian 1 dist_coincident_3) 0.
Proof.
  assert (rows 3 3 dist_coincident_3) as HD
    by (split; [reflexivity | repeat constructor]).
  assert (0 < 1) as H1 by lra.
  assert (0 <= 1/2 <= 1) as Ha by lra.
  assert (0 < 3)%nat as Hi by lia.
  assert (2 < 3)%nat as Hj by lia.
  destruct (diffusionMaps_converts_then_density_normalizes
              (fun _ _ _ => Raise (RuntimeError "no solver"))
              dist_coincident_3 3 10 1 (1/2) 0 2 HD H1 Ha Hi Hj)
    as (HK & _ & Hsym & _).
  split; [exact HK|].
  exact (proj1 (Hsym dist_coincident_3_symmetric)).
Defined.

(** No setting of the remaining parameters makes [diffusionMaps] use a
    Gram matrix as it is: on the identity the solver receives a matrix
    with a positive item where the unconverted matrix has a zero.  And on
    a matrix that is not symmetric the weights are powers of the column
    sums, not of the row sums. *)
Lemma diffusionMaps_has_no_kernel_flag :
  (~ exists epsi alpha : R,
       getitem2 (ml.diffusion_operator gram_identity_2 epsi alpha).1 0 1
       = getitem2 (ml.row_normalize
                     (ml.density_normalize alpha gram_identity_2)) 0 1) /\
  getitem2 (ml.density_normalize 1 (ml.gaussian 1 dist_asymmetric_2)) 0 0
  <> getitem2 (ml.gaussian 1 dist_asymmetric_2) 0 0
     / (float_power (row_sum 2 (ml.gaussian 1 dist_asymmetric_2) 0) 1
        * float_power (row_sum 2 (ml.gaussian 1 dist_asymmetric_2) 0) 1).
Proof.
  split.
  - intros (epsi & alpha & Heq).
    assert (rows 2 2 gram_identity_2) as HD
      by (split; [reflexivity | repeat constructor]).
    pose proof (operator_items_pos 2 gram_identity_2 epsi alpha 0 1 HD
                  ltac:(lia) ltac:(lia)) as Hpos.
    rewrite Heq in Hpos. revert Hpos.
    unfold getitem2, ml.row_normalize, ml.density_normalize, mdiv,
      gram_identity_2.
    simpl. unfold Rdiv. rewrite !Rmult_0_l. lra.
  - unfold row_sum, getitem2, ml.density_normalize, ml.gaussian, sum_axis0,
      np_outer, mdiv, vadd, float_power, dist_asymmetric_2, Rsum.
    simpl.
    replace (- (0 * (0 * 1)) / 1) with 0 by lra.
    replace (- (1 * (1 * 1)) / 1) with (-1) by lra.
    rewrite exp_0.
    pose proof exp_m1_lt_1 as He. pose proof (exp_pos (-1)) as Hp.
    rewrite !Rpower_1 by lra.
    intros Heq.
    assert ((1 + (exp (-1) + 0)) * (1 + (exp (-1) + 0)) < (1 + (1 + 0)) * (1 + (1 + 0)))
      as Hlt by nra.
    apply Rinv_lt_contravar in Hlt; [|nra].
    unfold Rdiv in Heq. lra.
Qed.

(** C4, as the code has it.  The weight matrix of line 48 is built from
    the [kernelMat] that line 45 has already normalized: it is
    [diag(colsum(P))] for the matrix [P] handed to the solver, for every
    square input and all [epsi], [alpha]. *)
Theorem weight_matrix_from_normalized_kernel
    (distMat : list (list R)) (n : nat) (epsi alpha : R) (i j : nat) :
  rows n n distMat -> (i < n)%nat -> (j < n)%nat ->
  let P := (ml.diffusion_operator distMat epsi alpha).1 in
  let W := (ml.diffusion_operator distMat epsi alpha).2 in
  W = ml.weight_matrix P /\
  getitem2 W i j = (if decide (i = j) then col_sum n P i else 0).
Proof.
  intros HD Hi Hj. cbv zeta. split; [reflexivity|].
  unfold ml.diffusion_operator. cbv zeta. cbn [fst snd].
  apply (getitem2_weight_matrix n); [|done..].
  by apply rows_row_normalize, rows_density_normalize, rows_gaussian.
Qed.

Lemma weight_matrix_from_normalized_kernel_witness :
  getitem2 (ml.diffusion_operator dist_coincident_3 1 (1/2)).2 1 1
  = col_sum 3 (ml.diffusion_operator dist_coincident_3 1 (1/2)).1 1 /\
  getitem2 (ml.diffusion_operator dist_coincident_3 1 (1/2)).2 1 2 = 0.
Proof.
  assert (rows 3 3 dist_coincident_3) as HD
    by (split; [reflexivity | repeat constructor]).
  split.
  - exact (proj2 (weight_matrix_from_normalized_kernel
                    dist_coincident_3 3 1 (1/2) 1 1 HD
                    ltac:(lia) ltac:(lia))).
  - exact (proj2 (weight_matrix_from_normalized_kernel
                    dist_coincident_3 3 1 (1/2) 1 2 HD
                    ltac:(lia) ltac:(lia))).
Defined.

(** For two coincident start points and [alpha = 1] the column sums of
    the density-compensated matrix [K'] are [1/2], while the weight
    matrix carries [1]. *)
Lemma weight_matrix_is_not_colsum_of_K' :
  getitem2 (ml.diffusion_operator dist_coincident_2 1 1).2 0 0
  <> col_sum 2 (ml.density_normalize 1 (ml.gaussian 1 dist_coincident_2)) 0.
Proof.
  assert (rows 2 2 dist_coincident_2) as HD
    by (split; [reflexivity | repeat constructor]).
  rewrite (operator_weight_items 2) by (done || lia).
  rewrite decide_True by done.
  unfold col_sum, getitem2, ml.density_normalize, ml.gaussian, sum_axis0,
    np_outer, mdiv, vadd, float_power, dist_coincident_2, Rsum.
  simpl.
  replace (- (0 * (0 * 1)) / 1) with 0 by lra.
  rewrite exp_0, !Rpower_1 by lra. lra.
Qed.

(** C2 at a concrete input: three start points of which two coincide,
    [epsi = 1], [alpha = 0].  The first row of the matrix produced by line
    45 sums to [2/(2+e) + e/(1+2e)] with [e = exp(-1)], which is not [1];
    its columns sum to one instead. *)
Lemma row_normalization_is_not_row_stochastic :
  row_sum 3 (ml.diffusion_operator dist_coincident_3 1 0).1 0 <> 1 /\
  col_sum 3 (ml.diffusion_operator dist_coincident_3 1 0).1 0 = 1.
Proof.
  split.
  2:{ apply operator_columns_sum_to_one; [|lia].
      split; [reflexivity | repeat constructor]. }
  unfold row_sum, getitem2, ml.diffusion_operator, ml.row_normalize,
    ml.density_normalize, ml.gaussian, sum_axis0, builtin_sum, np_tile,
    np_outer, mdiv, vadd, float_power, dist_coincident_3, Rsum.
  simpl.
  replace (- (0 * (0 * 1)) / 1) with 0 by lra.
  replace (- (1 * (1 * 1)) / 1) with (-1) by lra.
  rewrite exp_0.
  pose proof exp_m1_lt_1 as He. pose proof (exp_pos (-1)) as Hp.
  set (e := exp (-1)) in *.
  rewrite !Rpower_O by lra.
  replace (1 / (1 * 1)) with 1 by field.
  replace (e / (1 * 1)) with e by field.
  replace (0 + 1 + 1 + e) with (2 + e) by ring.
  replace (0 + e + e + 1) with (1 + 2 * e) by ring.
  unfold Rdiv. intros H.
  assert ((/ (2 + e)) * (2 + e) = 1) as Ha by (apply Rinv_l; lra).
  assert ((/ (1 + 2 * e)) * (1 + 2 * e) = 1) as Hb by (apply Rinv_l; lra).
  assert (2 * (1 + 2 * e) + e * (2 + e) = (2 + e) * (1 + 2 * e)) as Heq.
  { transitivity
      ((1 * / (2 + e) + (1 * / (2 + e) + (e * / (1 + 2 * e) + 0)))
       * ((2 + e) * (1 + 2 * e))).
    - transitivity (2 * (/ (2 + e) * (2 + e)) * (1 + 2 * e)
                    + e * (/ (1 + 2 * e) * (1 + 2 * e)) * (2 + e)).
      + rewrite Ha, Hb. ring.
      + ring.
    - rewrite H. ring. }
  nra.
Qed.

(** ** [evaluateDiffusionMaps] *)

Section EvaluateFacts.
Local Open Scope nat_scope.

Lemma slice_to_length {A : Type} (stop : Z) (l : list A) :
  length (slice_to stop l) = slice_to_len stop (length l).
Proof.
  unfold slice_to, slice_to_len.
  destruct (0 <=? stop)%Z; by rewrite length_take.
Qed.

Lemma slice_to_beyond {A : Type} (stop : Z) (l : list A) :
  (Z.of_nat (length l) <= stop)%Z -> slice_to stop l = l.
Proof.
  intros H. unfold slice_to.
  destruct (0 <=? stop)%Z eqn:E; [|lia].
  apply take_ge. lia.
Qed.

Lemma slice_to_lookup {A : Type} (stop : Z) (l : list A) (j : nat) :
  j < slice_to_len stop (length l) -> slice_to stop l !! j = l !! j.
Proof.
  unfold slice_to, slice_to_len. intros Hj.
  destruct (0 <=? stop)%Z; apply lookup_take_lt; lia.
Qed.

Lemma slice_to_len_within (stop : Z) (len : nat) :
  (0 <= stop <= Z.of_nat len)%Z -> slice_to_len stop len = Z.to_nat stop.
Proof.
  intros H. unfold slice_to_len. destruct (0 <=? stop)%Z eqn:E; lia.
Qed.

(** On rows of the length of [v] the broadcast product is the itemwise
    one and cannot fail. *)
Lemma broadcast_mul_row_same_length (A : list (list R)) (v : list R) :
  Forall (fun r => length r = length v) A ->
  broadcast_mul_row A v = Ok ((fun row : list R => zip_with Rmult row v) <$> A).
Proof.
  intros Hall. unfold broadcast_mul_row. destruct A as [|r A]; [done|].
  apply Forall_cons in Hall as [Hr _]. by rewrite decide_True.
Qed.

Lemma evaluate_unfold n m (eigs : eigs_t) (k : Z) :
  eigs_shape n m eigs ->
  ml.evaluateDiffusionMaps eigs k
  = Ok ((fun row : list R =>
           zip_with Rmult row (slice_to k (real <$> eigs.1)))
          <$> ((fun r : list complex => slice_to k (real <$> r)) <$> eigs.2)).
Proof.
  intros (Hv & Hn & Hall). unfold ml.evaluateDiffusionMaps.
  apply broadcast_mul_row_same_length.
  apply Forall_fmap. eapply Forall_impl; [exact Hall|].
  intros r Hr. simpl. by rewrite !slice_to_length, !length_fmap, Hr, Hv.
Qed.
End EvaluateFacts.

(** C6, as the code has it.  [evaluateDiffusionMaps(eigs, k)] never
    fails on an eigen-decomposition with [n_components] components.  Its
    result has the columns [j] that the slice [[:k]] keeps, each the real
    part of eigenvector [j] times the real part of eigenvalue [j]: a [k]
    beyond [n_components] is clipped and gives the result of
    [k = n_components], and for [0 <= k <= n_components] there are [k]
    columns. *)
Theorem evaluateDiffusionMaps_clips
    (eigs : eigs_t) (n n_components : nat) (k : Z) :
  eigs_shape n n_components eigs ->
  (exists Y, ml.evaluateDiffusionMaps eigs k = Ok Y /\
             rows n (slice_to_len k n_components) Y /\
             forall i j, (i < n)%nat -> (j < slice_to_len k n_components)%nat ->
               getitem2 Y i j
               = real ((eigs.2 !!! i) !!! j) * real (eigs.1 !!! j)) /\
  ((Z.of_nat n_components < k)%Z ->
   ml.evaluateDiffusionMaps eigs k
   = ml.evaluateDiffusionMaps eigs (Z.of_nat n_components)) /\
  ((0 <= k <= Z.of_nat n_components)%Z ->
   slice_to_len k n_components = Z.to_nat k).
Proof.
  intros Hs. pose proof Hs as (Hv & Hn & Hall).
  rewrite (evaluate_unfold n n_components eigs k Hs). split; [|split].
  - eexists. split; [reflexivity|]. split.
    + split; [by rewrite !length_fmap|].
      apply Forall_fmap, Forall_fmap. eapply Forall_impl; [exact Hall|].
      intros r Hr. simpl in *.
      rewrite length_zip_with, !slice_to_length, !length_fmap, Hr, Hv. lia.
    + intros i j Hi Hj.
      destruct (lookup_lt_is_Some_2 eigs.2 i) as [r Hr]; [lia|].
      pose proof (Forall_lookup_1 _ _ _ _ Hall Hr) as Hrl. simpl in Hrl.
      assert (j < n_components)%nat as Hjm
        by (unfold slice_to_len in Hj; destruct (0 <=? k)%Z; lia).
      destruct (lookup_lt_is_Some_2 r j) as [z Hz]; [lia|].
      destruct (lookup_lt_is_Some_2 eigs.1 j) as [w Hw]; [lia|].
      rewrite (list_lookup_total_correct _ _ _ Hr),
              (list_lookup_total_correct _ _ _ Hz),
              (list_lookup_total_correct _ _ _ Hw).
      eapply getitem2_lookup.
      * by rewrite !list_lookup_fmap, Hr.
      * rewrite lookup_zip_with, !slice_to_lookup
          by (rewrite length_fmap, ?Hrl, ?Hv; done).
        by rewrite !list_lookup_fmap, Hz, Hw.
  - intros Hk.
    rewrite (evaluate_unfold n n_components eigs _ Hs). f_equal.
    rewrite !(slice_to_beyond _ (real <$> eigs.1))
      by (rewrite length_fmap; lia).
    f_equal. apply list_eq. intros i. rewrite !list_lookup_fmap.
    destruct (eigs.2 !! i) as [r|] eqn:E; [|done]. simpl. f_equal.
    pose proof (Forall_lookup_1 _ _ _ _ Hall E) as Hr. simpl in Hr.
    by rewrite !slice_to_beyond by (rewrite length_fmap; lia).
  - apply slice_to_len_within.
Qed.

Lemma evaluateDiffusionMaps_clips_witness :
  is_ok (ml.evaluateDiffusionMaps eigs_one_component 5) /\
  ml.evaluateDiffusionMaps eigs_one_component 5
  = ml.evaluateDiffusionMaps eigs_one_component 1.
Proof.
  assert (eigs_shape 2 1 eigs_one_component) as Hs
    by (repeat split; repeat constructor).
  destruct (evaluateDiffusionMaps_clips eigs_one_component 2 1 5 Hs)
    as ((Y & HY & _) & Hclip & _).
  split; [by rewrite HY|]. apply Hclip. simpl. lia.
Defined.

(** With one available component and [k = 2] the call returns the
    one-column result; it does not fail. *)
Lemma evaluateDiffusionMaps_beyond_components_returns :
  ml.evaluateDiffusionMaps eigs_one_component 2 = Ok [[3 * 2]; [4 * 2]].
Proof. reflexivity. Qed.

(** ** The random linear embedding *)

(** C9.  Two [RandomLinearEmbeddingFunction] instances constructed with
    the same [(inputdimension, outputdimension, seed)] are the same,
    whatever the states [g1], [g2] of the process-wide generator at the
    two constructions: either both constructions fail with the error of
    [np.random.seed], or they draw the same matrix [A], agree under
    [evaluate] on every [x], and leave the generator in the same state. *)
Theorem same_seed_same_embedding
    (RandomState : Type)
    (np_random_seed : Z -> result RandomState)
    (np_random_uniform :
       R -> R -> nat * nat -> RandomState -> list (list R) * RandomState)
    (inputdimension outputdimension : nat) (seed : Z)
    (g1 g2 : RandomState) (x : list (list R)) :
  let run := RandomLinearEmbeddingFunction.__init__
               np_random_seed np_random_uniform
               inputdimension outputdimension seed in
  (run g1).1 = (run g2).1 /\
  match run g1, run g2 with
  | (Ok f1, g1'), (Ok f2, g2') =>
      RandomLinearEmbeddingFunction.A f1 = RandomLinearEmbeddingFunction.A f2 /\
      RandomLinearEmbeddingFunction.evaluate f1 x
      = RandomLinearEmbeddingFunction.evaluate f2 x /\
      g1' = g2'
  | (Raise e1, _), (Raise e2, _) => e1 = e2
  | _, _ => False
  end.
Proof.
  cbv zeta. unfold RandomLinearEmbeddingFunction.__init__.
  destruct (np_random_seed seed) as [g|e]; [|done].
  destruct (np_random_uniform 0 1 (inputdimension, outputdimension) g)
    as [A g']. done.
Qed.

(** ** The linear random-feature manifold *)

(** C7.  On an instance whose [sampler] is still [None], as [__init__]
    leaves it, [predict(Y)] raises the [RuntimeError] of line 293 for
    every [Y] and leaves the instance as it was. *)
Theorem predict_before_fit_raises
    (Sampler Kwargs : Type)
    (transform : Sampler -> list (list R) -> list (list R))
    (self : LinearRandomFeatureManifold.t Sampler Kwargs)
    (Y : list (list R)) :
  LinearRandomFeatureManifold.sampler self = None ->
  LinearRandomFeatureManifold.predict transform self Y
  = (self, Raise (RuntimeError "Run fit() first to fit the model.")).
Proof.
  intros Hs. unfold LinearRandomFeatureManifold.predict. by rewrite Hs.
Qed.

Lemma predict_before_fit_raises_witness :
  LinearRandomFeatureManifold.predict (fun (_ : unit) Y => Y)
    (LinearRandomFeatureManifold.__init__ "rff" 100 "rbf" (1/10) tt)
    [[1; 2]]
  = (LinearRandomFeatureManifold.__init__ "rff" 100 "rbf" (1/10) tt,
     Raise (RuntimeError "Run fit() first to fit the model.")).
Proof.
  apply (predict_before_fit_raises unit unit). reflexivity.
Defined.

Section ReshapeFacts.
Local Open Scope nat_scope.
Context {A : Type}.
Implicit Types (l : list A) (F : list (list A)).

Lemma length_concat_uniform c F :
  Forall (fun r => length r = c) F -> length (concat F) = length F * c.
Proof.
  induction 1 as [|r F Hr _ IH]; simpl; [done|].
  rewrite length_app, IH, Hr. lia.
Qed.

Lemma chunks_concat c F :
  Forall (fun r => length r = c) F -> chunks c (length F) (concat F) = F.
Proof.
  induction 1 as [|r F Hr _ IH]; simpl; [done|].
  rewrite take_app_length', drop_app_length' by done. by rewrite IH.
Qed.

Lemma length_chunks k cnt l : length (chunks k cnt l) = cnt.
Proof. revert l. induction cnt as [|cnt IH]; intros l; simpl; [done|]. by rewrite IH. Qed.

Lemma chunks_lookup k cnt l i :
  i < cnt -> chunks k cnt l !! i = Some (take k (drop (i * k) l)).
Proof.
  revert l i. induction cnt as [|cnt IH]; intros l i Hi; [lia|].
  destruct i as [|i]; simpl.
  - done.
  - rewrite IH by lia. by rewrite drop_drop.
Qed.

(** Block [i] of [M] consecutive rows of a flat array with [n * M] rows. *)
Lemma block_length n M l i :
  length l = n * M -> i < n -> length (take M (drop (i * M) l)) = M.
Proof.
  intros Hl Hi. rewrite length_take, length_drop, Hl. nia.
Qed.

Lemma block_lookup M l i m :
  m < M -> take M (drop (i * M) l) !! m = l !! (i * M + m).
Proof. intros Hm. by rewrite lookup_take_lt, lookup_drop. Qed.
End ReshapeFacts.

Section FitFacts.
Local Open Scope nat_scope.

(** In the C-order flattening the block of rows
    [i * M, ..., i * M + M - 1] is start point [i]'s cloud. *)
Lemma reshape_flat_block (X : ndarray3) i :
  wf3 X -> i < shape0 X ->
  take (shape1 X) (drop (i * shape1 X) (reshape_flat X)) = cloud_of X i.
Proof.
  intros [Hn Hall] Hi. unfold reshape_flat, cloud_of.
  assert (Forall (fun r : list (list R) => length r = shape1 X) (items X))
    as Hall'.
  { eapply Forall_impl; [exact Hall|]. by intros ? [? _]. }
  pose proof (chunks_concat (shape1 X) (items X) Hall') as Hc.
  pose proof (chunks_lookup (shape1 X) (length (items X))
                (concat (items X)) i ltac:(lia)) as Hl.
  rewrite Hc in Hl. by rewrite (list_lookup_total_correct _ _ _ Hl).
Qed.

Lemma reshape3_ok n M c (F : list (list R)) :
  rows (n * M) c F -> reshape3 n M c F = Ok (chunks M n F).
Proof.
  intros [Hn Hall]. unfold reshape3.
  rewrite decide_True
    by (rewrite (length_concat_uniform c) by done; by rewrite Hn).
  rewrite <- Hn at 1. by rewrite chunks_concat.
Qed.

Lemma dot_fmap {T : Type} (f g : T -> R) (l : list T) :
  dot (f <$> l) (g <$> l) = Rsum ((fun i => f i * g i)%R <$> l).
Proof.
  unfold dot, Rsum. induction l as [|x l IH]; csimpl; [done|].
  by rewrite IH.
Qed.

(** Row [a] of the transpose is column [a]. *)
Lemma transpose_row n c (E : list (list R)) a :
  rows n c E -> a < c ->
  transpose c E !! a = Some ((fun i => getitem2 E i a) <$> seq 0 n).
Proof.
  intros HE Ha. pose proof HE as [Hn Hall].
  pose proof (rows_transpose n c E Hn Hall) as [Hlen Hcols].
  destruct (lookup_lt_is_Some_2 (transpose c E) a) as [col Hcol]; [lia|].
  rewrite Hcol. f_equal.
  pose proof (Forall_lookup_1 _ _ _ _ Hcols Hcol) as Hcl. simpl in Hcl.
  apply list_eq. intros i. rewrite list_lookup_fmap.
  destruct (decide (i < n)) as [Hi|Hi].
  - rewrite lookup_seq_lt by done. simpl.
    destruct (rows_lookup n c E i HE Hi) as (r & Hr & Hrl).
    destruct (lookup_lt_is_Some_2 r a) as [x Hx]; [lia|].
    destruct (transpose_lookup c E i a r x Hall Hr Hx) as (col' & Hcol' & Hx').
    rewrite Hcol in Hcol'. injection Hcol' as <-.
    by rewrite Hx', (getitem2_lookup _ _ _ _ _ Hr Hx).
  - rewrite lookup_seq_ge by lia. simpl. apply lookup_ge_None. lia.
Qed.

Lemma rows_matmul_gram n c (E : list (list R)) :
  rows n c E -> rows c c (matmul c (transpose c E) E).
Proof.
  intros HE. pose proof HE as [Hn Hall].
  pose proof (rows_transpose n c E Hn Hall) as [Hlen Hcols].
  unfold matmul. split.
  - by rewrite length_fmap.
  - apply Forall_fmap, Forall_forall. intros r _. simpl.
    by rewrite length_fmap.
Qed.

(** Line 278, item by item. *)
Lemma getitem2_covariance n c (E : list (list R)) a b :
  rows n c E -> a < c -> b < c ->
  getitem2 (LinearRandomFeatureManifold.covariance n c E) a b
  = Rsum ((fun i => getitem2 E i a * getitem2 E i b)%R <$> seq 0 n).
Proof.
  intros HE Ha Hb. unfold LinearRandomFeatureManifold.covariance, matmul.
  pose proof (transpose_row n c E a HE Ha) as Hra.
  pose proof (transpose_row n c E b HE Hb) as Hrb.
  rewrite <- (dot_fmap (fun i => getitem2 E i a) (fun i => getitem2 E i b)).
  eapply getitem2_lookup.
  - by rewrite list_lookup_fmap, Hra.
  - by rewrite list_lookup_fmap, Hrb.
Qed.

(** Line 273, item by item: the sum over the [M] rows of block [i]. *)
Lemma getitem2_sum_axis1 n M c (F : list (list R)) i a :
  rows (n * M) c F -> i < n -> a < c ->
  getitem2 (LinearRandomFeatureManifold.sum_axis1 c (chunks M n F)) i a
  = Rsum ((fun m => getitem2 F (i * M + m) a) <$> seq 0 M).
Proof.
  intros [Hn Hall] Hi Ha. unfold LinearRandomFeatureManifold.sum_axis1.
  unfold getitem2 at 1.
  rewrite (list_lookup_total_correct _ _
             (sum_axis0 c (take M (drop (i * M) F))))
    by (by rewrite list_lookup_fmap, chunks_lookup).
  rewrite (sum_axis0_lookup c) by (try apply Forall_take, Forall_drop; done).
  rewrite (block_length n M) by done.
  unfold col_sum. apply Rsum_fmap_ext_in. intros m Hm.
  apply elem_of_seq in Hm. unfold getitem2.
  f_equal. apply list_lookup_total_correct.
  rewrite block_lookup by lia.
  apply list_lookup_lookup_total_lt. rewrite Hn. nia.
Qed.

Lemma rows_sum_axis1 n M c (F : list (list R)) :
  rows (n * M) c F ->
  rows n c (LinearRandomFeatureManifold.sum_axis1 c (chunks M n F)).
Proof.
  intros [Hn Hall]. unfold LinearRandomFeatureManifold.sum_axis1. split.
  - by rewrite length_fmap, length_chunks.
  - apply Forall_fmap, Forall_lookup_2. intros i blk Hblk. simpl.
    apply sum_axis0_length.
    pose proof (lookup_lt_Some _ _ _ Hblk) as Hi.
    rewrite length_chunks in Hi. rewrite chunks_lookup in Hblk by done.
    injection Hblk as <-. by apply Forall_take, Forall_drop.
Qed.

Lemma rows_center n c (E : list (list R)) :
  rows n c E -> rows n c (LinearRandomFeatureManifold.center n c E).
Proof.
  intros [Hn Hall]. unfold LinearRandomFeatureManifold.center. split.
  - by rewrite length_fmap.
  - apply Forall_fmap. eapply Forall_impl; [exact Hall|].
    intros r Hr. simpl in *.
    rewrite length_zip_with, length_fmap, sum_axis0_length by done. lia.
Qed.

(** Lines 276 and 277, item by item. *)
Lemma getitem2_center n c (E : list (list R)) i a :
  rows n c E -> i < n -> a < c ->
  getitem2 (LinearRandomFeatureManifold.center n c E) i a
  = (getitem2 E i a - col_sum n E a / INR n)%R.
Proof.
  intros HE Hi Ha. pose proof HE as [Hn Hall].
  destruct (rows_lookup n c E i HE Hi) as (r & Hr & Hrl).
  destruct (lookup_lt_is_Some_2 r a) as [x Hx]; [lia|].
  rewrite (getitem2_lookup _ _ _ _ _ Hr Hx).
  pose proof (sum_axis0_lookup c E a Hall Ha) as Hs. rewrite Hn in Hs.
  rewrite <- Hs.
  destruct (lookup_lt_is_Some_2 (sum_axis0 c E) a) as [y Hy];
    [by rewrite sum_axis0_length|].
  rewrite (list_lookup_total_correct _ _ _ Hy).
  eapply getitem2_lookup; unfold LinearRandomFeatureManifold.center.
  - by rewrite list_lookup_fmap, Hr.
  - by rewrite lookup_zip_with, Hx, list_lookup_fmap, Hy.
Qed.
End FitFacts.

(** C8.  On a 3-axis input of shape [(n_points, M, dim)], with a valid
    [method] and a sampler that returns one row of [n_components]
    features per sample, [fit] succeeds and stores: as [embedded], for
    each start point [i], the plain sum over its [M] transformed samples
    (rows [i*M .. i*M+M-1] of the features, which are the transforms of
    the cloud [X[i,:,:]]; nothing is divided by [M]) minus the mean of
    these sums over the start points; and as [vec] the eigenvector
    returned by [eigsh(cov, k=1, which="LM")] for the covariance
    [cov = E^T E] of the centered embeddings [E]. *)
Theorem fit_centers_summed_embeddings
    (Sampler Kwargs : Type)
    (RBFSampler : R -> nat -> Kwargs -> Sampler)
    (Nystroem : string -> nat -> Kwargs -> Sampler)
    (fit_transform : Sampler -> list (list R) -> Sampler * list (list R))
    (eigsh : list (list R) -> nat -> string -> list R * list (list R))
    (self : LinearRandomFeatureManifold.t Sampler Kwargs)
    (X : ndarray3) (s0 s : Sampler) (F : list (list R)) :
  let n := shape0 X in
  let M := shape1 X in
  let c := LinearRandomFeatureManifold.n_components self in
  let S i a := Rsum ((fun m => getitem2 F (i * M + m)%nat a) <$> seq 0 M) in
  let mean a := Rsum ((fun i => S i a) <$> seq 0 n) / INR n in
  wf3 X ->
  LinearRandomFeatureManifold.choose_sampler RBFSampler Nystroem self = Ok s0 ->
  fit_transform s0 (reshape_flat X) = (s, F) ->
  rows (n * M)%nat c F ->
  exists self' E,
    LinearRandomFeatureManifold.fit RBFSampler Nystroem fit_transform eigsh
      self X = (self', Ok tt) /\
    LinearRandomFeatureManifold.sampler self' = Some s /\
    (forall i, (i < n)%nat ->
       take M (drop (i * M)%nat (reshape_flat X)) = cloud_of X i) /\
    LinearRandomFeatureManifold.embedded self' = Some E /\
    rows n c E /\
    (forall i a, (i < n)%nat -> (a < c)%nat ->
       getitem2 E i a = S i a - mean a) /\
    LinearRandomFeatureManifold.vec self'
    = Some (eigsh (LinearRandomFeatureManifold.covariance n c E) 1%nat "LM"%string).2 /\
    (forall a b, (a < c)%nat -> (b < c)%nat ->
       getitem2 (LinearRandomFeatureManifold.covariance n c E) a b
       = Rsum ((fun i => getitem2 E i a * getitem2 E i b) <$> seq 0 n)).
Proof.
  intros n M c S mean HX Hchoose Hft HF.
  pose proof (rows_sum_axis1 n M c F HF) as HS.
  pose proof (rows_center n c _ HS) as HE.
  unfold LinearRandomFeatureManifold.fit. cbv zeta.
  change (LinearRandomFeatureManifold.choose_sampler RBFSampler Nystroem
            (LinearRandomFeatureManifold.set_shape Sampler Kwargs self X))
    with (LinearRandomFeatureManifold.choose_sampler RBFSampler Nystroem self).
  rewrite Hchoose, Hft.
  change (LinearRandomFeatureManifold.n_components
            (LinearRandomFeatureManifold.set_shape Sampler Kwargs self X))
    with c.
  fold n M. rewrite (reshape3_ok n M c F HF).
  destruct (eigsh (LinearRandomFeatureManifold.covariance n c
                     (LinearRandomFeatureManifold.center n c
                        (LinearRandomFeatureManifold.sum_axis1 c
                           (chunks M n F)))) 1%nat "LM"%string) as [vals v] eqn:Heig.
  eexists _, (LinearRandomFeatureManifold.center n c
                (LinearRandomFeatureManifold.sum_axis1 c (chunks M n F))).
  split; [reflexivity|]. split; [reflexivity|]. split.
  { intros i Hi. by apply reshape_flat_block. }
  split; [reflexivity|]. split; [exact HE|]. split.
  { intros i a Hi Ha.
    rewrite (getitem2_center n c) by done.
    rewrite (getitem2_sum_axis1 n M c) by done.
    unfold mean, S, col_sum. f_equal. f_equal.
    apply Rsum_fmap_ext_in. intros k Hk. apply elem_of_seq in Hk.
    by rewrite (getitem2_sum_axis1 n M c) by (done || lia). }
  split.
  { simpl. by rewrite Heig. }
  intros a b Ha Hb. by apply getitem2_covariance.
Qed.

Lemma fit_centers_summed_embeddings_witness :
  exists self' E,
    LinearRandomFeatureManifold.fit (fun _ _ _ => tt) (fun _ _ _ => tt)
      identity_fit_transform fixed_eigsh unfitted_rff ensemble_2x3
    = (self', Ok tt) /\
    LinearRandomFeatureManifold.embedded self' = Some E /\
    getitem2 E 0 0
    = Rsum ((fun m => getitem2 (reshape_flat ensemble_2x3) (0 * 3 + m)%nat 0)
              <$> seq 0 3)
      - Rsum ((fun i =>
                 Rsum ((fun m =>
                          getitem2 (reshape_flat ensemble_2x3) (i * 3 + m)%nat 0)
                         <$> seq 0 3)) <$> seq 0 2) / INR 2.
Proof.
  assert (wf3 ensemble_2x3) as HX
    by (split; [reflexivity | repeat constructor]).
  assert (rows (shape0 ensemble_2x3 * shape1 ensemble_2x3)%nat
               (LinearRandomFeatureManifold.n_components unfitted_rff)
               (reshape_flat ensemble_2x3)) as HF
    by (split; [reflexivity | repeat constructor]).
  destruct (fit_centers_summed_embeddings unit unit
              (fun _ _ _ => tt) (fun _ _ _ => tt)
              identity_fit_transform fixed_eigsh unfitted_rff ensemble_2x3
              tt tt (reshape_flat ensemble_2x3) HX eq_refl eq_refl HF)
    as (self' & E & Hfit & _ & _ & Hemb & _ & Hitems & _).
  exists self', E. split; [exact Hfit|]. split; [exact Hemb|].
  apply (Hitems 0%nat 0%nat); simpl; lia.
Defined.

(** The same run, evaluated: the sums are [6] and [60], their mean over
    the two start points is [33]. *)
Example fit_on_ensemble_2x3 :
  LinearRandomFeatureManifold.embedded
    (LinearRandomFeatureManifold.fit (fun _ _ _ => tt) (fun _ _ _ => tt)
       identity_fit_transform fixed_eigsh unfitted_rff ensemble_2x3).1
  = Some [[1 + (2 + (3 + 0)) - (1 + (2 + (3 + 0)) + (10 + (20 + (30 + 0)) + 0)) / (1 + 1)];
          [10 + (20 + (30 + 0)) - (1 + (2 + (3 + 0)) + (10 + (20 + (30 + 0)) + 0)) / (1 + 1)]].
Proof. reflexivity. Qed.

(** * Part III: further properties of the code *)

(** ** Shapes and broadcasting *)

Section ShapeFacts.
Local Open Scope nat_scope.
Implicit Types (A B : list (list R)).

(** Two arrays of one shape with the same items are the same array. *)
Lemma matrix_ext n m A B :
  rows n m A -> rows n m B ->
  (forall i j, i < n -> j < m -> getitem2 A i j = getitem2 B i j) ->
  A = B.
Proof.
  intros HA HB Hitems. pose proof HA as [HA1 HA2]. pose proof HB as [HB1 HB2].
  apply list_eq_same_length with n; [done..|].
  intros i a b Hi Ha Hb.
  pose proof (Forall_lookup_1 _ _ _ _ HA2 Ha) as Hla.
  pose proof (Forall_lookup_1 _ _ _ _ HB2 Hb) as Hlb.
  simpl in Hla, Hlb.
  apply list_eq_same_length with m; [done..|].
  intros j x y Hj Hx Hy.
  specialize (Hitems i j Hi Hj).
  by rewrite (getitem2_lookup _ _ _ _ _ Ha Hx),
             (getitem2_lookup _ _ _ _ _ Hb Hy) in Hitems.
Qed.

Lemma np_shape_rows n m A : rows n m A -> 0 < n -> np_shape A = (n, m).
Proof.
  intros [Hn Hall] Hpos. unfold np_shape. destruct A as [|r A]; simpl in *.
  - lia.
  - apply Forall_cons in Hall as [Hr _]. by rewrite Hn, Hr.
Qed.

Lemma np_ncols n m A : rows n m A -> 0 < n -> length (hd [] A) = m.
Proof.
  intros HA Hn. by injection (np_shape_rows n m A HA Hn).
Qed.

Lemma rows_broadcast_to n m A : rows n m (broadcast_to n m A).
Proof.
  unfold broadcast_to. destruct (np_shape A) as [a b]. split.
  - by rewrite length_fmap, length_seq.
  - apply Forall_fmap, Forall_forall. intros i _. simpl.
    by rewrite length_fmap, length_seq.
Qed.

Lemma getitem2_range n m (f : nat -> nat -> R) i j :
  i < n -> j < m ->
  getitem2 ((fun i => (fun j => f i j) <$> seq 0 m) <$> seq 0 n) i j = f i j.
Proof.
  intros Hi Hj. eapply getitem2_lookup.
  - by rewrite list_lookup_fmap, lookup_seq_lt.
  - by rewrite list_lookup_fmap, lookup_seq_lt.
Qed.

(** Broadcasting an array to its own shape changes nothing. *)
Lemma broadcast_to_same n m A : rows n m A -> 0 < n -> broadcast_to n m A = A.
Proof.
  intros HA Hn. apply (matrix_ext n m); [apply rows_broadcast_to|done|].
  intros i j Hi Hj. unfold broadcast_to.
  rewrite (np_shape_rows n m A HA Hn).
  rewrite (getitem2_range n m
             (fun i j => getitem2 A (if decide (n = 1) then 0 else i)
                                    (if decide (m = 1) then 0 else j)))
    by done.
  repeat case_decide; f_equal; lia.
Qed.

Lemma broadcast_dim_same a : broadcast_dim a a = Some a.
Proof. unfold broadcast_dim. by rewrite decide_True. Qed.

Lemma broadcast_dim_mismatch a b :
  1 < a -> 1 < b -> a <> b -> broadcast_dim a b = None.
Proof.
  intros Ha Hb Hne. unfold broadcast_dim.
  rewrite !decide_False by lia. done.
Qed.

(** Two arrays of one shape are divided item by item. *)
Lemma broadcast_div_same n m A B :
  rows n m A -> rows n m B -> 0 < n -> broadcast_div A B = Ok (mdiv A B).
Proof.
  intros HA HB Hn. unfold broadcast_div.
  rewrite (np_shape_rows n m A HA Hn), (np_shape_rows n m B HB Hn). simpl.
  rewrite !broadcast_dim_same.
  by rewrite (broadcast_to_same n m A), (broadcast_to_same n m B).
Qed.

(** An [(n, d)] array and a [(d, d)] array with [n], [d] different and
    both above one cannot be broadcast. *)
Lemma broadcast_div_mismatch n d A B :
  rows n d A -> rows d d B -> 1 < n -> 1 < d -> n <> d ->
  broadcast_div A B
  = Raise (ValueError "operands could not be broadcast together").
Proof.
  intros HA HB Hn Hd Hne. unfold broadcast_div.
  rewrite (np_shape_rows n d A HA), (np_shape_rows d d B HB) by lia. simpl.
  by rewrite (broadcast_dim_mismatch n d).
Qed.
End ShapeFacts.

Section AnyShapeFacts.
Local Open Scope nat_scope.
Context {K : Type}.
Variable sla_eigs : list (list R) -> K -> list (list R) -> result eigs_t.

(** On a square input with at least one row nothing is broadcast: the
    solver receives the operands of [ml.diffusion_operator]. *)
Lemma diffusionMaps_square n D (k : K) epsi alpha :
  rows n n D -> 0 < n ->
  manifold_learning.diffusionMaps sla_eigs D k epsi alpha
  = sla_eigs (ml.diffusion_operator D epsi alpha).1 k
             (ml.diffusion_operator D epsi alpha).2.
Proof.
  intros HD Hn. pose proof (rows_gaussian n n epsi D HD) as HK.
  pose proof HD as [HD1 HD2]. pose proof HK as [HK1 HK2].
  unfold manifold_learning.diffusionMaps, ml.diffusion_operator. cbv zeta.
  unfold np_shape. cbn [fst snd].
  rewrite HD1, (np_ncols n n _ HK Hn).
  assert (broadcast_div (ml.gaussian epsi D)
            (np_outer ((fun s => float_power s alpha)
                         <$> sum_axis0 n (ml.gaussian epsi D))
                      ((fun s => float_power s alpha)
                         <$> sum_axis0 n (ml.gaussian epsi D)))
          = Ok (ml.density_normalize alpha (ml.gaussian epsi D))) as ->.
  { unfold ml.density_normalize. rewrite HK1.
    apply (broadcast_div_same n n); [done| |done].
    pose proof (rows_np_outer
      ((fun s => float_power s alpha) <$> sum_axis0 n (ml.gaussian epsi D))
      ((fun s => float_power s alpha) <$> sum_axis0 n (ml.gaussian epsi D)))
      as Ho.
    by rewrite length_fmap, sum_axis0_length in Ho. }
  pose proof (rows_density_normalize n alpha _ HK) as HK'.
  pose proof HK' as [HK'1 HK'2].
  rewrite (np_ncols n n _ HK' Hn).
  assert (broadcast_div (ml.density_normalize alpha (ml.gaussian epsi D))
            (np_tile (builtin_sum n
                        (ml.density_normalize alpha (ml.gaussian epsi D))) n)
          = Ok (ml.row_normalize
                  (ml.density_normalize alpha (ml.gaussian epsi D)))) as ->.
  { unfold ml.row_normalize. rewrite HK'1.
    apply (broadcast_div_same n n); [done| |done].
    pose proof (rows_np_tile
      (builtin_sum n (ml.density_normalize alpha (ml.gaussian epsi D))) n)
      as Ht.
    by rewrite builtin_sum_length in Ht. }
  pose proof (rows_row_normalize n _ HK') as HP.
  rewrite (np_ncols n n _ HP Hn).
  unfold ml.weight_matrix. by rewrite (proj1 HP).
Qed.

(** On an [(n, d)] input with [n], [d] different and both above one the
    division of line 42 cannot be broadcast, and the solver is not
    reached. *)
Lemma diffusionMaps_not_square n d X (k : K) epsi alpha :
  rows n d X -> 1 < n -> 1 < d -> n <> d ->
  manifold_learning.diffusionMaps sla_eigs X k epsi alpha
  = Raise (ValueError "operands could not be broadcast together").
Proof.
  intros HX Hn Hd Hne. pose proof (rows_gaussian n d epsi X HX) as HK.
  unfold manifold_learning.diffusionMaps. cbv zeta.
  unfold np_shape. cbn [fst snd].
  rewrite !(np_ncols n d _ HK) by lia.
  rewrite (broadcast_div_mismatch n d); [done|done| |done..].
  pose proof (rows_np_outer
    ((fun s => float_power s alpha) <$> sum_axis0 d (ml.gaussian epsi X))
    ((fun s => float_power s alpha) <$> sum_axis0 d (ml.gaussian epsi X)))
    as Ho.
  rewrite length_fmap, sum_axis0_length in Ho by apply HK. exact Ho.
Qed.
End AnyShapeFacts.

Section PermutationFacts.
Implicit Types (u v : list R).

Lemma Rsum_Permutation u v : u ≡ₚ v -> Rsum u = Rsum v.
Proof. unfold Rsum. induction 1; simpl; lra. Qed.

Lemma pair_sum_Permutation (k : list R -> list R -> R)
    (X X' Y Y' : list (list R)) :
  X ≡ₚ X' -> Y ≡ₚ Y' -> pair_sum k X Y = pair_sum k X' Y'.
Proof.
  intros HX HY. unfold pair_sum.
  rewrite (Rsum_fmap_ext _ (fun x => Rsum ((fun y => k x y) <$> Y')) X).
  - apply Rsum_Permutation. by apply fmap_Permutation.
  - intros x. apply Rsum_Permutation. by apply fmap_Permutation.
Qed.
End PermutationFacts.

Section BuilderShapes.
Variable evaluate : list (list R) -> list (list R) -> list (list R).

Lemma rows_burst_distMat (X : ndarray3) :
  rows (shape0 X) (shape0 X)
       (KernelBurstTransitionManifold.distMat evaluate X).
Proof.
  unfold KernelBurstTransitionManifold.distMat,
    KernelBurstTransitionManifold.lower_triangle. cbv zeta.
  apply rows_madd; [|apply rows_np_transpose]; apply rows_fill, rows_np_zeros.
Qed.

Lemma rows_traj_distMat (n : nat) (pcs : list (list (list R))) :
  rows n n (KernelTrajTransitionManifold.distMat evaluate n pcs).
Proof.
  unfold KernelTrajTransitionManifold.distMat,
    KernelTrajTransitionManifold.lower_triangle. cbv zeta.
  apply rows_madd; [|apply rows_np_transpose]; apply rows_fill, rows_np_zeros.
Qed.
End BuilderShapes.

Lemma burst_value_Permutation (k : list R -> list R -> R) (X X' : ndarray3) a b :
  shape1 X' = shape1 X ->
  cloud_of X' a ≡ₚ cloud_of X a -> cloud_of X' b ≡ₚ cloud_of X b ->
  burst_value (gram k) X' a b = burst_value (gram k) X a b.
Proof.
  intros HM Ha Hb. unfold burst_value. rewrite !np_sum_gram, HM.
  by rewrite (pair_sum_Permutation k _ _ _ _ Ha Ha),
             (pair_sum_Permutation k _ _ _ _ Hb Hb),
             (pair_sum_Permutation k _ _ _ _ Ha Hb).
Qed.

Lemma traj_value_Permutation (k : list R -> list R -> R)
    (pcs pcs' : list (list (list R))) a b :
  pcs' !!! a ≡ₚ pcs !!! a -> pcs' !!! b ≡ₚ pcs !!! b ->
  traj_value (gram k) pcs' a b = traj_value (gram k) pcs a b.
Proof.
  intros Ha Hb. unfold traj_value. rewrite !np_sum_gram.
  rewrite (pair_sum_Permutation k _ _ _ _ Ha Ha),
          (pair_sum_Permutation k _ _ _ _ Hb Hb),
          (pair_sum_Permutation k _ _ _ _ Ha Hb).
  by rewrite (Permutation_length Ha), (Permutation_length Hb).
Qed.

(** X1.  The order of the samples within a cloud does not matter to the
    kernel builders: two ensembles of one shape whose clouds agree up to
    a reordering of their samples give the same matrix in
    [KernelBurstTransitionManifold.fit], and two lists of clouds that
    agree cloud by cloud up to reordering give the same matrix in
    [KernelTrajTransitionManifold.computeRC]. *)
Theorem kernel_distances_ignore_sample_order
    (k : list R -> list R -> R) (X X' : ndarray3)
    (pcs pcs' : list (list (list R))) :
  wf3 X -> wf3 X' -> shape0 X' = shape0 X -> shape1 X' = shape1 X ->
  (forall i, (i < shape0 X)%nat -> cloud_of X' i ≡ₚ cloud_of X i) ->
  length pcs' = length pcs ->
  (forall i, (i < length pcs)%nat -> pcs' !!! i ≡ₚ pcs !!! i) ->
  KernelBurstTransitionManifold.distMat (gram k) X'
  = KernelBurstTransitionManifold.distMat (gram k) X /\
  KernelTrajTransitionManifold.distMat (gram k) (length pcs') pcs'
  = KernelTrajTransitionManifold.distMat (gram k) (length pcs) pcs.
Proof.
  intros HX HX' Hn HM Hperm Hlen Hperm'. split.
  - apply (matrix_ext (shape0 X) (shape0 X)).
    + rewrite <- Hn. apply rows_burst_distMat.
    + apply rows_burst_distMat.
    + intros i j Hi Hj.
      rewrite !burst_distMat_items by (done || lia).
      repeat case_decide; try done;
        apply burst_value_Permutation; auto.
  - rewrite Hlen. apply (matrix_ext (length pcs) (length pcs)).
    + apply rows_traj_distMat.
    + apply rows_traj_distMat.
    + intros i j Hi Hj.
      rewrite !traj_distMat_items by done.
      repeat case_decide; try done;
        apply traj_value_Permutation; auto.
Qed.

Lemma kernel_distances_ignore_sample_order_witness :
  KernelBurstTransitionManifold.distMat (gram product_kernel)
    ensemble_2x3_reordered
  = KernelBurstTransitionManifold.distMat (gram product_kernel) ensemble_2x3.
Proof.
  refine (proj1 (kernel_distances_ignore_sample_order product_kernel
                   ensemble_2x3 ensemble_2x3_reordered
                   [[[1]; [2]]] [[[2]; [1]]] _ _ _ _ _ _ _)).
  - split; [reflexivity|]. repeat constructor.
  - split; [reflexivity|]. repeat constructor.
  - reflexivity.
  - reflexivity.
  - intros [|[|i]] Hi; simpl in Hi; [| |lia]; unfold cloud_of; simpl.
    + apply (Permutation_cons_append [[1]; [2]] [3]).
    + symmetry. apply (Permutation_cons_append [[20]; [30]] [10]).
  - reflexivity.
  - intros [|i] Hi; simpl in Hi; [|lia]. simpl. apply perm_swap.
Defined.

(** ** Distances of identical clouds, and the sign of the distances *)

Section QuadraticForm.
Variable k : list R -> list R -> R.

Lemma cross_form_app_l u1 u2 v :
  cross_form k (u1 ++ u2) v = cross_form k u1 v + cross_form k u2 v.
Proof. unfold cross_form. by rewrite fmap_app, Rsum_app. Qed.

Lemma cross_form_app_r u v1 v2 :
  cross_form k u (v1 ++ v2) = cross_form k u v1 + cross_form k u v2.
Proof.
  unfold cross_form.
  rewrite <- (Rsum_fmap_plus
                (fun a => Rsum ((fun b => a.1 * b.1 * k a.2 b.2) <$> v1))
                (fun a => Rsum ((fun b => a.1 * b.1 * k a.2 b.2) <$> v2)) u).
  apply Rsum_fmap_ext. intros a. by rewrite fmap_app, Rsum_app.
Qed.

Lemma Rsum_fmap_scale_l {T : Type} (f : T -> R) (c : R) (l : list T) :
  Rsum ((fun x => c * f x) <$> l) = c * Rsum (f <$> l).
Proof.
  unfold Rsum. induction l as [|x l IH]; csimpl; [lra|]. rewrite IH. lra.
Qed.

Lemma cross_form_weighted (c d : R) (X Y : list (list R)) :
  cross_form k ((fun x => (c, x)) <$> X) ((fun y => (d, y)) <$> Y)
  = c * d * pair_sum k X Y.
Proof.
  unfold cross_form, pair_sum. rewrite <- list_fmap_compose.
  rewrite <- Rsum_fmap_scale_l. apply Rsum_fmap_ext. intros x. simpl.
  rewrite <- list_fmap_compose. rewrite <- Rsum_fmap_scale_l.
  apply Rsum_fmap_ext. intros y. simpl. ring.
Qed.

(** The estimate of two non-empty clouds is the quadratic form of [k] on
    the points of both, weighted [1/|C_i|] and [-1/|C_j|]. *)
Lemma mmd_estimate_quadratic_form (Ci Cj : list (list R)) :
  (forall x y, k x y = k y x) -> Ci <> [] -> Cj <> [] ->
  mmd_estimate k Ci Cj
  = quadratic_form k (((fun x => (/ INR (length Ci), x)) <$> Ci)
                      ++ ((fun y => (- / INR (length Cj), y)) <$> Cj)).
Proof.
  intros Hk Hi Hj.
  unfold quadratic_form.
  rewrite cross_form_app_l, !cross_form_app_r, !cross_form_weighted.
  unfold mmd_estimate. rewrite (pair_sum_symmetric k Ci Cj Hk).
  assert (INR (length Ci) <> 0) as Hni.
  { apply not_0_INR. destruct Ci; [done|]. simpl. lia. }
  assert (INR (length Cj) <> 0) as Hnj.
  { apply not_0_INR. destruct Cj; [done|]. simpl. lia. }
  field. split; done.
Qed.
End QuadraticForm.

Lemma product_kernel_quadratic_form (wp : list (R * list R)) :
  quadratic_form product_kernel wp
  = Rsum ((fun a => a.1 * a.2 !!! O) <$> wp) ^ 2.
Proof.
  unfold quadratic_form, cross_form, product_kernel.
  rewrite (Rsum_fmap_ext _
             (fun a => (a.1 * a.2 !!! O)
                       * Rsum ((fun b => b.1 * b.2 !!! O) <$> wp)) wp).
  - rewrite Rsum_fmap_scale. ring.
  - intros a. rewrite <- Rsum_fmap_scale_l.
    apply Rsum_fmap_ext. intros b. ring.
Qed.

Lemma product_kernel_psd : positive_semidefinite product_kernel.
Proof.
  intros wp. rewrite product_kernel_quadratic_form. apply pow2_ge_0.
Qed.

Lemma cloud_of_nonempty (X : ndarray3) i :
  wf3 X -> (0 < shape1 X)%nat -> (i < shape0 X)%nat -> cloud_of X i <> [].
Proof.
  intros HX HM Hi.
  destruct (reshape_slice_is_cloud X i HX Hi) as [_ Hlen].
  destruct (cloud_of X i); [simpl in Hlen; lia|done].
Qed.

(** X2.  For a symmetric positive semidefinite kernel function and clouds
    that are not empty, no item of the matrices of the two kernel
    builders is negative, floats read as real numbers (rounding can
    leave an item of the order of the machine precision below zero). *)
Theorem kernel_distances_nonnegative
    (k : list R -> list R -> R) (X : ndarray3)
    (pcs : list (list (list R))) (i j : nat) :
  (forall x y, k x y = k y x) -> positive_semidefinite k ->
  wf3 X -> (0 < shape1 X)%nat -> (i < shape0 X)%nat -> (j < shape0 X)%nat ->
  (i < length pcs)%nat -> (j < length pcs)%nat ->
  pcs !!! i <> [] -> pcs !!! j <> [] ->
  0 <= getitem2 (KernelBurstTransitionManifold.distMat (gram k) X) i j /\
  0 <= getitem2 (KernelTrajTransitionManifold.distMat (gram k) (length pcs) pcs)
         i j.
Proof.
  intros Hk Hpsd HX HM Hi Hj Hi' Hj' Hci Hcj.
  pose proof (cloud_of_nonempty X i HX HM Hi) as Hbi.
  pose proof (cloud_of_nonempty X j HX HM Hj) as Hbj.
  destruct (lt_eq_lt_dec i j) as [[Hlt|Heq]|Hgt].
  - destruct (burst_lower_items k X j i HX Hj Hlt) as [_ ->].
    destruct (traj_lower_items k pcs j i Hj' Hlt) as [_ ->].
    rewrite !mmd_estimate_quadratic_form by done. split; apply Hpsd.
  - subst j. rewrite burst_distMat_items, traj_distMat_items by done.
    rewrite !decide_False by lia. lra.
  - destruct (burst_lower_items k X i j HX Hi Hgt) as [-> _].
    destruct (traj_lower_items k pcs i j Hi' Hgt) as [-> _].
    rewrite !mmd_estimate_quadratic_form by done. split; apply Hpsd.
Qed.

Lemma kernel_distances_nonnegative_witness :
  0 <= getitem2 (KernelBurstTransitionManifold.distMat (gram product_kernel)
                   ensemble_2x3) 0 1 /\
  0 <= getitem2 (KernelTrajTransitionManifold.distMat (gram product_kernel)
                   (length clouds_1_2) clouds_1_2) 0 1.
Proof.
  apply (kernel_distances_nonnegative product_kernel ensemble_2x3 clouds_1_2).
  - intros x y. unfold product_kernel. ring.
  - apply product_kernel_psd.
  - split; [reflexivity|]. repeat constructor.
  - simpl. lia.
  - simpl. lia.
  - simpl. lia.
  - simpl. lia.
  - simpl. lia.
  - discriminate.
  - discriminate.
Defined.

(** X3.  Two start points with the same cloud, when it is not empty, are
    at distance zero in both kernel builders, whatever the kernel object
    returns. *)
Theorem kernel_distance_of_equal_clouds_is_zero
    (evaluate : list (list R) -> list (list R) -> list (list R))
    (X : ndarray3) (pcs : list (list (list R))) (i j : nat) :
  wf3 X -> (0 < shape1 X)%nat -> (i < shape0 X)%nat -> (j < shape0 X)%nat ->
  cloud_of X i = cloud_of X j ->
  (i < length pcs)%nat -> (j < length pcs)%nat ->
  pcs !!! i <> [] -> pcs !!! i = pcs !!! j ->
  getitem2 (KernelBurstTransitionManifold.distMat evaluate X) i j = 0 /\
  getitem2 (KernelTrajTransitionManifold.distMat evaluate (length pcs) pcs) i j
  = 0.
Proof.
  intros HX _ Hi Hj Hc Hi' Hj' _ Hp. split.
  - rewrite burst_distMat_items by done. unfold burst_value. rewrite Hc.
    repeat case_decide; unfold Rdiv; ring.
  - rewrite traj_distMat_items by done. unfold traj_value. rewrite Hp.
    replace (length (pcs !!! j) ^ 2)%nat
      with (length (pcs !!! j) * length (pcs !!! j))%nat by (simpl; lia).
    repeat case_decide; unfold Rdiv; ring.
Qed.

Lemma kernel_distance_of_equal_clouds_is_zero_witness :
  getitem2 (KernelBurstTransitionManifold.distMat (gram first_coordinate)
              ensemble_twins) 0 2 = 0 /\
  getitem2 (KernelTrajTransitionManifold.distMat (gram first_coordinate)
              (length (items ensemble_twins)) (items ensemble_twins)) 0 2 = 0.
Proof.
  apply (kernel_distance_of_equal_clouds_is_zero (gram first_coordinate)
           ensemble_twins (items ensemble_twins) 0 2).
  - split; [reflexivity|]. repeat constructor.
  - simpl. lia.
  - simpl. lia.
  - simpl. lia.
  - reflexivity.
  - simpl. lia.
  - simpl. lia.
  - discriminate.
  - reflexivity.
Defined.

Section MarkovFacts.
Local Open Scope nat_scope.

Lemma Rsum_fmap_ge_term {T : Type} (f : T -> R) (l : list T) (x : T) :
  (forall y, y ∈ l -> (0 <= f y)%R) -> x ∈ l -> (f x <= Rsum (f <$> l))%R.
Proof.
  intros Hpos Hx. induction l as [|y l IH]; [by apply elem_of_nil in Hx|].
  change (Rsum (f <$> y :: l)) with (f y + Rsum (f <$> l))%R.
  assert (0 <= Rsum (f <$> l))%R as Hrest.
  { clear IH Hx. induction l as [|z l IH]; [unfold Rsum; simpl; lra|].
    change (Rsum (f <$> z :: l)) with (f z + Rsum (f <$> l))%R.
    assert (0 <= f z)%R
      by (apply Hpos, list_elem_of_further, list_elem_of_here).
    assert (0 <= Rsum (f <$> l))%R.
    { apply IH. intros w Hw. apply Hpos.
      apply elem_of_cons in Hw as [->|Hw];
        [apply list_elem_of_here | by do 2 apply list_elem_of_further]. }
    lra. }
  apply elem_of_cons in Hx as [->|Hx]; [lra|].
  assert (0 <= f y)%R by apply Hpos, list_elem_of_here.
  assert (f x <= Rsum (f <$> l))%R.
  { apply IH; [|done]. intros w Hw. by apply Hpos, list_elem_of_further. }
  lra.
Qed.

Lemma Rsum_fmap_const {T : Type} (c : R) (l : list T) :
  Rsum ((fun _ => c) <$> l) = (INR (length l) * c)%R.
Proof.
  induction l as [|x l IH]; [unfold Rsum; simpl; lra|].
  change (Rsum ((fun _ => c) <$> x :: l)) with (c + Rsum ((fun _ => c) <$> l))%R.
  rewrite IH. change (length (x :: l)) with (S (length l)).
  rewrite S_INR. lra.
Qed.

Lemma rows_diffusion_operator n D epsi alpha :
  rows n n D ->
  rows n n (ml.diffusion_operator D epsi alpha).1.
Proof.
  intros HD. unfold ml.diffusion_operator. cbv zeta. simpl.
  by apply rows_row_normalize, rows_density_normalize, rows_gaussian.
Qed.

Lemma operator_items_le_1 n D epsi alpha i j :
  rows n n D -> i < n -> j < n ->
  (getitem2 (ml.diffusion_operator D epsi alpha).1 i j <= 1)%R.
Proof.
  intros HD Hi Hj.
  rewrite <- (operator_columns_sum_to_one n D epsi alpha j HD Hj).
  unfold col_sum.
  apply (Rsum_fmap_ge_term
           (fun i => getitem2 (ml.diffusion_operator D epsi alpha).1 i j)).
  - intros a Ha. apply elem_of_seq in Ha. apply Rlt_le.
    apply (operator_items_pos n); (done || lia).
  - apply elem_of_seq. lia.
Qed.

(** The density-compensated kernel matrix of a symmetric input is
    symmetric. *)
Lemma density_normalize_symmetric n D epsi alpha i j :
  rows n n D -> i < n -> j < n ->
  (forall a b, a < n -> b < n -> getitem2 D a b = getitem2 D b a) ->
  getitem2 (ml.density_normalize alpha (ml.gaussian epsi D)) i j
  = getitem2 (ml.density_normalize alpha (ml.gaussian epsi D)) j i.
Proof.
  intros HD Hi Hj Hsym.
  rewrite !(getitem2_density_normalize n) by (try apply rows_gaussian; done).
  rewrite !(getitem2_gaussian n n) by done.
  rewrite (Hsym i j) by done.
  by rewrite (Rmult_comm (float_power (col_sum n (ml.gaussian epsi D) i) alpha)).
Qed.

Lemma density_normalize_col_sum_pos n D epsi alpha j :
  rows n n D -> j < n ->
  (0 < col_sum n (ml.density_normalize alpha (ml.gaussian epsi D)) j)%R.
Proof.
  intros HD Hj. apply col_sum_pos; [lia|].
  intros i Hi. by apply (density_normalized_gaussian_pos n).
Qed.

(** An item of the operator times the sum of its column gives back the
    item of the density-compensated matrix. *)
Lemma operator_times_col_sum n D epsi alpha i j :
  rows n n D -> i < n -> j < n ->
  (getitem2 (ml.diffusion_operator D epsi alpha).1 i j
   * col_sum n (ml.density_normalize alpha (ml.gaussian epsi D)) j
   = getitem2 (ml.density_normalize alpha (ml.gaussian epsi D)) i j)%R.
Proof.
  intros HD Hi Hj. unfold ml.diffusion_operator. cbv zeta. simpl.
  rewrite (getitem2_row_normalize n)
    by (try apply rows_density_normalize, rows_gaussian; done).
  pose proof (density_normalize_col_sum_pos n D epsi alpha j HD Hj) as Hpos.
  field. lra.
Qed.
End MarkovFacts.

(** X4.  For every square input with at least one row, every [epsi]
    other than zero and every [alpha], the matrix that [diffusionMaps]
    hands to the solver has the shape of the input and, floats read as
    real numbers, items in the interval [(0, 1]] (in [float64] the
    exponential of line 38 underflows to zero for large distances). *)
Theorem diffusion_operator_items_are_probabilities
    (distMat : list (list R)) (n : nat) (epsi alpha : R) (i j : nat) :
  rows n n distMat -> epsi <> 0 -> (i < n)%nat -> (j < n)%nat ->
  let P := (ml.diffusion_operator distMat epsi alpha).1 in
  rows n n P /\ 0 < getitem2 P i j <= 1.
Proof.
  intros HD _ Hi Hj. cbv zeta. split; [by apply rows_diffusion_operator|]. split.
  - by apply (operator_items_pos n).
  - by apply (operator_items_le_1 n).
Qed.

Lemma diffusion_operator_items_are_probabilities_witness :
  0 < getitem2 (ml.diffusion_operator dist_coincident_3 1 (1/2)).1 0 2 <= 1.
Proof.
  refine (proj2 (diffusion_operator_items_are_probabilities
                   dist_coincident_3 3 1 (1/2) 0 2 _ _ _ _)).
  - split; [reflexivity | repeat constructor].
  - lra.
  - lia.
  - lia.
Defined.

(** X5.  For a symmetric input and [epsi] other than zero the operator is
    reversible with respect to the column sums [q] of the
    density-compensated matrix [K']: [K'] is symmetric,
    [P[i,j] * q[j] = P[j,i] * q[i]], and [q] is a fixed vector of [P],
    [sum_j P[i,j] * q[j] = q[i]]. *)
Theorem diffusion_operator_reversible
    (distMat : list (list R)) (n : nat) (epsi alpha : R) (i j : nat) :
  rows n n distMat -> epsi <> 0 -> (i < n)%nat -> (j < n)%nat ->
  (forall a b, (a < n)%nat -> (b < n)%nat ->
               getitem2 distMat a b = getitem2 distMat b a) ->
  let K' := ml.density_normalize alpha (ml.gaussian epsi distMat) in
  let P := (ml.diffusion_operator distMat epsi alpha).1 in
  let q := col_sum n K' in
  getitem2 K' i j = getitem2 K' j i /\
  getitem2 P i j * q j = getitem2 P j i * q i /\
  Rsum ((fun l => getitem2 P i l * q l) <$> seq 0 n) = q i.
Proof.
  intros HD _ Hi Hj Hsym. cbv zeta.
  split; [by apply (density_normalize_symmetric n)|]. split.
  - rewrite !(operator_times_col_sum n) by done.
    by apply (density_normalize_symmetric n).
  - unfold col_sum at 2. apply Rsum_fmap_ext_in. intros l Hl.
    apply elem_of_seq in Hl.
    rewrite (operator_times_col_sum n) by (done || lia).
    apply (density_normalize_symmetric n); (done || lia).
Qed.

Lemma diffusion_operator_reversible_witness :
  getitem2 (ml.diffusion_operator dist_coincident_3 1 (1/2)).1 0 2
  * col_sum 3 (ml.density_normalize (1/2) (ml.gaussian 1 dist_coincident_3)) 2
  = getitem2 (ml.diffusion_operator dist_coincident_3 1 (1/2)).1 2 0
    * col_sum 3 (ml.density_normalize (1/2) (ml.gaussian 1 dist_coincident_3)) 0.
Proof.
  refine (proj1 (proj2 (diffusion_operator_reversible
                          dist_coincident_3 3 1 (1/2) 0 2 _ _ _ _ _))).
  - split; [reflexivity | repeat constructor].
  - lra.
  - lia.
  - lia.
  - apply dist_coincident_3_symmetric.
Defined.

Section AlphaZero.
Local Open Scope nat_scope.

Lemma density_normalize_alpha_0 n K :
  rows n n K -> ml.density_normalize 0 K = K.
Proof.
  intros HK. apply (matrix_ext n n); [by apply rows_density_normalize|done|].
  intros i j Hi Hj. rewrite (getitem2_density_normalize n) by done.
  unfold float_power, Rpower. rewrite !Rmult_0_l, exp_0. field.
Qed.
End AlphaZero.

(** X6.  With [alpha = 0] (and [epsi] other than zero) the density
    compensation of lines 39 to 42 has no effect: the solver receives
    the Gaussian kernel matrix with every item divided by the sum of its
    column,
    [P[i,j] = exp(-M[i,j]^2/epsi) / sum_l exp(-M[l,j]^2/epsi)]. *)
Theorem diffusionMaps_alpha_0
    (sla_eigs : list (list R) -> nat -> list (list R) -> result eigs_t)
    (distMat : list (list R)) (n n_components : nat) (epsi : R) (i j : nat) :
  rows n n distMat -> epsi <> 0 -> (i < n)%nat -> (j < n)%nat ->
  let K := ml.gaussian epsi distMat in
  ml.density_normalize 0 K = K /\
  ml.diffusionMaps sla_eigs distMat n_components epsi 0
  = sla_eigs (ml.row_normalize K) n_components
             (ml.weight_matrix (ml.row_normalize K)) /\
  getitem2 (ml.row_normalize K) i j
  = exp (- (getitem2 distMat i j ^ 2) / epsi)
    / Rsum ((fun l => exp (- (getitem2 distMat l j ^ 2) / epsi)) <$> seq 0 n).
Proof.
  intros HD _ Hi Hj. cbv zeta.
  pose proof (rows_gaussian n n epsi distMat HD) as HK.
  pose proof (density_normalize_alpha_0 n _ HK) as H0.
  split; [exact H0|]. split.
  - unfold ml.diffusionMaps, ml.diffusion_operator. cbv zeta. by rewrite H0.
  - rewrite (getitem2_row_normalize n) by done.
    rewrite (getitem2_gaussian n n) by done. f_equal.
    unfold col_sum. apply Rsum_fmap_ext_in. intros l Hl.
    apply elem_of_seq in Hl. rewrite (getitem2_gaussian n n) by (done || lia).
    done.
Qed.

Lemma diffusionMaps_alpha_0_witness :
  ml.diffusionMaps fixed_eigs dist_coincident_3 10 1 0
  = fixed_eigs (ml.row_normalize (ml.gaussian 1 dist_coincident_3)) 10
      (ml.weight_matrix (ml.row_normalize (ml.gaussian 1 dist_coincident_3))).
Proof.
  refine (proj1 (proj2 (diffusionMaps_alpha_0 fixed_eigs
                          dist_coincident_3 3 10 1 0 2 _ _ _ _))).
  - split; [reflexivity | repeat constructor].
  - lra.
  - lia.
  - lia.
Defined.

(** X7.  When all pairwise distances are equal (in particular when all
    start points coincide and the distance matrix is zero), every item of
    the matrix handed to the solver is [1/n], for every [epsi] other
    than zero and every [alpha]. *)
Theorem diffusion_operator_of_constant_distances
    (distMat : list (list R)) (n : nat) (d epsi alpha : R) (i j : nat) :
  rows n n distMat -> epsi <> 0 -> (i < n)%nat -> (j < n)%nat ->
  (forall a b, (a < n)%nat -> (b < n)%nat -> getitem2 distMat a b = d) ->
  getitem2 (ml.diffusion_operator distMat epsi alpha).1 i j = 1 / INR n.
Proof.
  intros HD _ Hi Hj Hconst.
  pose proof (rows_gaussian n n epsi distMat HD) as HK.
  assert (forall a b, (a < n)%nat -> (b < n)%nat ->
            getitem2 (ml.gaussian epsi distMat) a b = exp (- (d ^ 2) / epsi))
    as HKc.
  { intros a b Ha Hb. rewrite (getitem2_gaussian n n) by done.
    by rewrite Hconst. }
  assert (forall b, (b < n)%nat ->
            col_sum n (ml.gaussian epsi distMat) b
            = INR n * exp (- (d ^ 2) / epsi)) as Hcs.
  { intros b Hb. unfold col_sum.
    rewrite (Rsum_fmap_ext_in _ (fun _ => exp (- (d ^ 2) / epsi))).
    - by rewrite Rsum_fmap_const, length_seq.
    - intros a Ha. apply elem_of_seq in Ha. apply HKc; (done || lia). }
  set (w := float_power (INR n * exp (- (d ^ 2) / epsi)) alpha).
  assert (0 < w) as Hw by apply float_power_pos.
  assert (forall a b, (a < n)%nat -> (b < n)%nat ->
            getitem2 (ml.density_normalize alpha (ml.gaussian epsi distMat)) a b
            = exp (- (d ^ 2) / epsi) / (w * w)) as HK'c.
  { intros a b Ha Hb. rewrite (getitem2_density_normalize n) by done.
    by rewrite HKc, !Hcs by done. }
  unfold ml.diffusion_operator. cbv zeta. simpl.
  rewrite (getitem2_row_normalize n)
    by (try apply rows_density_normalize; done).
  rewrite HK'c by done. unfold col_sum.
  rewrite (Rsum_fmap_ext_in _ (fun _ => exp (- (d ^ 2) / epsi) / (w * w))).
  - rewrite Rsum_fmap_const, length_seq.
    pose proof (exp_pos (- (d ^ 2) / epsi)) as He.
    assert (0 < INR n) as Hn by (apply lt_0_INR; lia).
    field. repeat split; lra.
  - intros a Ha. apply elem_of_seq in Ha. apply HK'c; (done || lia).
Qed.

Lemma diffusion_operator_of_constant_distances_witness :
  getitem2 (ml.diffusion_operator dist_coincident_2 1 (1/2)).1 0 1 = 1 / INR 2.
Proof.
  apply (diffusion_operator_of_constant_distances dist_coincident_2 2 0).
  - split; [reflexivity | repeat constructor].
  - lra.
  - lia.
  - lia.
  - intros [|[|a]] [|[|b]] Ha Hb; try lia; reflexivity.
Defined.



(** ** [_reshape]: shape and content *)

Section ReshapeContent.
Context {A : Type}.
Local Open Scope nat_scope.
Implicit Types (X : list (list A)).

Lemma concat_zip_with_cons (hs : list A) X :
  length hs = length X -> concat (zip_with cons hs X) ≡ₚ hs ++ concat X.
Proof.
  revert X. induction hs as [|h hs IH]; intros [|r X] Hlen; simpl in *;
    try discriminate; [done|].
  constructor. rewrite IH by lia. apply Permutation_app_swap_app.
Qed.

Lemma concat_empty_rows X : Forall (fun r => length r = 0) X -> concat X = [].
Proof.
  induction 1 as [|r X Hr _ IH]; [done|]. simpl. rewrite IH.
  by destruct r.
Qed.

(** Exchanging the two leading axes before flattening permutes the
    rows. *)
Lemma concat_transpose_Permutation m X :
  Forall (fun r => length r = m) X -> concat (transpose m X) ≡ₚ concat X.
Proof.
  revert X. induction m as [|m IH]; intros X Hall.
  - pose proof (transpose_length 0 X) as Hlen.
    destruct (transpose 0 X); [|simpl in Hlen; lia].
    rewrite (concat_empty_rows X) by done. done.
  - destruct (rows_split_column m X Hall) as (hs & X' & -> & Hh & HX & Hall').
    rewrite transpose_cons_column by lia. simpl.
    rewrite IH by done. symmetry. apply concat_zip_with_cons. lia.
Qed.
End ReshapeContent.

(** X9.  [_reshape] of a well-shaped ensemble of shape [(n, M, dim)] has
    [n * M] rows of [dim] items, and these rows are the samples of the
    ensemble, each as often as it occurs there: the result is a
    permutation of the C-order flattening [X.reshape(n * M, dim)] that
    [LinearRandomFeatureManifold.fit] uses. *)
Theorem reshape_keeps_every_sample (X : ndarray3) :
  wf3 X ->
  rows (shape0 X * shape1 X) (shape2 X) (_reshape X) /\
  _reshape X ≡ₚ reshape_flat X.
Proof.
  intros [Hn Hall].
  assert (Forall (fun r : list (list R) => length r = shape1 X) (items X))
    as HM.
  { eapply Forall_impl; [exact Hall|]. by intros ? [? _]. }
  assert (_reshape X ≡ₚ reshape_flat X) as Hperm.
  { unfold _reshape, reshape_flat. cbv zeta.
    by apply concat_transpose_Permutation. }
  split; [|exact Hperm]. split.
  - rewrite Hperm. unfold reshape_flat.
    by rewrite (length_concat_uniform (shape1 X)), Hn.
  - rewrite Hperm. unfold reshape_flat. apply Forall_concat.
    eapply Forall_impl; [exact Hall|]. by intros ? [_ ?].
Qed.

Lemma reshape_keeps_every_sample_witness :
  _reshape ensemble_2x3 ≡ₚ reshape_flat ensemble_2x3.
Proof.
  refine (proj2 (reshape_keeps_every_sample ensemble_2x3 _)).
  split; [reflexivity|]. repeat constructor.
Defined.

(** ** The loops of the builders *)

Section LoopCounts.
Local Open Scope nat_scope.

Lemma range2_S n inner :
  range2 (S n) inner = range2 n inner ++ ((fun j => (n, j)) <$> seq 0 (inner n)).
Proof.
  unfold range2. rewrite seq_S, bind_app. simpl. by rewrite app_nil_r.
Qed.

Lemma length_range2_square n m :
  length (range2 n (fun _ => m)) = n * m.
Proof.
  induction n as [|n IH]; [done|].
  rewrite range2_S, length_app, IH, length_fmap, length_seq. lia.
Qed.

Lemma length_range2_triangle n :
  2 * length (range2 n (fun i => i)) = n * (n - 1).
Proof.
  induction n as [|n IH]; [done|].
  rewrite range2_S, length_app, length_fmap, length_seq. nia.
Qed.
End LoopCounts.

(** X10.  The loops of the two kernel builders run their body
    [n * (n - 1) / 2] times for [n] start points, the loops of
    [L2BurstTransitionManifold.fit] run theirs (one quadrature each)
    [n * n] times. *)
Theorem builder_loop_counts (n : nat) :
  (2 * length (KernelBurstTransitionManifold.loop_indices n) = n * (n - 1))%nat /\
  (2 * length (KernelTrajTransitionManifold.loop_indices n) = n * (n - 1))%nat /\
  length (L2BurstTransitionManifold.loop_indices n) = (n * n)%nat.
Proof.
  split; [apply length_range2_triangle|].
  split; [apply length_range2_triangle|].
  apply length_range2_square.
Qed.

(** ** Matrix products *)

Section MatmulFacts.
Local Open Scope nat_scope.
Implicit Types (X Y A : list (list R)).

Lemma rows_matmul n d m X A :
  rows n d X -> rows d m A -> rows n m (matmul m X A).
Proof.
  intros [Hn _] [Hd Hall]. unfold matmul. split.
  - by rewrite length_fmap.
  - apply Forall_fmap, Forall_forall. intros r _. simpl.
    rewrite length_fmap. by apply (rows_transpose d m A).
Qed.

Lemma getitem2_matmul n d m X A i b :
  rows n d X -> rows d m A -> i < n -> b < m ->
  getitem2 (matmul m X A) i b
  = Rsum ((fun a => getitem2 X i a * getitem2 A a b)%R <$> seq 0 d).
Proof.
  intros HX HA Hi Hb.
  destruct (rows_lookup n d X i HX Hi) as (r & Hr & Hrl).
  pose proof (transpose_row d m A b HA Hb) as Hcol.
  rewrite <- (dot_fmap (fun a => getitem2 X i a) (fun a => getitem2 A a b)).
  eapply getitem2_lookup; unfold matmul.
  - by rewrite list_lookup_fmap, Hr.
  - rewrite list_lookup_fmap, Hcol. simpl. do 2 f_equal.
    apply list_eq. intros a. rewrite list_lookup_fmap.
    destruct (decide (a < d)) as [Ha|Ha].
    + rewrite lookup_seq_lt by done. simpl. unfold getitem2.
      rewrite (list_lookup_total_correct _ _ _ Hr).
      apply list_lookup_lookup_total_lt. lia.
    + rewrite lookup_seq_ge by lia. simpl. apply lookup_ge_None. lia.
Qed.

Lemma rows_mscale n m c X : rows n m X -> rows n m (mscale c X).
Proof.
  intros [Hn Hall]. unfold mscale. split; [by rewrite length_fmap|].
  apply Forall_fmap. eapply Forall_impl; [exact Hall|].
  intros r Hr. simpl. by rewrite length_fmap.
Qed.

Lemma getitem2_mscale n m c X i j :
  rows n m X -> i < n -> j < m ->
  getitem2 (mscale c X) i j = (c * getitem2 X i j)%R.
Proof.
  intros HX Hi Hj.
  destruct (rows_lookup n m X i HX Hi) as (r & Hr & Hrl).
  destruct (lookup_lt_is_Some_2 r j) as [x Hx]; [lia|].
  rewrite (getitem2_lookup _ _ _ _ _ Hr Hx).
  eapply getitem2_lookup; unfold mscale.
  - by rewrite list_lookup_fmap, Hr.
  - by rewrite list_lookup_fmap, Hx.
Qed.
End MatmulFacts.

(** X11.  [RandomLinearEmbeddingFunction.evaluate] is a linear map on
    arrays of points: for a coefficient matrix of shape
    [(inputdimension, outputdimension)] and inputs with [inputdimension]
    columns, the result has one row of [outputdimension] items per input
    row, and [evaluate(x + y) = evaluate(x) + evaluate(y)],
    [evaluate(c * x) = c * evaluate(x)]. *)
Theorem evaluate_is_linear
    (f : RandomLinearEmbeddingFunction.t) (n : nat)
    (x y : list (list R)) (c : R) :
  rows (RandomLinearEmbeddingFunction.inputdimension f)
       (RandomLinearEmbeddingFunction.outputdimension f)
       (RandomLinearEmbeddingFunction.A f) ->
  rows n (RandomLinearEmbeddingFunction.inputdimension f) x ->
  rows n (RandomLinearEmbeddingFunction.inputdimension f) y ->
  rows n (RandomLinearEmbeddingFunction.outputdimension f)
       (RandomLinearEmbeddingFunction.evaluate f x) /\
  RandomLinearEmbeddingFunction.evaluate f (madd x y)
  = madd (RandomLinearEmbeddingFunction.evaluate f x)
         (RandomLinearEmbeddingFunction.evaluate f y) /\
  RandomLinearEmbeddingFunction.evaluate f (mscale c x)
  = mscale c (RandomLinearEmbeddingFunction.evaluate f x).
Proof.
  intros HA Hx Hy. unfold RandomLinearEmbeddingFunction.evaluate.
  set (d := RandomLinearEmbeddingFunction.inputdimension f) in *.
  set (m := RandomLinearEmbeddingFunction.outputdimension f) in *.
  set (A := RandomLinearEmbeddingFunction.A f) in *.
  pose proof (rows_matmul n d m x A Hx HA) as Hfx.
  pose proof (rows_matmul n d m y A Hy HA) as Hfy.
  pose proof (rows_madd n d x y Hx Hy) as Hxy.
  pose proof (rows_mscale n d c x Hx) as Hcx.
  split; [exact Hfx|]. split.
  - apply (matrix_ext n m);
      [by apply (rows_matmul n d) | by apply rows_madd |].
    intros i b Hi Hb.
    rewrite (getitem2_madd n m), !(getitem2_matmul n d m) by done.
    rewrite <- Rsum_fmap_plus. apply Rsum_fmap_ext_in. intros a Ha.
    apply elem_of_seq in Ha.
    rewrite (getitem2_madd n d) by (done || lia). ring.
  - apply (matrix_ext n m);
      [by apply (rows_matmul n d) | by apply rows_mscale |].
    intros i b Hi Hb.
    rewrite (getitem2_mscale n m), !(getitem2_matmul n d m) by done.
    rewrite <- Rsum_fmap_scale_l. apply Rsum_fmap_ext_in. intros a Ha.
    apply elem_of_seq in Ha.
    rewrite (getitem2_mscale n d) by (done || lia). ring.
Qed.

Lemma evaluate_is_linear_witness :
  RandomLinearEmbeddingFunction.evaluate embedding_2_1
    (madd [[1; 2]] [[3; 4]])
  = madd (RandomLinearEmbeddingFunction.evaluate embedding_2_1 [[1; 2]])
         (RandomLinearEmbeddingFunction.evaluate embedding_2_1 [[3; 4]]).
Proof.
  refine (proj1 (proj2 (evaluate_is_linear embedding_2_1 1
                          [[1; 2]] [[3; 4]] 1 _ _ _))).
  - split; [reflexivity | repeat constructor].
  - split; [reflexivity | repeat constructor].
  - split; [reflexivity | repeat constructor].
Defined.

(** ** [L2distance] of [manifold_learning.py] *)

(** X12.  The module-level [L2distance(system, cloud1, cloud2, rho, epsi)]
    computes what the method [L2BurstTransitionManifold.L2distance] of an
    instance with the same [rho], the domain [system.domain] and
    [kde_epsi = epsi] computes (its [epsi] is the bandwidth of the
    density estimate); for a quadrature that depends on the values of
    its integrand only it is symmetric in the two clouds. *)
Theorem L2distance_agrees_with_method
    (score_samples : R -> list (list R) -> list R -> R)
    (dblquad : (R -> R -> R) -> R -> R -> R -> R -> R * R)
    (System : Type) (domain : System -> list (list R)) (system : System)
    (self : L2BurstTransitionManifold.t) (cloud1 cloud2 : list (list R)) :
  domain system = L2BurstTransitionManifold.domain self ->
  manifold_learning.L2distance score_samples dblquad domain system
    cloud1 cloud2 (L2BurstTransitionManifold.rho self)
    (L2BurstTransitionManifold.kde_epsi self)
  = L2BurstTransitionManifold.L2distance score_samples dblquad self
      cloud1 cloud2 /\
  ((forall f g a b c d, (forall x y, f x y = g x y) ->
                        dblquad f a b c d = dblquad g a b c d) ->
   manifold_learning.L2distance score_samples dblquad domain system
     cloud1 cloud2 (L2BurstTransitionManifold.rho self)
     (L2BurstTransitionManifold.kde_epsi self)
   = manifold_learning.L2distance score_samples dblquad domain system
       cloud2 cloud1 (L2BurstTransitionManifold.rho self)
       (L2BurstTransitionManifold.kde_epsi self)).
Proof.
  intros Hdom. split.
  - unfold manifold_learning.L2distance, L2BurstTransitionManifold.L2distance.
    by rewrite Hdom.
  - intros Hext. unfold manifold_learning.L2distance.
    apply Hext. intros x y. unfold Rdiv. ring.
Qed.

Lemma L2distance_agrees_with_method_witness :
  manifold_learning.L2distance flat_score midpoint_rule
    (fun _ : unit => [[0; 0]; [1; 1]]) tt [[1; 2]] [[3; 4]]
    (L2BurstTransitionManifold.rho unit_square_instance)
    (L2BurstTransitionManifold.kde_epsi unit_square_instance)
  = L2BurstTransitionManifold.L2distance flat_score midpoint_rule
      unit_square_instance [[1; 2]] [[3; 4]].
Proof.
  refine (proj1 (L2distance_agrees_with_method flat_score midpoint_rule unit
                   (fun _ : unit => [[0; 0]; [1; 1]]) tt unit_square_instance
                   [[1; 2]] [[3; 4]] _)).
  reflexivity.
Defined.

(** ** [KernelTrajTransitionManifold.computeRC] *)

Section MaskFacts.
Context {A : Type}.

Lemma mask_select_sublist (mask : list bool) (l : list A) :
  mask_select mask l `sublist_of` l.
Proof.
  unfold mask_select. revert mask.
  induction l as [|x l IH]; intros [|b mask]; simpl;
    try apply sublist_nil_l.
  rewrite filter_cons. destruct b; simpl.
  - apply sublist_skip, IH.
  - apply sublist_cons, IH.
Qed.
End MaskFacts.

(** X13.  The clouds that [computeRC] extracts from the trajectory: there
    is one cloud per test point, and every cloud consists of trajectory
    points, in the order of the trajectory and none more often than it
    occurs there. *)
Theorem extract_pointclouds_are_subsequences
    (kdtree_query : list (list R) -> list (list R) -> list nat)
    (ndimage_shift : list bool -> Z -> list bool)
    (xtest traj : list (list R)) (lag : Z) :
  let pointclouds :=
    KernelTrajTransitionManifold.extract_pointclouds
      kdtree_query ndimage_shift xtest traj lag in
  length pointclouds = length xtest /\
  Forall (fun cloud => cloud `sublist_of` traj) pointclouds.
Proof.
  cbv zeta. split; [apply extract_pointclouds_length|].
  unfold KernelTrajTransitionManifold.extract_pointclouds. cbv zeta.
  rewrite (for_range_append (length xtest)
             (fun i => mask_select
                         (ndimage_shift
                            ((fun c => bool_decide (c = i))
                               <$> kdtree_query xtest traj) lag) traj)).
  apply Forall_fmap, Forall_forall. intros i _. simpl.
  apply mask_select_sublist.
Qed.

(** X14.  [KernelTrajTransitionManifold.computeRC] passes its test points
    to [diffusionMaps] in the place of the distance matrix (line 116).
    For [n] test points of dimension [d], with [n] and [d] different and
    both above one, the call fails in the division of line 42 with
    NumPy's broadcasting [ValueError]: [computeRC] raises it, whatever
    the kernel, the trajectory and the solver, and assigns neither [rc]
    nor [distMat]. *)
Theorem traj_computeRC_raises_on_test_points
    (evaluate : list (list R) -> list (list R) -> list (list R))
    (kdtree_query : list (list R) -> list (list R) -> list nat)
    (ndimage_shift : list bool -> Z -> list bool)
    (System : Type)
    (sla_eigs : list (list R) -> list (list R) -> list (list R)
                -> result eigs_t)
    (self : KernelTrajTransitionManifold.t System) (n d : nat) :
  rows n d (KernelTrajTransitionManifold.xtest self) ->
  (1 < n)%nat -> (1 < d)%nat -> n <> d ->
  KernelTrajTransitionManifold.computeRC evaluate kdtree_query ndimage_shift
    sla_eigs self
  = (self, Raise (ValueError "operands could not be broadcast together")).
Proof.
  intros HX Hn Hd Hne. unfold KernelTrajTransitionManifold.computeRC.
  cbv zeta. by rewrite (diffusionMaps_not_square sla_eigs n d).
Qed.

Lemma traj_computeRC_raises_on_test_points_witness :
  KernelTrajTransitionManifold.computeRC (gram product_kernel)
    nearest_is_first no_shift eigs_rejects_array traj_instance_3x2
  = (traj_instance_3x2,
     Raise (ValueError "operands could not be broadcast together")).
Proof.
  apply (traj_computeRC_raises_on_test_points (gram product_kernel)
           nearest_is_first no_shift unit eigs_rejects_array
           traj_instance_3x2 3 2).
  - split; [reflexivity | repeat constructor].
  - lia.
  - lia.
  - lia.
Defined.

(** X15.  When the test points happen to form a square array ([n] points
    of dimension [n]), every test point has a cloud that is not empty and
    [epsi] is not zero, line 116 reaches the solver: it is given the
    operator computed from the coordinates of the test points, not from
    the assembled matrix, and the assembled matrix in the place of the
    number of components. *)
Theorem traj_computeRC_operator_of_test_points
    (evaluate : list (list R) -> list (list R) -> list (list R))
    (kdtree_query : list (list R) -> list (list R) -> list nat)
    (ndimage_shift : list bool -> Z -> list bool)
    (System : Type)
    (sla_eigs : list (list R) -> list (list R) -> list (list R)
                -> result eigs_t)
    (self : KernelTrajTransitionManifold.t System) (n : nat) :
  rows n n (KernelTrajTransitionManifold.xtest self) -> (0 < n)%nat ->
  KernelTrajTransitionManifold.epsi self <> 0 ->
  Forall (fun cloud => cloud <> [])
    (KernelTrajTransitionManifold.extract_pointclouds kdtree_query
       ndimage_shift
       (KernelTrajTransitionManifold.xtest self)
       (KernelTrajTransitionManifold.traj self)
       (KernelTrajTransitionManifold.lag self)) ->
  let D := KernelTrajTransitionManifold.computeRC_distMat evaluate
             kdtree_query ndimage_shift
             (KernelTrajTransitionManifold.xtest self)
             (KernelTrajTransitionManifold.traj self)
             (KernelTrajTransitionManifold.lag self) in
  let op := ml.diffusion_operator
              (KernelTrajTransitionManifold.xtest self)
              (KernelTrajTransitionManifold.epsi self) (1/2) in
  KernelTrajTransitionManifold.computeRC evaluate kdtree_query ndimage_shift
    sla_eigs self
  = match sla_eigs op.1 D op.2 with
    | Ok eigs =>
        (KernelTrajTransitionManifold.Build
           (KernelTrajTransitionManifold.system self)
           (KernelTrajTransitionManifold.xtest self)
           (KernelTrajTransitionManifold.traj self)
           (KernelTrajTransitionManifold.lag self)
           (KernelTrajTransitionManifold.epsi self)
           (Some eigs) (Some D), Ok tt)
    | Raise e => (self, Raise e)
    end.
Proof.
  intros HX Hn _ _. cbv zeta. unfold KernelTrajTransitionManifold.computeRC.
  cbv zeta. rewrite (diffusionMaps_square sla_eigs n) by done.
  by destruct (sla_eigs _ _ _).
Qed.

Lemma traj_computeRC_operator_of_test_points_witness :
  KernelTrajTransitionManifold.computeRC (gram product_kernel)
    nearest_in_turn no_shift eigs_rejects_array traj_instance_2x2
  = (traj_instance_2x2, Raise (ValueError "k must be an integer")).
Proof.
  apply (traj_computeRC_operator_of_test_points (gram product_kernel)
           nearest_in_turn no_shift unit eigs_rejects_array
           traj_instance_2x2 2).
  - split; [reflexivity | repeat constructor].
  - lia.
  - simpl. lra.
  - repeat constructor; discriminate.
Defined.

(** ** [EmbeddingBurstTransitionManifold.computeRC] *)

Section StrideFacts.
Context {A : Type}.
Local Open Scope nat_scope.
Implicit Types (l : list A).

Lemma take_every_tile (xtest : list A) M i x :
  xtest !! i = Some x ->
  take_every (length xtest) i (concat (replicate M xtest)) = replicate M x.
Proof.
  intros Hx. induction M as [|M IH]; [done|]. simpl.
  rewrite (take_every_block _ _ _ _ x) by done. by rewrite IH.
Qed.

(** The rows [i, i + n, i + 2n, ...] of an array with [M * n] rows. *)
Lemma take_every_lookup n M l i m :
  length l = M * n -> i < n -> m < M ->
  take_every n i l !! m = l !! (m * n + i).
Proof.
  revert l m. induction M as [|M IH]; intros l m Hl Hi Hm; [lia|].
  rewrite <- (take_drop n l) at 1.
  destruct (lookup_lt_is_Some_2 (take n l) i) as [x Hx];
    [rewrite length_take; nia|].
  rewrite (take_every_block _ _ _ _ x)
    by (try rewrite length_take; (done || nia)).
  destruct m as [|m]; simpl.
  - by rewrite <- Hx, lookup_take_lt.
  - rewrite IH by (try rewrite length_drop; (done || nia)).
    rewrite lookup_drop. f_equal. lia.
Qed.

Lemma take_every_length n M l i :
  length l = M * n -> i < n -> length (take_every n i l) = M.
Proof.
  revert l. induction M as [|M IH]; intros l Hl Hi.
  - destruct l; [done|]. simpl in Hl. lia.
  - rewrite <- (take_drop n l).
    destruct (lookup_lt_is_Some_2 (take n l) i) as [x Hx];
      [rewrite length_take; nia|].
    rewrite (take_every_block _ _ _ _ x)
      by (try rewrite length_take; (done || nia)).
    simpl. rewrite IH; [done| |done]. rewrite length_drop. nia.
Qed.
End StrideFacts.

Lemma rows_slice_step n M d (P : list (list R)) i :
  rows (M * n) d P -> (i < n)%nat -> rows M d (slice_step i n P).
Proof.
  intros [Hl Hall] Hi. unfold slice_step. split.
  - by apply take_every_length.
  - apply Forall_lookup_2. intros m r Hr.
    pose proof (lookup_lt_Some _ _ _ Hr) as Hm.
    rewrite (take_every_length n M) in Hm by done.
    rewrite (take_every_lookup n M) in Hr by done.
    by eapply Forall_lookup_1 in Hall.
Qed.

(** X16.  The initial conditions of the burst, [np.tile(xtest, (M,1))],
    sliced as line 145 slices the result: the rows [i, i + npoints, ...]
    are [M] copies of test point [i]. *)
Theorem tile_stride_recovers_test_point
    (xtest : list (list R)) (M i : nat) (x : list R) :
  xtest !! i = Some x ->
  slice_step i (length xtest) (np_tile_rows xtest M) = replicate M x.
Proof.
  intros Hx. unfold slice_step, np_tile_rows. by apply take_every_tile.
Qed.

Lemma tile_stride_recovers_test_point_witness :
  slice_step 1 (length xtest_3x2) (np_tile_rows xtest_3x2 2)
  = replicate 2 [1; 0].
Proof.
  apply (tile_stride_recovers_test_point xtest_3x2 2 1 [1; 0]). reflexivity.
Defined.

Section EmbedFacts.
Local Open Scope nat_scope.
Variable System EmbFun : Type.
Variable outputdimension : EmbFun -> nat.
Variable evaluate : EmbFun -> list (list R) -> list (list R).

(** When every embedded cloud has [outputdimension] columns, the loop
    of lines 144 to 146 appends one row per test point. *)
Lemma embed_pointclouds_ok
    (self : EmbeddingBurstTransitionManifold.t System EmbFun)
    (pcs : list (list R)) (row : nat -> list R) :
  (forall i, i < length (EmbeddingBurstTransitionManifold.xtest self) ->
     row i
     = (fun s => s / INR (EmbeddingBurstTransitionManifold.M self))%R
         <$> sum_axis0
               (np_shape
                  (evaluate (EmbeddingBurstTransitionManifold.embfun self)
                     (slice_step i
                        (length (EmbeddingBurstTransitionManifold.xtest self))
                        pcs))).2
               (evaluate (EmbeddingBurstTransitionManifold.embfun self)
                  (slice_step i
                     (length (EmbeddingBurstTransitionManifold.xtest self))
                     pcs))) ->
  (forall i, i < length (EmbeddingBurstTransitionManifold.xtest self) ->
     length (row i)
     = outputdimension (EmbeddingBurstTransitionManifold.embfun self)) ->
  EmbeddingBurstTransitionManifold.embed_pointclouds
    outputdimension evaluate self pcs
  = Ok (row <$> seq 0 (length (EmbeddingBurstTransitionManifold.xtest self))).
Proof.
  intros Hrow Hlen. unfold EmbeddingBurstTransitionManifold.embed_pointclouds.
  cbv zeta.
  set (n := length (EmbeddingBurstTransitionManifold.xtest self)) in *.
  assert (forall m, m <= n ->
            for_range m
              (fun i (acc : result (list (list R))) =>
                 match acc with
                 | Ok embpointclouds =>
                     if decide
                          (length
                             ((fun s => s / INR (EmbeddingBurstTransitionManifold.M self))%R
                                <$> sum_axis0
                                      (np_shape
                                         (evaluate
                                            (EmbeddingBurstTransitionManifold.embfun self)
                                            (slice_step i n pcs))).2
                                      (evaluate
                                         (EmbeddingBurstTransitionManifold.embfun self)
                                         (slice_step i n pcs)))
                           = outputdimension
                               (EmbeddingBurstTransitionManifold.embfun self))
                     then
                       Ok (embpointclouds
                           ++ [(fun s => s / INR (EmbeddingBurstTransitionManifold.M self))%R
                                 <$> sum_axis0
                                       (np_shape
                                          (evaluate
                                             (EmbeddingBurstTransitionManifold.embfun self)
                                             (slice_step i n pcs))).2
                                       (evaluate
                                          (EmbeddingBurstTransitionManifold.embfun self)
                                          (slice_step i n pcs))])
                     else
                       Raise (ValueError
                                "all the input array dimensions except for the concatenation axis must match exactly")
                 | Raise e => Raise e
                 end) (Ok [])
            = Ok (row <$> seq 0 m)) as Hloop.
  { induction m as [|m IH]; intros Hm; [done|].
    rewrite for_range_S, IH by lia.
    rewrite <- Hrow by lia. rewrite decide_True by (apply Hlen; lia).
    by rewrite seq_S, fmap_app. }
  by apply Hloop.
Qed.
End EmbedFacts.

Lemma Rsum_swap {T U : Type} (f : T -> U -> R) (l1 : list T) (l2 : list U) :
  Rsum ((fun x => Rsum ((fun y => f x y) <$> l2)) <$> l1)
  = Rsum ((fun y => Rsum ((fun x => f x y) <$> l1)) <$> l2).
Proof.
  induction l1 as [|x l1 IH].
  - symmetry. apply (Rsum_fmap_zero l2).
  - change (Rsum ((fun x => Rsum ((fun y => f x y) <$> l2)) <$> x :: l1))
      with (Rsum ((fun y => f x y) <$> l2)
            + Rsum ((fun x => Rsum ((fun y => f x y) <$> l2)) <$> l1)).
    rewrite IH, <- Rsum_fmap_plus. apply Rsum_fmap_ext. intros y. done.
Qed.

(** X17.  With a [RandomLinearEmbeddingFunction] as the embedding, the row
    that lines 145 and 146 compute for test point [i] (the mean over the
    [M] embedded points of its cloud) is the embedding of the mean point
    of the cloud. *)
Theorem embedded_cloud_is_embedded_mean
    (System : Type)
    (self : EmbeddingBurstTransitionManifold.t System
              RandomLinearEmbeddingFunction.t)
    (pointclouds : list (list R)) (n d : nat) :
  let f := EmbeddingBurstTransitionManifold.embfun self in
  let M := EmbeddingBurstTransitionManifold.M self in
  let k := RandomLinearEmbeddingFunction.outputdimension f in
  let mean i := (fun s => s / INR M) <$> sum_axis0 d (slice_step i n pointclouds) in
  length (EmbeddingBurstTransitionManifold.xtest self) = n ->
  (0 < M)%nat -> rows (M * n) d pointclouds ->
  rows d k (RandomLinearEmbeddingFunction.A f) ->
  exists E,
    EmbeddingBurstTransitionManifold.embed_pointclouds
      RandomLinearEmbeddingFunction.outputdimension
      RandomLinearEmbeddingFunction.evaluate self pointclouds = Ok E /\
    rows n k E /\
    forall i b, (i < n)%nat -> (b < k)%nat ->
      getitem2 E i b
      = getitem2 (RandomLinearEmbeddingFunction.evaluate f [mean i]) 0 b.
Proof.
  intros f M k mean Hn HM HP HA.
  set (Y i := RandomLinearEmbeddingFunction.evaluate f
                (slice_step i n pointclouds)).
  set (row i := (fun s => s / INR M) <$> sum_axis0 k (Y i)).
  assert (forall i, (i < n)%nat -> rows M d (slice_step i n pointclouds))
    as HC by (intros i Hi; by apply rows_slice_step).
  assert (forall i, (i < n)%nat -> rows M k (Y i)) as HY.
  { intros i Hi. unfold Y, RandomLinearEmbeddingFunction.evaluate.
    apply (rows_matmul M d); [by apply HC | done]. }
  assert (forall i, (i < n)%nat -> length (row i) = k) as Hrl.
  { intros i Hi. unfold row. rewrite length_fmap.
    apply sum_axis0_length, (HY i Hi). }
  exists (row <$> seq 0 n). split; [|split].
  - rewrite <- Hn.
    apply (embed_pointclouds_ok System RandomLinearEmbeddingFunction.t).
    + rewrite Hn. intros i Hi. unfold row. fold f M (Y i).
      unfold np_shape. cbn [snd]. by rewrite (np_ncols M k _ (HY i Hi)).
    + rewrite Hn. exact Hrl.
  - split; [by rewrite length_fmap, length_seq|].
    apply Forall_fmap, Forall_forall. intros i Hi. apply elem_of_seq in Hi.
    apply Hrl. lia.
  - intros i b Hi Hb. unfold getitem2 at 1.
    rewrite (list_lookup_total_correct _ _ (row i))
      by (by rewrite list_lookup_fmap, lookup_seq_lt).
    unfold row.
    rewrite (list_lookup_total_fmap (fun s => s / INR M))
      by (rewrite sum_axis0_length; [done | apply (HY i Hi)]).
    rewrite (sum_axis0_lookup k) by (done || apply (HY i Hi)).
    rewrite (proj1 (HY i Hi)).
    assert (rows 1 d [mean i]) as Hmean.
    { split; [done|]. constructor; [|done]. unfold mean.
      rewrite length_fmap. apply sum_axis0_length, (HC i Hi). }
    unfold RandomLinearEmbeddingFunction.evaluate. fold k.
    rewrite (getitem2_matmul 1 d k) by (done || lia).
    unfold col_sum.
    rewrite (Rsum_fmap_ext_in _
               (fun m => Rsum ((fun a => getitem2 (slice_step i n pointclouds) m a
                                         * getitem2 (RandomLinearEmbeddingFunction.A f) a b)
                                 <$> seq 0 d))).
    2:{ intros m Hm. apply elem_of_seq in Hm. unfold Y.
        unfold RandomLinearEmbeddingFunction.evaluate. fold k.
        rewrite (getitem2_matmul M d k) by (done || lia || by apply HC).
        done. }
    rewrite (Rsum_swap
               (fun m a => getitem2 (slice_step i n pointclouds) m a
                           * getitem2 (RandomLinearEmbeddingFunction.A f) a b)).
    unfold Rdiv. rewrite <- Rsum_fmap_scale.
    apply Rsum_fmap_ext_in. intros a Ha. apply elem_of_seq in Ha.
    unfold getitem2 at 3. simpl. unfold mean.
    rewrite (list_lookup_total_fmap (fun s => s / INR M))
      by (rewrite sum_axis0_length; [lia | apply (HC i Hi)]).
    rewrite (sum_axis0_lookup d) by (try apply (HC i Hi); lia).
    rewrite (proj1 (HC i Hi)). unfold col_sum.
    rewrite Rsum_fmap_scale. unfold Rdiv. ring.
Qed.

Lemma embedded_cloud_is_embedded_mean_witness :
  exists E,
    EmbeddingBurstTransitionManifold.embed_pointclouds
      RandomLinearEmbeddingFunction.outputdimension
      RandomLinearEmbeddingFunction.evaluate linear_embedding_instance
      [[0; 0]; [1; 1]; [2; 2]; [3; 3]] = Ok E /\
    getitem2 E 1 0
    = getitem2 (RandomLinearEmbeddingFunction.evaluate embedding_2_1
                  [(fun s => s / INR 2)
                     <$> sum_axis0 2
                           (slice_step 1 2 [[0; 0]; [1; 1]; [2; 2]; [3; 3]])])
               0 0.
Proof.
  destruct (embedded_cloud_is_embedded_mean unit linear_embedding_instance
              [[0; 0]; [1; 1]; [2; 2]; [3; 3]] 2 2) as (E & HE & _ & Hitems).
  - reflexivity.
  - simpl. lia.
  - split; [reflexivity | repeat constructor].
  - split; [reflexivity | repeat constructor].
  - exists E. split; [exact HE|]. apply (Hitems 1%nat 0%nat); simpl; lia.
Defined.

(** X18.  [EmbeddingBurstTransitionManifold.computeRC] passes the embedded
    points, an array of shape [(npoints, outputdimension)], to
    [diffusionMaps] in the place of a distance matrix (line 150).  When
    the number of test points and the output dimension are different and
    both above one, the call fails in the division of line 42 with
    NumPy's broadcasting [ValueError]: [computeRC] raises it after
    storing [embpointclouds], and [rc] keeps its value. *)
Theorem embedding_computeRC_raises_on_embedded_points
    (System : Type)
    (computeBurst : System -> R -> R -> list (list R) -> list (list R))
    (EmbFun : Type) (outputdimension : EmbFun -> nat)
    (evaluate : EmbFun -> list (list R) -> list (list R))
    (sla_eigs : list (list R) -> nat -> list (list R) -> result eigs_t)
    (self : EmbeddingBurstTransitionManifold.t System EmbFun) (n k : nat) :
  let pointclouds :=
    computeBurst (EmbeddingBurstTransitionManifold.system self)
      (EmbeddingBurstTransitionManifold.t_ self)
      (EmbeddingBurstTransitionManifold.dt self)
      (np_tile_rows (EmbeddingBurstTransitionManifold.xtest self)
                    (EmbeddingBurstTransitionManifold.M self)) in
  length (EmbeddingBurstTransitionManifold.xtest self) = n ->
  outputdimension (EmbeddingBurstTransitionManifold.embfun self) = k ->
  (forall i, (i < n)%nat ->
     exists m, (0 < m)%nat /\
       rows m k (evaluate (EmbeddingBurstTransitionManifold.embfun self)
                   (slice_step i n pointclouds))) ->
  (1 < n)%nat -> (1 < k)%nat -> n <> k ->
  exists emb,
    rows n k emb /\
    EmbeddingBurstTransitionManifold.computeRC computeBurst
      outputdimension evaluate sla_eigs self
    = (EmbeddingBurstTransitionManifold.Build
         (EmbeddingBurstTransitionManifold.system self)
         (EmbeddingBurstTransitionManifold.embfun self)
         (EmbeddingBurstTransitionManifold.xtest self)
         (EmbeddingBurstTransitionManifold.t_ self)
         (EmbeddingBurstTransitionManifold.dt self)
         (EmbeddingBurstTransitionManifold.M self)
         (EmbeddingBurstTransitionManifold.epsi self)
         (Some emb)
         (EmbeddingBurstTransitionManifold.rc self),
       Raise (ValueError "operands could not be broadcast together")).
Proof.
  intros pcs Hn Hk Hy Hn1 Hk1 Hne.
  set (row i :=
         (fun s => s / INR (EmbeddingBurstTransitionManifold.M self))
           <$> sum_axis0
                 (np_shape
                    (evaluate (EmbeddingBurstTransitionManifold.embfun self)
                       (slice_step i n pcs))).2
                 (evaluate (EmbeddingBurstTransitionManifold.embfun self)
                    (slice_step i n pcs))).
  assert (forall i, (i < n)%nat -> length (row i) = k) as Hrl.
  { intros i Hi. destruct (Hy i Hi) as (m & Hm & Hrows).
    unfold row, np_shape. cbn [snd].
    rewrite length_fmap, (np_ncols m k _ Hrows Hm).
    apply sum_axis0_length, Hrows. }
  assert (rows n k (row <$> seq 0 n)) as Hemb.
  { split; [by rewrite length_fmap, length_seq|].
    apply Forall_fmap, Forall_forall. intros i Hi. apply elem_of_seq in Hi.
    apply Hrl. lia. }
  exists (row <$> seq 0 n). split; [exact Hemb|].
  unfold EmbeddingBurstTransitionManifold.computeRC. cbv zeta. fold pcs.
  rewrite (embed_pointclouds_ok System EmbFun outputdimension evaluate
             self pcs row).
  - rewrite Hn.
    cbn [EmbeddingBurstTransitionManifold.epsi].
    by rewrite (diffusionMaps_not_square sla_eigs n k).
  - rewrite Hn. intros i Hi. reflexivity.
  - rewrite Hn, Hk. exact Hrl.
Qed.

Lemma embedding_computeRC_raises_on_embedded_points_witness :
  exists emb,
    rows 3 2 emb /\
    EmbeddingBurstTransitionManifold.computeRC frozen_burst
      (fun _ => 2%nat) doubling_embedding fixed_eigs embedding_instance_3
    = (EmbeddingBurstTransitionManifold.Build tt tt
         [[1]; [2]; [3]] 1 (1/10) 1 1 (Some emb) None,
       Raise (ValueError "operands could not be broadcast together")).
Proof.
  apply (embedding_computeRC_raises_on_embedded_points unit frozen_burst unit
           (fun _ => 2%nat) doubling_embedding fixed_eigs
           embedding_instance_3 3 2).
  - reflexivity.
  - reflexivity.
  - intros i Hi. exists 1%nat. split; [lia|].
    destruct i as [|[|[|i]]]; [| | |lia];
      (split; [reflexivity | repeat constructor]).
  - lia.
  - lia.
  - lia.
Defined.

Section FitOutcome.
Local Open Scope nat_scope.
Context {Sampler Kwargs : Type}.
Variable RBFSampler : R -> nat -> Kwargs -> Sampler.
Variable Nystroem : string -> nat -> Kwargs -> Sampler.
Variable fit_transform : Sampler -> list (list R) -> Sampler * list (list R).
Variable eigsh : list (list R) -> nat -> string -> list R * list (list R).

Lemma choose_sampler_set_shape
    (self : LinearRandomFeatureManifold.t Sampler Kwargs) (X : ndarray3) :
  LinearRandomFeatureManifold.choose_sampler RBFSampler Nystroem
    (LinearRandomFeatureManifold.set_shape Sampler Kwargs self X)
  = LinearRandomFeatureManifold.choose_sampler RBFSampler Nystroem self.
Proof. reflexivity. Qed.

(** The instance after a [fit] that runs to its end. *)
Lemma fit_ok (self : LinearRandomFeatureManifold.t Sampler Kwargs)
    (X : ndarray3) (s0 s : Sampler) (F : list (list R)) :
  let n := shape0 X in
  let M := shape1 X in
  let c := LinearRandomFeatureManifold.n_components self in
  let E := LinearRandomFeatureManifold.center n c
             (LinearRandomFeatureManifold.sum_axis1 c (chunks M n F)) in
  LinearRandomFeatureManifold.choose_sampler RBFSampler Nystroem self = Ok s0 ->
  fit_transform s0 (reshape_flat X) = (s, F) ->
  rows (n * M) c F ->
  rows n c E /\
  exists self',
    LinearRandomFeatureManifold.fit RBFSampler Nystroem fit_transform eigsh
      self X = (self', Ok tt) /\
    LinearRandomFeatureManifold.sampler self' = Some s /\
    LinearRandomFeatureManifold.embedded self' = Some E /\
    LinearRandomFeatureManifold.vec self'
    = Some (eigsh (LinearRandomFeatureManifold.covariance n c E)
                  1 "LM"%string).2.
Proof.
  intros n M c E Hchoose Hft HF.
  pose proof (rows_sum_axis1 n M c F HF) as HS.
  pose proof (rows_center n c _ HS) as HE.
  split; [exact HE|].
  unfold LinearRandomFeatureManifold.fit. cbv zeta.
  rewrite choose_sampler_set_shape, Hchoose, Hft.
  change (LinearRandomFeatureManifold.n_components
            (LinearRandomFeatureManifold.set_shape Sampler Kwargs self X))
    with c.
  fold n M. rewrite (reshape3_ok n M c F HF). fold E.
  destruct (eigsh (LinearRandomFeatureManifold.covariance n c E)
                  1 "LM"%string) as [vals v] eqn:Heig.
  eexists. split; [reflexivity|]. by repeat split.
Qed.
End FitOutcome.

Section CenterFacts.
Local Open Scope nat_scope.

(** After centering, every column sums to zero. *)
Lemma center_col_sum n c (E : list (list R)) a :
  rows n c E -> 0 < n -> a < c ->
  col_sum n (LinearRandomFeatureManifold.center n c E) a = 0%R.
Proof.
  intros HE Hn Ha. unfold col_sum at 1.
  rewrite (Rsum_fmap_ext_in _
             (fun i => getitem2 E i a + - (col_sum n E a / INR n))%R).
  - rewrite Rsum_fmap_plus, Rsum_fmap_const, length_seq.
    fold (col_sum n E a).
    assert (INR n <> 0%R) by (apply not_0_INR; lia).
    field. done.
  - intros i Hi. apply elem_of_seq in Hi.
    rewrite (getitem2_center n c) by (done || lia). ring.
Qed.

Lemma Rsum_fmap_nonneg {T : Type} (f : T -> R) (l : list T) :
  (forall x, (0 <= f x)%R) -> (0 <= Rsum (f <$> l))%R.
Proof.
  intros Hf. induction l as [|x l IH]; [unfold Rsum; simpl; lra|].
  change (Rsum (f <$> x :: l)) with (f x + Rsum (f <$> l))%R.
  specialize (Hf x). lra.
Qed.

Lemma Rsum_fmap_mult {T U : Type} (f : T -> R) (g : U -> R)
    (l : list T) (l' : list U) :
  (Rsum (f <$> l) * Rsum (g <$> l'))%R
  = Rsum ((fun x => Rsum ((fun y => f x * g y)%R <$> l')) <$> l).
Proof.
  rewrite <- Rsum_fmap_scale. apply Rsum_fmap_ext. intros x.
  by rewrite Rsum_fmap_scale_l.
Qed.

(** The quadratic form of [E.T @ E] is a sum of squares. *)
Lemma covariance_quadratic_form n c (E : list (list R)) (v : list R) :
  rows n c E ->
  Rsum ((fun a =>
           Rsum ((fun b =>
                    v !!! a
                    * getitem2 (LinearRandomFeatureManifold.covariance n c E) a b
                    * v !!! b)%R <$> seq 0 c)) <$> seq 0 c)
  = Rsum ((fun i =>
             (Rsum ((fun a => v !!! a * getitem2 E i a)%R <$> seq 0 c)) ^ 2)%R
            <$> seq 0 n).
Proof.
  intros HE.
  rewrite (Rsum_fmap_ext_in _
             (fun a => Rsum ((fun i =>
                        Rsum ((fun b => (v !!! a * getitem2 E i a)
                                        * (v !!! b * getitem2 E i b))%R
                                <$> seq 0 c)) <$> seq 0 n))).
  - rewrite (Rsum_swap
               (fun a i => Rsum ((fun b => (v !!! a * getitem2 E i a)
                                           * (v !!! b * getitem2 E i b))%R
                                   <$> seq 0 c))).
    apply Rsum_fmap_ext. intros i.
    rewrite <- (Rsum_fmap_mult (fun a => (v !!! a * getitem2 E i a)%R)
                               (fun b => (v !!! b * getitem2 E i b)%R)).
    ring.
  - intros a Ha. apply elem_of_seq in Ha.
    rewrite <- (Rsum_swap
                  (fun b i => ((v !!! a * getitem2 E i a)
                               * (v !!! b * getitem2 E i b))%R)).
    apply Rsum_fmap_ext_in. intros b Hb. apply elem_of_seq in Hb.
    rewrite (getitem2_covariance n c) by (done || lia).
    rewrite <- (Rsum_fmap_scale_l
                  (fun i => getitem2 E i a * getitem2 E i b)%R (v !!! a)).
    rewrite <- (Rsum_fmap_scale
                  (fun i => v !!! a * (getitem2 E i a * getitem2 E i b))%R
                  (v !!! b)).
    apply Rsum_fmap_ext. intros i. ring.
Qed.
End CenterFacts.

(** X19.  When [fit] runs to its end on at least one start point, the
    array it has stored in [embedded] is centered: each of its columns
    sums to zero over the start points (floats read as real numbers). *)
Theorem fit_embedded_columns_sum_to_zero
    (Sampler Kwargs : Type)
    (RBFSampler : R -> nat -> Kwargs -> Sampler)
    (Nystroem : string -> nat -> Kwargs -> Sampler)
    (fit_transform : Sampler -> list (list R) -> Sampler * list (list R))
    (eigsh : list (list R) -> nat -> string -> list R * list (list R))
    (self self' : LinearRandomFeatureManifold.t Sampler Kwargs)
    (X : ndarray3) (s0 s : Sampler) (F : list (list R)) :
  let n := shape0 X in
  let c := LinearRandomFeatureManifold.n_components self in
  LinearRandomFeatureManifold.choose_sampler RBFSampler Nystroem self = Ok s0 ->
  fit_transform s0 (reshape_flat X) = (s, F) ->
  rows (n * shape1 X)%nat c F -> (0 < n)%nat ->
  LinearRandomFeatureManifold.fit RBFSampler Nystroem fit_transform eigsh
    self X = (self', Ok tt) ->
  exists E,
    LinearRandomFeatureManifold.embedded self' = Some E /\
    rows n c E /\
    forall a, (a < c)%nat -> col_sum n E a = 0.
Proof.
  intros n c Hchoose Hft HF Hn Hrun.
  destruct (fit_ok RBFSampler Nystroem fit_transform eigsh self X s0 s F
              Hchoose Hft HF) as (HE & self0 & Hfit & _ & Hemb & _).
  rewrite Hfit in Hrun. injection Hrun as <-.
  exists (LinearRandomFeatureManifold.center n c
            (LinearRandomFeatureManifold.sum_axis1 c
               (chunks (shape1 X) n F))).
  split; [exact Hemb|]. split; [exact HE|].
  intros a Ha. apply center_col_sum; [|done..].
  by apply rows_sum_axis1.
Qed.

Lemma fit_embedded_columns_sum_to_zero_witness :
  exists E,
    LinearRandomFeatureManifold.embedded
      (LinearRandomFeatureManifold.fit (fun _ _ _ => tt) (fun _ _ _ => tt)
         identity_fit_transform fixed_eigsh unfitted_rff ensemble_2x3).1
    = Some E /\
    col_sum 2 E 0 = 0.
Proof.
  destruct (fit_embedded_columns_sum_to_zero unit unit
              (fun _ _ _ => tt) (fun _ _ _ => tt)
              identity_fit_transform fixed_eigsh unfitted_rff
              (LinearRandomFeatureManifold.fit (fun _ _ _ => tt)
                 (fun _ _ _ => tt) identity_fit_transform fixed_eigsh
                 unfitted_rff ensemble_2x3).1
              ensemble_2x3 tt tt (reshape_flat ensemble_2x3))
    as (E & Hemb & _ & Hsum).
  - reflexivity.
  - reflexivity.
  - split; [reflexivity | repeat constructor].
  - simpl. lia.
  - reflexivity.
  - exists E. split; [exact Hemb|]. apply Hsum. simpl. lia.
Defined.

(** X20.  The matrix that [fit] hands to [eigsh] (lines 278 and 279) is
    square with [n_components] rows, symmetric and positive
    semidefinite: its quadratic form is negative at no vector. *)
Theorem fit_covariance_symmetric_psd
    (Sampler Kwargs : Type)
    (RBFSampler : R -> nat -> Kwargs -> Sampler)
    (Nystroem : string -> nat -> Kwargs -> Sampler)
    (fit_transform : Sampler -> list (list R) -> Sampler * list (list R))
    (eigsh : list (list R) -> nat -> string -> list R * list (list R))
    (self : LinearRandomFeatureManifold.t Sampler Kwargs)
    (X : ndarray3) (s0 s : Sampler) (F : list (list R)) :
  let n := shape0 X in
  let c := LinearRandomFeatureManifold.n_components self in
  LinearRandomFeatureManifold.choose_sampler RBFSampler Nystroem self = Ok s0 ->
  fit_transform s0 (reshape_flat X) = (s, F) ->
  rows (n * shape1 X)%nat c F ->
  exists self' cov,
    LinearRandomFeatureManifold.fit RBFSampler Nystroem fit_transform eigsh
      self X = (self', Ok tt) /\
    LinearRandomFeatureManifold.vec self'
    = Some (eigsh cov 1%nat "LM"%string).2 /\
    rows c c cov /\
    (forall a b, (a < c)%nat -> (b < c)%nat ->
       getitem2 cov a b = getitem2 cov b a) /\
    (forall v : list R,
       0 <= Rsum ((fun a =>
                     Rsum ((fun b => v !!! a * getitem2 cov a b * v !!! b)
                             <$> seq 0 c)) <$> seq 0 c)).
Proof.
  intros n c Hchoose Hft HF.
  destruct (fit_ok RBFSampler Nystroem fit_transform eigsh self X s0 s F
              Hchoose Hft HF) as (HE & self' & Hfit & _ & _ & Hvec).
  eexists self', _. split; [exact Hfit|]. split; [exact Hvec|]. split.
  { by apply (rows_matmul_gram n). }
  split.
  - intros a b Ha Hb. rewrite !(getitem2_covariance n c) by done.
    apply Rsum_fmap_ext. intros i. ring.
  - intros v. rewrite (covariance_quadratic_form n c) by done.
    apply Rsum_fmap_nonneg. intros i. apply pow2_ge_0.
Qed.

Lemma fit_covariance_symmetric_psd_witness :
  exists self' cov,
    LinearRandomFeatureManifold.fit (fun _ _ _ => tt) (fun _ _ _ => tt)
      identity_fit_transform fixed_eigsh unfitted_rff ensemble_2x3
    = (self', Ok tt) /\
    LinearRandomFeatureManifold.vec self'
    = Some (fixed_eigsh cov 1%nat "LM"%string).2 /\
    0 <= Rsum ((fun a =>
                  Rsum ((fun b => [1] !!! a * getitem2 cov a b * [1] !!! b)
                          <$> seq 0 1)) <$> seq 0 1).
Proof.
  destruct (fit_covariance_symmetric_psd unit unit
              (fun _ _ _ => tt) (fun _ _ _ => tt)
              identity_fit_transform fixed_eigsh unfitted_rff ensemble_2x3
              tt tt (reshape_flat ensemble_2x3))
    as (self' & cov & Hfit & Hvec & _ & _ & Hpsd).
  - reflexivity.
  - reflexivity.
  - split; [reflexivity | repeat constructor].
  - exists self', cov. split; [exact Hfit|]. split; [exact Hvec|].
    apply (Hpsd [1]).
Defined.

(** X21.  [fit] followed by [predict]: after a [fit] that runs to its end,
    with a solver that returns one eigenvector of [n_components] items,
    [predict(Y)] does not raise and leaves the instance as it is; it
    returns one value per test point, the product of the test point's
    features (from the sampler that [fit] fitted) with the stored
    direction [vec]. *)
Theorem predict_after_fit
    (Sampler Kwargs : Type)
    (RBFSampler : R -> nat -> Kwargs -> Sampler)
    (Nystroem : string -> nat -> Kwargs -> Sampler)
    (fit_transform : Sampler -> list (list R) -> Sampler * list (list R))
    (transform : Sampler -> list (list R) -> list (list R))
    (eigsh : list (list R) -> nat -> string -> list R * list (list R))
    (self : LinearRandomFeatureManifold.t Sampler Kwargs)
    (X : ndarray3) (s0 s : Sampler) (F Y : list (list R)) (T : nat) :
  let n := shape0 X in
  let c := LinearRandomFeatureManifold.n_components self in
  LinearRandomFeatureManifold.choose_sampler RBFSampler Nystroem self = Ok s0 ->
  fit_transform s0 (reshape_flat X) = (s, F) ->
  rows (n * shape1 X)%nat c F ->
  (forall A, rows c 1 (eigsh A 1%nat "LM"%string).2) ->
  rows T c (transform s Y) ->
  exists self' v P,
    LinearRandomFeatureManifold.fit RBFSampler Nystroem fit_transform eigsh
      self X = (self', Ok tt) /\
    LinearRandomFeatureManifold.vec self' = Some v /\
    LinearRandomFeatureManifold.predict transform self' Y = (self', Ok P) /\
    rows T 1 P /\
    forall t, (t < T)%nat ->
      getitem2 P t 0
      = Rsum ((fun a => getitem2 (transform s Y) t a * getitem2 v a 0)
                <$> seq 0 c).
Proof.
  intros n c Hchoose Hft HF Heig HY.
  destruct (fit_ok RBFSampler Nystroem fit_transform eigsh self X s0 s F
              Hchoose Hft HF) as (HE & self' & Hfit & Hs & _ & Hvec).
  eexists self', _, _. split; [exact Hfit|]. split; [exact Hvec|].
  unfold LinearRandomFeatureManifold.predict. rewrite Hs, Hvec.
  split; [reflexivity|]. split.
  - by apply (rows_matmul T c 1).
  - intros t Ht. by apply (getitem2_matmul T c 1); [| |done|lia].
Qed.

Lemma predict_after_fit_witness :
  exists self' v P,
    LinearRandomFeatureManifold.fit (fun _ _ _ => tt) (fun _ _ _ => tt)
      identity_fit_transform fixed_eigsh unfitted_rff ensemble_2x3
    = (self', Ok tt) /\
    LinearRandomFeatureManifold.vec self' = Some v /\
    LinearRandomFeatureManifold.predict (fun (_ : unit) Y => Y) self' [[5]; [7]]
    = (self', Ok P) /\
    rows 2 1 P.
Proof.
  destruct (predict_after_fit unit unit
              (fun _ _ _ => tt) (fun _ _ _ => tt)
              identity_fit_transform (fun (_ : unit) Y => Y) fixed_eigsh
              unfitted_rff ensemble_2x3 tt tt (reshape_flat ensemble_2x3)
              [[5]; [7]] 2)
    as (self' & v & P & Hfit & Hvec & Hpred & HP & _).
  - reflexivity.
  - reflexivity.
  - split; [reflexivity | repeat constructor].
  - intros A. split; [reflexivity | repeat constructor].
  - split; [reflexivity | repeat constructor].
  - by exists self', v, P.
Defined.

(** X22.  [fit] on an instance whose [method] is neither ["rff"] nor
    ["nystroem"] raises the [ValueError] of line 269.  The three shape
    attributes have been assigned by then; [sampler], [embedded] and
    [vec] keep their values, so that on an instance that was never
    fitted [predict] still raises its [RuntimeError] afterwards. *)
Theorem fit_rejects_unknown_method
    (Sampler Kwargs : Type)
    (RBFSampler : R -> nat -> Kwargs -> Sampler)
    (Nystroem : string -> nat -> Kwargs -> Sampler)
    (fit_transform : Sampler -> list (list R) -> Sampler * list (list R))
    (transform : Sampler -> list (list R) -> list (list R))
    (eigsh : list (list R) -> nat -> string -> list R * list (list R))
    (self : LinearRandomFeatureManifold.t Sampler Kwargs)
    (X : ndarray3) (Y : list (list R)) :
  LinearRandomFeatureManifold.method self <> "rff"%string ->
  LinearRandomFeatureManifold.method self <> "nystroem"%string ->
  let out := LinearRandomFeatureManifold.fit RBFSampler Nystroem
               fit_transform eigsh self X in
  out.2 = Raise (ValueError
                   "Instantiate with either method='rff' or sampler='nystroem'") /\
  LinearRandomFeatureManifold.n_points out.1 = Some (shape0 X) /\
  LinearRandomFeatureManifold.M out.1 = Some (shape1 X) /\
  LinearRandomFeatureManifold.dim out.1 = Some (shape2 X) /\
  LinearRandomFeatureManifold.sampler out.1
  = LinearRandomFeatureManifold.sampler self /\
  LinearRandomFeatureManifold.embedded out.1
  = LinearRandomFeatureManifold.embedded self /\
  LinearRandomFeatureManifold.vec out.1
  = LinearRandomFeatureManifold.vec self /\
  (LinearRandomFeatureManifold.sampler self = None ->
   (LinearRandomFeatureManifold.predict transform out.1 Y).2
   = Raise (RuntimeError "Run fit() first to fit the model.")).
Proof.
  intros Hrff Hnys. cbv zeta.
  unfold LinearRandomFeatureManifold.fit. cbv zeta.
  rewrite choose_sampler_set_shape.
  unfold LinearRandomFeatureManifold.choose_sampler.
  apply String.eqb_neq in Hrff, Hnys. rewrite Hrff, Hnys. simpl.
  repeat split; try reflexivity.
  intros Hs. unfold LinearRandomFeatureManifold.predict. simpl.
  by rewrite Hs.
Qed.

Lemma fit_rejects_unknown_method_witness :
  (LinearRandomFeatureManifold.fit (fun _ _ _ => tt) (fun _ _ _ => tt)
     identity_fit_transform fixed_eigsh unfitted_pca ensemble_2x3).2
  = Raise (ValueError
             "Instantiate with either method='rff' or sampler='nystroem'").
Proof.
  refine (proj1 (fit_rejects_unknown_method unit unit
                   (fun _ _ _ => tt) (fun _ _ _ => tt)
                   identity_fit_transform (fun (_ : unit) Y => Y) fixed_eigsh
                   unfitted_pca ensemble_2x3 [] _ _)).
  - discriminate.
  - discriminate.
Defined.

(** X23.  When the features returned by the sampler do not have
    [n_points * M * n_components] items, the [reshape] of line 273
    raises [ValueError] and [fit] with it.  By then the fitted sampler
    and the raw features have been stored ([sampler], [embedded]) and
    [vec] keeps its value: the instance no longer counts as unfitted, and
    a following [predict] does not raise the [RuntimeError] that asks to
    run [fit] first. *)
Theorem fit_failing_reshape_leaves_sampler
    (Sampler Kwargs : Type)
    (RBFSampler : R -> nat -> Kwargs -> Sampler)
    (Nystroem : string -> nat -> Kwargs -> Sampler)
    (fit_transform : Sampler -> list (list R) -> Sampler * list (list R))
    (transform : Sampler -> list (list R) -> list (list R))
    (eigsh : list (list R) -> nat -> string -> list R * list (list R))
    (self : LinearRandomFeatureManifold.t Sampler Kwargs)
    (X : ndarray3) (s0 s : Sampler) (F Y : list (list R)) :
  LinearRandomFeatureManifold.choose_sampler RBFSampler Nystroem self = Ok s0 ->
  fit_transform s0 (reshape_flat X) = (s, F) ->
  length (concat F)
  <> (shape0 X * shape1 X * LinearRandomFeatureManifold.n_components self)%nat ->
  let out := LinearRandomFeatureManifold.fit RBFSampler Nystroem
               fit_transform eigsh self X in
  out.2 = Raise (ValueError "cannot reshape array") /\
  LinearRandomFeatureManifold.sampler out.1 = Some s /\
  LinearRandomFeatureManifold.embedded out.1 = Some F /\
  LinearRandomFeatureManifold.vec out.1
  = LinearRandomFeatureManifold.vec self /\
  (LinearRandomFeatureManifold.predict transform out.1 Y).2
  <> Raise (RuntimeError "Run fit() first to fit the model.").
Proof.
  intros Hchoose Hft Hsize. cbv zeta.
  unfold LinearRandomFeatureManifold.fit. cbv zeta.
  rewrite choose_sampler_set_shape, Hchoose, Hft.
  unfold reshape3.
  change (LinearRandomFeatureManifold.n_components
            (LinearRandomFeatureManifold.set_shape Sampler Kwargs self X))
    with (LinearRandomFeatureManifold.n_components self).
  rewrite decide_False by done. simpl.
  repeat split; try reflexivity.
  unfold LinearRandomFeatureManifold.predict. simpl.
  by destruct (LinearRandomFeatureManifold.vec self).
Qed.

Lemma fit_failing_reshape_leaves_sampler_witness :
  (LinearRandomFeatureManifold.fit (fun _ _ _ => tt) (fun _ _ _ => tt)
     identity_fit_transform fixed_eigsh unfitted_rff_2 ensemble_2x3).2
  = Raise (ValueError "cannot reshape array") /\
  LinearRandomFeatureManifold.sampler
    (LinearRandomFeatureManifold.fit (fun _ _ _ => tt) (fun _ _ _ => tt)
       identity_fit_transform fixed_eigsh unfitted_rff_2 ensemble_2x3).1
  = Some tt.
Proof.
  destruct (fit_failing_reshape_leaves_sampler unit unit
              (fun _ _ _ => tt) (fun _ _ _ => tt)
              identity_fit_transform (fun (_ : unit) Y => Y) fixed_eigsh
              unfitted_rff_2 ensemble_2x3 tt tt (reshape_flat ensemble_2x3) [])
    as (Hraise & Hs & _).
  - reflexivity.
  - reflexivity.
  - simpl. lia.
  - by split.
Defined.

(** X24.  On a well-shaped ensemble, whose clouds all have [M > 0] samples,
    [KernelBurstTransitionManifold.fit] assembles the matrix that
    [KernelTrajTransitionManifold.computeRC] assembles from the same
    clouds: the single division by [M**2] of the one is the per-cloud
    normalization of the other. *)
Theorem burst_builder_is_traj_builder_on_equal_clouds
    (evaluate : list (list R) -> list (list R) -> list (list R))
    (X : ndarray3) :
  wf3 X -> (0 < shape1 X)%nat ->
  KernelBurstTransitionManifold.distMat evaluate X
  = KernelTrajTransitionManifold.distMat evaluate (shape0 X) (items X).
Proof.
  intros HX _. apply (matrix_ext (shape0 X) (shape0 X)).
  - apply rows_burst_distMat.
  - apply rows_traj_distMat.
  - intros i j Hi Hj.
    rewrite burst_distMat_items, traj_distMat_items by done.
    destruct (reshape_slice_is_cloud X i HX Hi) as [_ Hli].
    destruct (reshape_slice_is_cloud X j HX Hj) as [_ Hlj].
    unfold burst_value, traj_value. fold (cloud_of X i) (cloud_of X j).
    rewrite Hli, Hlj.
    replace (shape1 X ^ 2)%nat with (shape1 X * shape1 X)%nat by (simpl; lia).
    repeat case_decide; try done; unfold Rdiv; ring.
Qed.

Lemma burst_builder_is_traj_builder_on_equal_clouds_witness :
  KernelBurstTransitionManifold.distMat (gram first_coordinate) ensemble_2x3
  = KernelTrajTransitionManifold.distMat (gram first_coordinate)
      (shape0 ensemble_2x3) (items ensemble_2x3).
Proof.
  apply (burst_builder_is_traj_builder_on_equal_clouds
           (gram first_coordinate) ensemble_2x3).
  - split; [reflexivity|]. repeat constructor.
  - simpl. lia.
Defined.

(** X25.  [L2BurstTransitionManifold.fit] stores a square matrix with one
    row per start point; when the reference density [rho] is positive
    and the quadrature over the instance's domain does not return a
    negative value for an integrand that is nowhere negative, no item of
    the matrix is negative. *)
Theorem L2_distances_nonnegative
    (score_samples : R -> list (list R) -> list R -> R)
    (dblquad : (R -> R -> R) -> R -> R -> R -> R -> R * R)
    (self : L2BurstTransitionManifold.t) (X : ndarray3) (i j : nat) :
  (forall x y, 0 < L2BurstTransitionManifold.rho self x y) ->
  (forall f, (forall x y, 0 <= f x y) ->
     0 <= (dblquad f
             (getitem2 (L2BurstTransitionManifold.domain self) 0 0)
             (getitem2 (L2BurstTransitionManifold.domain self) 1 0)
             (getitem2 (L2BurstTransitionManifold.domain self) 0 1)
             (getitem2 (L2BurstTransitionManifold.domain self) 1 1)).1) ->
  (i < shape0 X)%nat -> (j < shape0 X)%nat ->
  rows (shape0 X) (shape0 X)
       (L2BurstTransitionManifold.distMat score_samples dblquad self X) /\
  L2BurstTransitionManifold.distMat_
    (L2BurstTransitionManifold.fit score_samples dblquad self X)
  = Some (L2BurstTransitionManifold.distMat score_samples dblquad self X) /\
  0 <= getitem2 (L2BurstTransitionManifold.distMat score_samples dblquad
                   self X) i j.
Proof.
  intros Hrho Hquad Hi Hj. split; [|split; [reflexivity|]].
  - unfold L2BurstTransitionManifold.distMat. cbv zeta.
    apply rows_fill, rows_np_zeros.
  - rewrite L2_distMat_items by done.
    unfold L2BurstTransitionManifold.L2distance. apply Hquad.
    intros x y. apply Rmult_le_pos; [apply pow2_ge_0|].
    apply Rlt_le, Rinv_0_lt_compat, Hrho.
Qed.

Lemma L2_distances_nonnegative_witness :
  0 <= getitem2 (L2BurstTransitionManifold.distMat flat_score midpoint_rule
                   unit_square_instance ensemble_2x3) 0 1.
Proof.
  refine (proj2 (proj2 (L2_distances_nonnegative flat_score midpoint_rule
                          unit_square_instance ensemble_2x3 0 1 _ _ _ _))).
  - intros x y. simpl. lra.
  - intros f Hf. unfold midpoint_rule, getitem2. simpl.
    specialize (Hf ((0 + 1) / 2) ((0 + 1) / 2)). nra.
  - simpl. lia.
  - simpl. lia.
Defined.

(** ** Bandwidth and distances *)

Lemma gaussian_rescaled (c epsi : R) (D : list (list R)) :
  c <> 0 -> epsi <> 0 ->
  ml.gaussian (c ^ 2 * epsi) (mscale c D) = ml.gaussian epsi D.
Proof.
  intros Hc He. unfold ml.gaussian, mscale.
  rewrite <- list_fmap_compose. apply list_fmap_ext. intros _ r _. simpl.
  rewrite <- list_fmap_compose. apply list_fmap_ext. intros _ d _. simpl.
  f_equal. field. split; done.
Qed.

(** X26.  [diffusionMaps] depends on the distances and the bandwidth
    through the quotients [distMat**2 / epsi] only: multiplying all
    distances by [c] and [epsi] by [c**2] leaves the call to the solver
    as it is. *)
Theorem diffusionMaps_rescaling
    (sla_eigs : list (list R) -> nat -> list (list R) -> result eigs_t)
    (distMat : list (list R)) (n_components : nat) (c epsi alpha : R) :
  c <> 0 -> epsi <> 0 ->
  ml.gaussian (c ^ 2 * epsi) (mscale c distMat) = ml.gaussian epsi distMat /\
  ml.diffusion_operator (mscale c distMat) (c ^ 2 * epsi) alpha
  = ml.diffusion_operator distMat epsi alpha /\
  ml.diffusionMaps sla_eigs (mscale c distMat) n_components (c ^ 2 * epsi) alpha
  = ml.diffusionMaps sla_eigs distMat n_components epsi alpha.
Proof.
  intros Hc He. pose proof (gaussian_rescaled c epsi distMat Hc He) as HK.
  split; [exact HK|].
  assert (ml.diffusion_operator (mscale c distMat) (c ^ 2 * epsi) alpha
          = ml.diffusion_operator distMat epsi alpha) as Hop.
  { unfold ml.diffusion_operator. cbv zeta. by rewrite HK. }
  split; [exact Hop|]. unfold ml.diffusionMaps. by rewrite Hop.
Qed.

Lemma diffusionMaps_rescaling_witness :
  ml.diffusionMaps fixed_eigs (mscale 2 dist_coincident_3) 10 (2 ^ 2 * 1) (1/2)
  = ml.diffusionMaps fixed_eigs dist_coincident_3 10 1 (1/2).
Proof.
  refine (proj2 (proj2 (diffusionMaps_rescaling fixed_eigs dist_coincident_3
                          10 2 1 (1/2) _ _))); lra.
Defined.

(** X27.  With [alpha = 0] and a positive bandwidth the operator orders the
    items of a column as the distances order them: of two start points
    [i] and [l], the one nearer to [j] gets the larger item in column
    [j]. *)
Theorem diffusion_operator_decreases_with_distance
    (distMat : list (list R)) (n : nat) (epsi : R) (i l j : nat) :
  rows n n distMat -> (i < n)%nat -> (l < n)%nat -> (j < n)%nat ->
  0 < epsi ->
  getitem2 distMat i j ^ 2 <= getitem2 distMat l j ^ 2 ->
  getitem2 (ml.diffusion_operator distMat epsi 0).1 l j
  <= getitem2 (ml.diffusion_operator distMat epsi 0).1 i j.
Proof.
  intros HD Hi Hl Hj Hepsi Hle.
  pose proof (rows_gaussian n n epsi distMat HD) as HK.
  unfold ml.diffusion_operator. cbv zeta. cbn [fst].
  rewrite (density_normalize_alpha_0 n) by done.
  rewrite !(getitem2_row_normalize n) by done.
  assert (0 < col_sum n (ml.gaussian epsi distMat) j) as Hpos.
  { apply col_sum_pos; [lia|]. intros a Ha.
    rewrite (getitem2_gaussian n n) by done. apply exp_pos. }
  apply Rmult_le_compat_r; [apply Rlt_le, Rinv_0_lt_compat, Hpos|].
  rewrite !(getitem2_gaussian n n) by done.
  assert (- getitem2 distMat l j ^ 2 / epsi <= - getitem2 distMat i j ^ 2 / epsi)
    as Harg.
  { unfold Rdiv. apply Rmult_le_compat_r; [|lra].
    apply Rlt_le, Rinv_0_lt_compat, Hepsi. }
  destruct Harg as [Hlt|Heq].
  - apply Rlt_le, exp_increasing, Hlt.
  - rewrite Heq. apply Rle_refl.
Qed.

Lemma diffusion_operator_decreases_with_distance_witness :
  getitem2 (ml.diffusion_operator dist_line_3 1 0).1 2 0
  <= getitem2 (ml.diffusion_operator dist_line_3 1 0).1 1 0.
Proof.
  apply (diffusion_operator_decreases_with_distance dist_line_3 3 1 1 2 0).
  - split; [reflexivity | repeat constructor].
  - lia.
  - lia.
  - lia.
  - lra.
  - unfold getitem2, dist_line_3. simpl. lra.
Defined.

(** ** Fitting again *)

Section Refit.
Context {Sampler Kwargs : Type}.
Variable RBFSampler : R -> nat -> Kwargs -> Sampler.
Variable Nystroem : string -> nat -> Kwargs -> Sampler.
Variable fit_transform : Sampler -> list (list R) -> Sampler * list (list R).
Variable eigsh : list (list R) -> nat -> string -> list R * list (list R).

(** [fit] assigns none of the constructor's parameters. *)
Lemma fit_keeps_parameters
    (self : LinearRandomFeatureManifold.t Sampler Kwargs) (X : ndarray3) :
  same_parameters
    (LinearRandomFeatureManifold.fit RBFSampler Nystroem fit_transform eigsh
       self X).1 self.
Proof.
  unfold LinearRandomFeatureManifold.fit. cbv zeta.
  destruct (LinearRandomFeatureManifold.choose_sampler _ _ _) as [s0|e];
    [|by repeat split].
  destruct (fit_transform s0 (reshape_flat X)) as [s F].
  destruct (reshape3 _ _ _ F) as [E3|e]; [|by repeat split].
  destruct (eigsh _ _ _) as [vals v]. by repeat split.
Qed.

(** A [fit] that runs to its end reads nothing but the constructor's
    parameters of the instance it starts from. *)
Lemma fit_depends_on_parameters
    (a b : LinearRandomFeatureManifold.t Sampler Kwargs) (X : ndarray3) :
  same_parameters a b ->
  (LinearRandomFeatureManifold.fit RBFSampler Nystroem fit_transform eigsh
     b X).2 = Ok tt ->
  LinearRandomFeatureManifold.fit RBFSampler Nystroem fit_transform eigsh a X
  = LinearRandomFeatureManifold.fit RBFSampler Nystroem fit_transform eigsh b X.
Proof.
  destruct a as [m1 g1 k1 c1 kw1 s1 e1 v1 n1 M1 d1].
  destruct b as [m2 g2 k2 c2 kw2 s2 e2 v2 n2 M2 d2].
  intros (Hm & Hg & Hk & Hc & Hkw). simpl in *. subst.
  unfold LinearRandomFeatureManifold.fit,
    LinearRandomFeatureManifold.choose_sampler. cbv zeta. simpl.
  destruct (String.eqb m2 "rff"); [|destruct (String.eqb m2 "nystroem")];
    simpl; try discriminate.
  - destruct (fit_transform _ _) as [s F]. simpl.
    destruct (reshape3 _ _ _ F) as [E3|e]; simpl; [|discriminate].
    by destruct (eigsh _ _ _).
  - destruct (fit_transform _ _) as [s F]. simpl.
    destruct (reshape3 _ _ _ F) as [E3|e]; simpl; [|discriminate].
    by destruct (eigsh _ _ _).
Qed.
End Refit.

(** X28.  A [fit] that runs to its end overwrites everything an earlier
    [fit] stored and reads none of it: fitting [X2] on an instance that
    was fitted on [X1] before (successfully or not) is fitting [X2] on
    the instance as it was constructed, for a sampler and a solver that
    return the same results on the same arguments (a fixed
    [random_state] among the keyword arguments). *)
Theorem fit_again_is_fit
    (Sampler Kwargs : Type)
    (RBFSampler : R -> nat -> Kwargs -> Sampler)
    (Nystroem : string -> nat -> Kwargs -> Sampler)
    (fit_transform : Sampler -> list (list R) -> Sampler * list (list R))
    (eigsh : list (list R) -> nat -> string -> list R * list (list R))
    (self : LinearRandomFeatureManifold.t Sampler Kwargs)
    (X1 X2 : ndarray3) :
  (LinearRandomFeatureManifold.fit RBFSampler Nystroem fit_transform eigsh
     self X2).2 = Ok tt ->
  LinearRandomFeatureManifold.fit RBFSampler Nystroem fit_transform eigsh
    (LinearRandomFeatureManifold.fit RBFSampler Nystroem fit_transform eigsh
       self X1).1 X2
  = LinearRandomFeatureManifold.fit RBFSampler Nystroem fit_transform eigsh
      self X2.
Proof.
  intros Hok. apply fit_depends_on_parameters; [|exact Hok].
  apply fit_keeps_parameters.
Qed.

Lemma fit_again_is_fit_witness :
  LinearRandomFeatureManifold.fit (fun _ _ _ => tt) (fun _ _ _ => tt)
    identity_fit_transform fixed_eigsh
    (LinearRandomFeatureManifold.fit (fun _ _ _ => tt) (fun _ _ _ => tt)
       identity_fit_transform fixed_eigsh unfitted_rff
       ensemble_2x3_shifted).1 ensemble_2x3
  = LinearRandomFeatureManifold.fit (fun _ _ _ => tt) (fun _ _ _ => tt)
      identity_fit_transform fixed_eigsh unfitted_rff ensemble_2x3.
Proof.
  apply (fit_again_is_fit unit unit (fun _ _ _ => tt) (fun _ _ _ => tt)
           identity_fit_transform fixed_eigsh unfitted_rff
           ensemble_2x3_shifted ensemble_2x3).
  reflexivity.
Defined.
